(** * Car-wash backend: payment split, job ingestion and daily summaries

    A shallow embedding of [src/controllers/recordController.js] and
    [src/controllers/paymentController.js], and the properties of the
    payment-attribution and summary engine.

    How the program is modelled:

    - JavaScript numbers are IEEE-754 binary64 values.  Money is modelled
      with Rocq's primitive [float]s, whose [+], [-], [*], [/] round to
      nearest even exactly as the JavaScript operators do, so that an
      evaluation here gives the number the program gives.  Counters
      (Prisma [Int] columns) are [Z].
    - Strings are Rocq [string]s; [toLowerCase] maps the ASCII letters,
      which is what decides the search for the ASCII keywords of the
      policy.
    - The persistent store is a record of tables.  Ordered tables are
      lists, and a query returns rows in table order; the two aggregate
      tables, which carry a composite unique key, are [gmap]s.
    - A handler is a function of the request and the store; a handler that
      writes also returns the new store.  An exception inside a handler
      (caught by its [try]/[catch] and answered with a 500) is [None] or
      [ServerError].
    - Time is a number of milliseconds since the epoch.  One clock gives
      both [new Date()] and the default [washDate] of a new job.
    - A plain object used as a dictionary answers a read with its own
      entry, or else with what it inherits from [Object.prototype] under
      names such as "constructor" or "toString".  Dictionaries keyed by
      names of the request go through [JS.get] and [JS.init], which see
      the inherited names.  Identifiers of rows are generated when the
      rows are created (no handler supplies one); none of them is an
      inherited name or an array index, and the dictionaries keyed by
      them are read by their own entries.
    - The route hands the handler a body whose names are strings; it
      checks nothing of [customPrice], which is any JSON value.
    - The counters of the aggregate tables are 32-bit INTEGER columns: a
      statement that takes one out of range fails, and the failure of a
      statement inside the transaction undoes the transaction. *)

From Stdlib Require Import ZArith QArith Uint63 Floats Ascii String.
From stdpp Require Import base list strings pretty sorting gmap.

Local Open Scope string_scope.
Local Open Scope Z_scope.

(** ** JavaScript primitives used by the controllers *)

Module JS.

(** [c.toLowerCase()] on one ASCII character. *)
Definition lowerAscii (c : ascii) : ascii :=
  let n := N_of_ascii c in
  if ((65 <=? n) && (n <=? 90))%N then ascii_of_N (n + 32) else c.

(** [s.toLowerCase()]. *)
Fixpoint toLowerCase (s : string) : string :=
  match s with
  | EmptyString => EmptyString
  | String c s' => String (lowerAscii c) (toLowerCase s')
  end.

(** [s.includes(kw)]: [kw] occurs in [s] at some position. *)
Fixpoint includes (s kw : string) : bool :=
  if String.prefix kw s then true
  else match s with
       | EmptyString => false
       | String _ s' => includes s' kw
       end.

(** [xs.includes(x)] on an array of strings. *)
Definition arrayIncludes (xs : list string) (x : string) : bool :=
  existsb (String.eqb x) xs.

(** [[...new Set(xs)]]: duplicates dropped, first occurrences kept in order. *)
Fixpoint uniqFrom (seen : list string) (xs : list string) : list string :=
  match xs with
  | [] => []
  | x :: xs' =>
      if arrayIncludes seen x then uniqFrom seen xs'
      else x :: uniqFrom (x :: seen) xs'
  end.

Definition uniq (xs : list string) : list string := uniqFrom [] xs.

(** [obj[key] = value] for an entry [(key, value)]. *)
Definition setEntry {V} (obj : gmap string V) (kv : string * V)
    : gmap string V :=
  <[ kv.1 := kv.2 ]> obj.

(** [Object.fromEntries(kvs)]: a later entry overwrites an earlier one. *)
Definition fromEntries {V} (kvs : list (string * V)) : gmap string V :=
  foldl setEntry ∅ kvs.

(** Truthiness of a number: every number but [0], [-0] and [NaN]. *)
Definition truthyNum (x : float) : bool :=
  negb (PrimFloat.eqb x 0%float) && PrimFloat.eqb x x.

(** Truthiness of a string: every string but the empty one. *)
Definition truthyStr (s : string) : bool :=
  negb (String.eqb s "").

(** [a || b] where [a] may be absent ([null]/[undefined]). *)
Definition orNum (a : option float) (b : float) : float :=
  match a with
  | Some x => if truthyNum x then x else b
  | None => b
  end.

(** [Math.round(x)]: the integer nearest to [x], ties towards +infinity;
    NaN, the infinities, the zeros and integral values are returned as
    they are.  Computed exactly on the binary expansion of [x]. *)
Definition Math_round (x : float) : float :=
  match Prim2SF x with
  | S754_finite s m e =>
      if 0 <=? e then x
      else
        let sm := if s then Z.neg m else Z.pos m in
        let n := Z.shiftr (sm + 2 ^ (- e - 1)) (- e) in
        SF2Prim (binary_normalize prec emax n 0 s)
  | _ => x
  end.

(** *** Strings read as numbers *)

(** The decimal digit a character stands for. *)
Definition digitOf (c : ascii) : option Z :=
  let n := Z.of_N (N_of_ascii c) in
  if (48 <=? n) && (n <=? 57) then Some (n - 48) else None.

(** The digit a character stands for in base 16. *)
Definition hexDigitOf (c : ascii) : option Z :=
  let n := Z.of_N (N_of_ascii c) in
  if (48 <=? n) && (n <=? 57) then Some (n - 48)
  else if (97 <=? n) && (n <=? 102) then Some (n - 87)
  else if (65 <=? n) && (n <=? 70) then Some (n - 55)
  else None.

(** The longest run of decimal digits at the head of [s]: the number it
    writes after the digits of [acc], how many digits it has, and what
    follows it. *)
Fixpoint readDigits (s : string) (acc count : Z) : Z * Z * string :=
  match s with
  | String c s' =>
      match digitOf c with
      | Some d => readDigits s' (10 * acc + d) (count + 1)
      | None => (acc, count, s)
      end
  | EmptyString => (acc, count, s)
  end.

(** The same for the digits of base [radix] (16, 8 or 2). *)
Fixpoint readRadix (radix : Z) (s : string) (acc count : Z)
    : Z * Z * string :=
  match s with
  | String c s' =>
      match hexDigitOf c with
      | Some d =>
          if d <? radix then readRadix radix s' (radix * acc + d) (count + 1)
          else (acc, count, s)
      | None => (acc, count, s)
      end
  | EmptyString => (acc, count, s)
  end.

(** The binary64 number nearest to [m * 10^e], ties to even, with the
    sign [neg]; [m] is not negative and has at most [count] digits.
    Above [10^400] the result is an infinity and below [10^-400] a
    zero; in between the quotient is computed with more than 64 bits
    and a sticky bit, and rounded once. *)
Definition roundDecimal (neg : bool) (m e count : Z) : float :=
  if m =? 0 then (if neg then PrimFloat.neg_zero else PrimFloat.zero)
  else if 400 <? e then (if neg then neg_infinity else infinity)
  else if e <? - (400 + count)
  then (if neg then PrimFloat.neg_zero else PrimFloat.zero)
  else if 0 <=? e then
    SF2Prim (binary_normalize prec emax
               (if neg then - (m * 10 ^ e) else m * 10 ^ e) 0 false)
  else
    let den := 10 ^ (- e) in
    let k := Z.max 0 (Z.log2 den + 66 - Z.log2 m) in
    let '(q, r) := Z.div_eucl (m * 2 ^ k) den in
    let mant := 2 * q + (if r =? 0 then 0 else 1) in
    SF2Prim (binary_normalize prec emax
               (if neg then - mant else mant) (- k - 1) false).

(** A white space or line terminator of JavaScript at the head of a
    string (of UTF-8 bytes): the rest of the string when there is one. *)
Definition dropWhiteSpace (s : string) : option string :=
  match s with
  | String c s1 =>
      let n := N_of_ascii c in
      if ((9 <=? n) && (n <=? 13) || (n =? 32))%N then Some s1
      else
        match s1 with
        | String c2 s2 =>
            let n2 := N_of_ascii c2 in
            if ((n =? 194) && (n2 =? 160))%N then Some s2       (* U+00A0 *)
            else
              match s2 with
              | String c3 s3 =>
                  let n3 := N_of_ascii c3 in
                  if ((n =? 225) && (n2 =? 154) && (n3 =? 128)    (* U+1680 *)
                      || (n =? 226) && (n2 =? 128)
                         && ((128 <=? n3) && (n3 <=? 138)    (* U+2000-200A *)
                             || (n3 =? 168) || (n3 =? 169)   (* U+2028, 2029 *)
                             || (n3 =? 175))                 (* U+202F *)
                      || (n =? 226) && (n2 =? 129) && (n3 =? 159) (* U+205F *)
                      || (n =? 227) && (n2 =? 128) && (n3 =? 128) (* U+3000 *)
                      || (n =? 239) && (n2 =? 187) && (n3 =? 191))%N
                                                                  (* U+FEFF *)
                  then Some s3 else None
              | EmptyString => None
              end
        | EmptyString => None
        end
  | EmptyString => None
  end.

Fixpoint trimStartFuel (fuel : nat) (s : string) : string :=
  match fuel with
  | O => s
  | S fuel' =>
      match dropWhiteSpace s with
      | Some s' => trimStartFuel fuel' s'
      | None => s
      end
  end.

(** [s] without the white space at its head. *)
Definition trimStart (s : string) : string :=
  trimStartFuel (String.length s) s.

(** [s] is white space only. *)
Definition isWhiteSpace (s : string) : bool :=
  String.eqb (trimStart s) "".

(** The longest prefix of [s] that is a [StrDecimalLiteral] (an optional
    sign, then [Infinity], or decimal digits with an optional fraction
    and an optional exponent): the number it writes, and what follows
    it.  [None] when no prefix is one. *)
Definition readDecimalLiteral (s : string) : option (float * string) :=
  let '(neg, s1) :=
    match s with
    | String "+" s' => (false, s')
    | String "-" s' => (true, s')
    | _ => (false, s)
    end in
  if String.prefix "Infinity" s1
  then Some (if neg then neg_infinity else infinity,
             String.substring 8 (String.length s1 - 8) s1)
  else
    let '(int, nInt, s2) := readDigits s1 0 0 in
    let '(mant, nFrac, s3) :=
      match s2 with
      | String "." s' =>
          let '(m, n, s'') := readDigits s' int 0 in
          if (nInt =? 0) && (n =? 0) then (int, 0, s2) else (m, n, s'')
      | _ => (int, 0, s2)
      end in
    if (nInt =? 0) && (nFrac =? 0) then None
    else
      let '(exp, s4) :=
        match s3 with
        | String c s' =>
            if (Ascii.eqb c "e" || Ascii.eqb c "E")%bool then
              let '(eneg, s'') :=
                match s' with
                | String "+" t => (false, t)
                | String "-" t => (true, t)
                | _ => (false, s')
                end in
              let '(e, n, rest) := readDigits s'' 0 0 in
              if n =? 0 then (0, s3) else (if eneg then - e else e, rest)
            else (0, s3)
        | EmptyString => (0, s3)
        end in
      Some (roundDecimal neg mant (exp - nFrac) (nInt + nFrac), s4).

(** [parseFloat(s)] on a string: the decimal literal at its head, after
    white space; [NaN] when there is none. *)
Definition parseFloatString (s : string) : float :=
  match readDecimalLiteral (trimStart s) with
  | Some (x, _) => x
  | None => nan
  end.

(** [Number(s)] on a string: white space around a decimal literal, or
    around digits in base 16, 8 or 2 after [0x], [0o] or [0b]; white
    space alone is [0]; anything else is [NaN]. *)
Definition stringToNumber (s : string) : float :=
  let t := trimStart s in
  let radix (r : Z) (digits : string) : float :=
    let '(n, count, rest) := readRadix r digits 0 0 in
    if (0 <? count) && isWhiteSpace rest
    then SF2Prim (binary_normalize prec emax n 0 false) else nan in
  match t with
  | EmptyString => 0%float
  | String "0" (String "x" digits) | String "0" (String "X" digits) =>
      radix 16 digits
  | String "0" (String "o" digits) | String "0" (String "O" digits) =>
      radix 8 digits
  | String "0" (String "b" digits) | String "0" (String "B" digits) =>
      radix 2 digits
  | _ =>
      match readDecimalLiteral t with
      | Some (x, rest) => if isWhiteSpace rest then x else nan
      | None => nan
      end
  end.

(** *** Values of a request body *)

(** A JSON value, or [undefined] for a field that is missing.  An array
    or an object is given by what [ToPrimitive] makes of it: the string
    it converts to (the elements joined by commas for an array,
    "[object Object]" for an object), or [None] when the conversion
    throws a [TypeError], as it does for an object with an entry of its
    own called "toString". *)
Inductive value :=
| VUndefined
| VNull
| VBool (b : bool)
| VNumber (x : float)
| VString (s : string)
| VObject (prim : option string).

(** Truthiness of a value. *)
Definition truthy (v : value) : bool :=
  match v with
  | VUndefined | VNull => false
  | VBool b => b
  | VNumber x => truthyNum x
  | VString s => truthyStr s
  | VObject _ => true
  end.

(** [ToNumber(v)], as a comparison with a number applies it; [None] is
    the [TypeError] of a conversion that throws. *)
Definition toNumber (v : value) : option float :=
  match v with
  | VUndefined => Some nan
  | VNull => Some 0%float
  | VBool b => Some (if b then 1%float else 0%float)
  | VNumber x => Some x
  | VString s => Some (stringToNumber s)
  | VObject (Some s) => Some (stringToNumber s)
  | VObject None => None
  end.

(** [v <= 0]. *)
Definition leZero (v : value) : option bool :=
  match toNumber v with
  | Some x => Some (PrimFloat.leb x 0%float)
  | None => None
  end.

(** [parseFloat(v)]: the value is converted to a string, which is then
    read.  A number is written with the fewest digits that give it
    back, so that it is read as itself, [-0] apart, which is written
    "0". *)
Definition parseFloat (v : value) : option float :=
  match v with
  | VUndefined | VNull | VBool _ => Some nan
  | VNumber x => Some (if PrimFloat.eqb x 0%float then 0%float else x)
  | VString s => Some (parseFloatString s)
  | VObject (Some s) => Some (parseFloatString s)
  | VObject None => None
  end.

(** *** Plain objects used as dictionaries *)

(** The property names every plain object inherits from
    [Object.prototype]; what it inherits under them is a function or an
    object, which is truthy and has no property [id] or [price]. *)
Definition objectPrototype : list string :=
  [ "constructor"; "__defineGetter__"; "__defineSetter__";
    "hasOwnProperty"; "__lookupGetter__"; "__lookupSetter__";
    "isPrototypeOf"; "propertyIsEnumerable"; "toString"; "valueOf";
    "__proto__"; "toLocaleString" ].

Definition inheritedName (key : string) : bool :=
  arrayIncludes objectPrototype key.

(** What [obj[key]] finds: an entry of the object's own, something
    inherited, or nothing ([undefined]). *)
Inductive Lookup (V : Type) :=
| Own (v : V)
| Inherited
| Absent.
Arguments Own {V} _.
Arguments Inherited {V}.
Arguments Absent {V}.

(** [obj[key]] on the object [Object.fromEntries] builds. *)
Definition get {V} (obj : gmap string V) (key : string) : Lookup V :=
  match obj !! key with
  | Some v => Own v
  | None => if inheritedName key then Inherited else Absent
  end.

(** A plain object filled by a loop: its own entries in insertion
    order. *)
Definition has {V} (key : string) (obj : list (string * V)) : bool :=
  existsb (fun kv => String.eqb kv.1 key) obj.

(** [if (!obj[key]) obj[key] = v], for entries that are objects, on a
    dictionary keyed by generated identifiers. *)
Definition initId {V} (key : string) (v : V) (obj : list (string * V))
    : list (string * V) :=
  if has key obj then obj else obj ++ [(key, v)].

(** [if (!obj[key]) obj[key] = v], for entries that are objects, under
    any key: what the object inherits under [key] is truthy, so that no
    entry is made for an inherited name. *)
Definition init {V} (key : string) (v : V) (obj : list (string * V))
    : list (string * V) :=
  if has key obj || inheritedName key then obj else obj ++ [(key, v)].

(** In-place update of [obj[key]]: [obj[key].f = ...].  Under an
    inherited name that is not an entry the write lands on the
    inherited object, and the dictionary is as it was. *)
Definition alter {V} (key : string) (f : V -> V) (obj : list (string * V))
    : list (string * V) :=
  map (fun kv => if String.eqb kv.1 key then (kv.1, f kv.2) else kv) obj.

(** The array index a key is, if it is one: a canonical decimal numeral
    below [2^32 - 1]. *)
Definition arrayIndex (key : string) : option Z :=
  let '(n, count, rest) := readDigits key 0 0 in
  if String.eqb rest "" && (0 <? count)
     && (String.eqb key "0" || negb (String.prefix "0" key))
     && (n <=? 4294967294)
  then Some n else None.

Definition indexLe {V} (kv1 kv2 : string * V) : Prop :=
  default 0 (arrayIndex kv1.1) <= default 0 (arrayIndex kv2.1).

#[export] Instance indexLe_dec {V} : RelDecision (@indexLe V).
Proof. intros kv1 kv2. unfold indexLe. apply _. Defined.

(** [Object.values(obj)]: the entries whose keys are array indices, by
    ascending index, then the others in insertion order. *)
Definition values {V} (obj : list (string * V)) : list V :=
  map snd
    (merge_sort indexLe
       (List.filter (fun kv => bool_decide (is_Some (arrayIndex kv.1))) obj)
     ++ List.filter
          (fun kv => negb (bool_decide (is_Some (arrayIndex kv.1)))) obj).

(** [xs.sort(cmp)]: a stable sort; [x] goes after [y] when
    [cmp(x, y) > 0]. *)
Fixpoint insertBy {A} (cmp : A -> A -> float) (x : A) (l : list A) : list A :=
  match l with
  | [] => [x]
  | y :: l' =>
      if PrimFloat.ltb 0%float (cmp x y) then y :: insertBy cmp x l'
      else x :: l
  end.

Definition sort {A} (cmp : A -> A -> float) (l : list A) : list A :=
  foldr (insertBy cmp) [] l.

End JS.

(** ** Arithmetic interface

    The split policy only multiplies and divides by constants.  It is
    written once over the arithmetic it uses; the controllers run it on
    binary64 numbers ([float]), and the rationals give its reading in
    exact arithmetic. *)

Class Arithmetic (num : Type) := {
  nmul : num -> num -> num;
  ndiv : num -> num -> num;
  (** the numeric literals of the source *)
  lit2 : num; lit3 : num;
  lit0_5 : num; lit0_6 : num; lit0_4 : num
}.

(** binary64: [0.6] and [0.4] denote the nearest representable values. *)
#[export] Instance float_arith : Arithmetic float := {|
  nmul := PrimFloat.mul;
  ndiv := PrimFloat.div;
  lit2 := 2%float; lit3 := 3%float;
  lit0_5 := 0.5%float;
  lit0_6 := 0x1.3333333333333p-1%float;
  lit0_4 := 0x1.999999999999ap-2%float
|}.

(** exact rational arithmetic *)
#[export] Instance Q_arith : Arithmetic Q := {|
  nmul := Qmult;
  ndiv := Qdiv;
  lit2 := 2%Q; lit3 := 3%Q;
  lit0_5 := (1 # 2)%Q; lit0_6 := (6 # 10)%Q; lit0_4 := (4 # 10)%Q
|}.

Record Split (num : Type) := mkSplit { companyShare : num; washerShare : num }.
Arguments mkSplit {num} _ _.
Arguments companyShare {num} _.
Arguments washerShare {num} _.

(** ** recordController.js: the split policy and the special-item test *)

Module RecordController.

(** [calculatePaymentSplit] (recordController.js, lines 12-33). *)
Definition calculatePaymentSplit {num} `{Arithmetic num}
    (serviceItemName : string) (price : num) : Split num :=
  let specialItems := ["engine"; "radiator"; "condenser"] in
  let isSpecialItem :=
    existsb (fun item => JS.includes (JS.toLowerCase serviceItemName) item)
            specialItems in
  let isRug := JS.includes (JS.toLowerCase serviceItemName) "rug" in
  if isSpecialItem then
    let washerShare := ndiv price lit3 in
    let companyShare := nmul (ndiv price lit3) lit2 in
    mkSplit companyShare washerShare
  else if isRug then
    let washerShare := nmul price lit0_5 in
    let companyShare := nmul price lit0_5 in
    mkSplit companyShare washerShare
  else
    let companyShare := nmul price lit0_6 in
    let washerShare := nmul price lit0_4 in
    mkSplit companyShare washerShare.

(** [isSpecialItem] (recordController.js, lines 39-44). *)
Definition isSpecialItem (serviceItemName : string) : bool :=
  let specialItems := ["engine"; "radiator"; "condenser"] in
  existsb (fun item => JS.includes (JS.toLowerCase serviceItemName) item)
          specialItems.

End RecordController.

(** ** paymentController.js: its own copy of the split policy *)

Module PaymentController.

(** [calculatePaymentSplit] (paymentController.js, lines 12-33). *)
Definition calculatePaymentSplit {num} `{Arithmetic num}
    (serviceItemName : string) (price : num) : Split num :=
  let specialItems := ["engine"; "radiator"; "condenser"] in
  let isSpecialItem :=
    existsb (fun item => JS.includes (JS.toLowerCase serviceItemName) item)
            specialItems in
  let isRug := JS.includes (JS.toLowerCase serviceItemName) "rug" in
  if isSpecialItem then
    let washerShare := ndiv price lit3 in
    let companyShare := nmul (ndiv price lit3) lit2 in
    mkSplit companyShare washerShare
  else if isRug then
    let washerShare := nmul price lit0_5 in
    let companyShare := nmul price lit0_5 in
    mkSplit companyShare washerShare
  else
    let companyShare := nmul price lit0_6 in
    let washerShare := nmul price lit0_4 in
    mkSplit companyShare washerShare.

End PaymentController.

(** ** The persistent store

    The tables of the Prisma schema, with the columns the controllers
    read or write.  [createdAt]/[updatedAt] bookkeeping columns and the
    [User] table are left out: no controller modelled here reads them. *)

Record Branch := mkBranch {
  b_id : string; b_name : string; b_code : string;
  b_location : option string; b_isActive : bool
}.

Record Washer := mkWasher {
  w_id : string; w_name : string; w_phone : option string;
  w_isActive : bool; w_branchId : string
}.

Record ServiceItem := mkServiceItem {
  s_id : string; s_name : string; s_price : float; s_isActive : bool
}.

(** [cw_washers] is the implicit many-to-many relation [_CarWashToWasher];
    [cw_washDate] is a time in milliseconds since the epoch. *)
Record CarWash := mkCarWash {
  cw_id : string; cw_branchId : string;
  cw_carNumber : option string; cw_carModel : option string;
  cw_customerName : option string; cw_customerPhone : option string;
  cw_paymentMethod : option string; cw_totalAmount : float;
  cw_washDate : Z; cw_washers : list string
}.

(** The stored price of a line may be absent ([null]). *)
Record WashedItem := mkWashedItem {
  wi_id : string; wi_carWashId : string; wi_washerId : string;
  wi_serviceItemId : string; wi_price : option float
}.

(** A [DailySummary] row; its unique key (washerId, date, branchId) is the
    key of the table. *)
Record DailySummary := mkDailySummary {
  ds_totalCarsWashed : Z; ds_totalItemsWashed : Z
}.

(** A [CompanyDailySummary] row; its unique key is (branchId, date). *)
Record CompanyDailySummary := mkCompanyDailySummary {
  cds_totalCarsWashed : Z; cds_totalItemsWashed : Z
}.

Record Store := mkStore {
  branches : list Branch;
  washers : list Washer;
  serviceItems : list ServiceItem;
  carWashes : list CarWash;
  washedItems : list WashedItem;
  dailySummaries : gmap (string * Z * string) DailySummary;
  companyDailySummaries : gmap (string * Z) CompanyDailySummary
}.

(** ** Requests and their environment *)

(** One element of [req.body.items].  The route makes sure that the two
    names are strings; [customPrice] is whatever the body holds. *)
Record ItemReq := mkItemReq {
  washerName : string; serviceItemName : string; customPrice : JS.value
}.

Record Body := mkBody {
  carNumber : option string; carModel : option string;
  customerName : option string; customerPhone : option string;
  paymentMethod : option string;
  items : option (list ItemReq)
}.

(** What a request finds around it: the clock ([new Date()] and the
    database's [CURRENT_TIMESTAMP], in milliseconds), the server's offset
    from UTC, and the identifiers the store hands to the rows it creates. *)
Record Env := mkEnv {
  now : Z; tzOffset : Z;
  newCarWashId : string; newItemId : nat -> string
}.

Definition msPerDay : Z := 86400000.

(** [d.setHours(0, 0, 0, 0)]: local midnight of the day of [t]. *)
Definition startOfDay (env : Env) (t : Z) : Z :=
  t - (t + tzOffset env) mod msPerDay.

(** [d.setHours(23, 59, 59, 999)]. *)
Definition endOfDay (env : Env) (t : Z) : Z :=
  startOfDay env t + (msPerDay - 1).

Inductive IngestError :=
| NoItems
| BadPaymentMethod
| IdowuRequired
| MissingWashers (names : list string)
| MissingServiceItems (names : list string)
| MissingPrices (names : list string).

(** The [message] field of the 400 responses (the quotation marks inside
    the messages are left out). *)
Definition message (e : IngestError) : string :=
  match e with
  | NoItems => "At least one service item must be provided"
  | BadPaymentMethod => "Payment method must be either cash or transfer"
  | IdowuRequired =>
      "Special items (Engine, Radiator, Condenser) require washer Idowu to be active in your branch"
  | MissingWashers names =>
      "Washers not found, inactive, or not in your branch: " +:+ String.concat ", " names
  | MissingServiceItems names =>
      "Service items not found or inactive: " +:+ String.concat ", " names
  | MissingPrices names =>
      "Custom price required for variable pricing items: " +:+ String.concat ", " names
  end.

Inductive Response :=
| Created (carWash : CarWash) (lines : list WashedItem)   (* 201 *)
| BadRequest (e : IngestError)                            (* 400 *)
| ServerError.                                            (* 500 *)

(** An element of [itemsWithIds]. *)
Record ItemWithIds := mkItemWithIds {
  washerId : string; serviceItemId : string; price : float;
  originalWasherName : string; actualWasherName : string
}.

(** [upsert]: update the row under [key] when there is one, create it
    otherwise. *)
Definition upsert {K V} `{Countable K}
    (key : K) (update : V -> V) (create : V) (m : gmap K V) : gmap K V :=
  match m !! key with
  | Some row => <[ key := update row ]> m
  | None => <[ key := create ]> m
  end.

(** The values of an INTEGER column. *)
Definition int32 (n : Z) : bool :=
  (-2147483648 <=? n) && (n <=? 2147483647).

(** [upsert] as a statement of the database: [None] is the error raised
    when the row written does not fit its columns. *)
Definition upsertChecked {K V} `{Countable K} (fits : V -> bool)
    (key : K) (update : V -> V) (create : V) (m : gmap K V)
    : option (gmap K V) :=
  let row := match m !! key with
             | Some row => update row
             | None => create
             end in
  if fits row then Some (upsert key update create m) else None.

(** Sum of an array of numbers: [reduce((sum, x) => sum + x, 0)]. *)
Definition sumF (xs : list float) : float :=
  fold_left PrimFloat.add xs 0%float.

(** ** recordController.js: job ingestion *)

Module Ingestion.

Import RecordController.

(** [prisma.washer.findMany({ where: { name: { in }, isActive, branchId } })] *)
Definition findWashers (db : Store) (branchId : string)
    (washerNames : list string) : list Washer :=
  List.filter
    (fun w => JS.arrayIncludes washerNames (w_name w)
              && w_isActive w && String.eqb (w_branchId w) branchId)
    (washers db).

(** [prisma.serviceItem.findMany({ where: { name: { in }, isActive } })] *)
Definition findServiceItems (db : Store)
    (serviceItemNames : list string) : list ServiceItem :=
  List.filter
    (fun s => JS.arrayIncludes serviceItemNames (s_name s) && s_isActive s)
    (serviceItems db).

(** [prisma.washer.findFirst] with name equal to ["Idowu"] whatever the
    case, in the branch, active. *)
Definition findIdowu (db : Store) (branchId : string) : option Washer :=
  List.find
    (fun w => String.eqb (JS.toLowerCase (w_name w)) (JS.toLowerCase "Idowu")
              && String.eqb (w_branchId w) branchId && w_isActive w)
    (washers db).

(** [!washerMap[name]]: nothing is found, or the entry found is the
    empty string.  What is inherited is truthy. *)
Definition noWasher (washerMap : gmap string string) (name : string) : bool :=
  match JS.get washerMap name with
  | JS.Own id => negb (JS.truthyStr id)
  | JS.Inherited => false
  | JS.Absent => true
  end.

(** [!serviceItemMap[name]]: an entry is an object, hence truthy, and
    so is what is inherited. *)
Definition noServiceItem (serviceItemMap : gmap string (string * float))
    (name : string) : bool :=
  match JS.get serviceItemMap name with
  | JS.Own _ | JS.Inherited => false
  | JS.Absent => true
  end.

(** [!item.customPrice || item.customPrice <= 0]; [None] is the
    exception the comparison throws on a value that has no number. *)
Definition customPriceMissing (item : ItemReq) : option bool :=
  if negb (JS.truthy (customPrice item)) then Some true
  else JS.leZero (customPrice item).

(** The loop collecting [itemsWithMissingPrices]; [None] is an
    exception: [.price] read on [undefined], or the comparison of the
    custom price.  What is inherited has no [price], and [undefined] is
    not [=== 0]. *)
Fixpoint itemsWithMissingPrices (serviceItemMap : gmap string (string * float))
    (items : list ItemReq) : option (list string) :=
  match items with
  | [] => Some []
  | item :: rest =>
      match JS.get serviceItemMap (serviceItemName item) with
      | JS.Absent => None
      | JS.Inherited => itemsWithMissingPrices serviceItemMap rest
      | JS.Own serviceItemData =>
          if PrimFloat.eqb serviceItemData.2 0%float then
            match customPriceMissing item with
            | None => None
            | Some missing =>
                match itemsWithMissingPrices serviceItemMap rest with
                | None => None
                | Some names =>
                    if missing then Some (serviceItemName item :: names)
                    else Some names
                end
            end
          else itemsWithMissingPrices serviceItemMap rest
      end
  end.

(** The body of [items.map(item => ...)] building [itemsWithIds].
    [None] stands for an element the transaction cannot store, which
    makes its first statement, [tx.carWash.create], throw before
    anything is written: a property read on [undefined], a custom price
    whose conversion throws, or, under an inherited name, a service
    item without identifier and price or a washer identifier that is a
    function. *)
Definition toItemWithIds (IdowuWasher : option Washer)
    (washerMap : gmap string string)
    (serviceItemMap : gmap string (string * float))
    (item : ItemReq) : option ItemWithIds :=
  match JS.get serviceItemMap (serviceItemName item) with
  | JS.Absent | JS.Inherited => None
  | JS.Own serviceItemData =>
      let finalPrice :=
        if PrimFloat.eqb serviceItemData.2 0%float
           && JS.truthy (customPrice item)
        then JS.parseFloat (customPrice item)
        else Some serviceItemData.2 in
      let actualWasherId :=
        if isSpecialItem (serviceItemName item)
        then w_id <$> IdowuWasher
        else match JS.get washerMap (washerName item) with
             | JS.Own id => Some id
             | JS.Inherited | JS.Absent => None
             end in
      match finalPrice, actualWasherId with
      | Some finalPrice, Some actualWasherId =>
          Some {| washerId := actualWasherId;
                  serviceItemId := serviceItemData.1;
                  price := finalPrice;
                  originalWasherName := washerName item;
                  actualWasherName :=
                    if isSpecialItem (serviceItemName item)
                    then "Idowu" else washerName item |}
      | _, _ => None
      end
  end.

(** [washerItemCounts]: lines per credited washer. *)
Definition washerItemCounts (itemsWithIds : list ItemWithIds) : gmap string Z :=
  fold_left
    (fun acc item =>
       <[ washerId item := default 0 (acc !! washerId item) + 1 ]> acc)
    itemsWithIds ∅.

(** [tx.carWash.findMany] of the jobs of the branch, not before [today],
    linked to [washerId]. *)
Definition existingCarWashes (db : Store) (branchId : string) (today : Z)
    (washerId : string) : list CarWash :=
  List.filter
    (fun cw => String.eqb (cw_branchId cw) branchId
               && (today <=? cw_washDate cw)
               && JS.arrayIncludes (cw_washers cw) washerId)
    (carWashes db).

(** The first loop over [allInvolvedWasherIds], filling
    [washerCarInvolvement]. *)
Definition washerCarInvolvement (db : Store) (branchId : string) (today : Z)
    (carWash : CarWash) (allInvolvedWasherIds : list string)
    : gmap string bool :=
  fold_left
    (fun acc washerId =>
       <[ washerId :=
            negb (existsb (fun cw => String.eqb (cw_id cw) (cw_id carWash))
                          (existingCarWashes db branchId today washerId)) ]>
         acc)
    allInvolvedWasherIds ∅.

(** What the second loop leaves in the table when all its statements
    succeed. *)
Definition updatedDailySummaries (branchId : string) (today : Z)
    (involvement : gmap string bool) (counts : gmap string Z)
    (allInvolvedWasherIds : list string)
    (table : gmap (string * Z * string) DailySummary)
    : gmap (string * Z * string) DailySummary :=
  fold_left
    (fun table washerId =>
       let cars := if default false (involvement !! washerId) then 1 else 0 in
       let lines := default 0 (counts !! washerId) in
       upsert (washerId, today, branchId)
         (fun row =>
            {| ds_totalCarsWashed := ds_totalCarsWashed row + cars;
               ds_totalItemsWashed := ds_totalItemsWashed row + lines |})
         {| ds_totalCarsWashed := cars; ds_totalItemsWashed := lines |}
         table)
    allInvolvedWasherIds table.

(** The second loop: one [tx.dailySummary.upsert] per credited washer;
    [None] when one of them fails. *)
Definition updateDailySummaries (branchId : string) (today : Z)
    (involvement : gmap string bool) (counts : gmap string Z)
    (allInvolvedWasherIds : list string)
    (table : gmap (string * Z * string) DailySummary)
    : option (gmap (string * Z * string) DailySummary) :=
  fold_left
    (fun table washerId =>
       match table with
       | None => None
       | Some table =>
           let cars :=
             if default false (involvement !! washerId) then 1 else 0 in
           let lines := default 0 (counts !! washerId) in
           upsertChecked
             (fun row => int32 (ds_totalCarsWashed row)
                         && int32 (ds_totalItemsWashed row))
             (washerId, today, branchId)
             (fun row =>
                {| ds_totalCarsWashed := ds_totalCarsWashed row + cars;
                   ds_totalItemsWashed := ds_totalItemsWashed row + lines |})
             {| ds_totalCarsWashed := cars; ds_totalItemsWashed := lines |}
             table
       end)
    allInvolvedWasherIds (Some table).

(** The body of [prisma.$transaction(async (tx) => ...)], run on the
    store the transaction sees.  [None] is the failure of one of its
    statements: the transaction is rolled back, and what it wrote so
    far, the job and its lines included, is dropped. *)
Definition transaction (env : Env) (branchId : string) (body : Body)
    (itemsWithIds : list ItemWithIds) (totalAmount : float)
    (allInvolvedWasherIds : list string) (db : Store)
    : option (CarWash * list WashedItem * Store) :=
  (* 1. the job, its lines and its links to the credited washers *)
  let carWash :=
    {| cw_id := newCarWashId env; cw_branchId := branchId;
       cw_carNumber := carNumber body; cw_carModel := carModel body;
       cw_customerName := customerName body;
       cw_customerPhone := customerPhone body;
       cw_paymentMethod := paymentMethod body;
       cw_totalAmount := totalAmount;
       cw_washDate := now env;
       cw_washers := allInvolvedWasherIds |} in
  let lines :=
    imap (fun i item =>
            {| wi_id := newItemId env i; wi_carWashId := cw_id carWash;
               wi_washerId := washerId item;
               wi_serviceItemId := serviceItemId item;
               wi_price := Some (price item) |})
         itemsWithIds in
  let db1 :=
    {| branches := branches db; washers := washers db;
       serviceItems := serviceItems db;
       carWashes := carWashes db ++ [carWash];
       washedItems := washedItems db ++ lines;
       dailySummaries := dailySummaries db;
       companyDailySummaries := companyDailySummaries db |} in
  (* 2. the daily summary of each washer *)
  let today := startOfDay env (now env) in
  let counts := washerItemCounts itemsWithIds in
  let involvement :=
    washerCarInvolvement db1 branchId today carWash allInvolvedWasherIds in
  match updateDailySummaries branchId today involvement counts
          allInvolvedWasherIds (dailySummaries db1) with
  | None => None
  | Some summaries =>
  (* 3. the company daily summary of the branch *)
  let nLines := Z.of_nat (length itemsWithIds) in
  match upsertChecked
          (fun row => int32 (cds_totalCarsWashed row)
                      && int32 (cds_totalItemsWashed row))
          (branchId, today)
          (fun row =>
             {| cds_totalCarsWashed := cds_totalCarsWashed row + 1;
                cds_totalItemsWashed := cds_totalItemsWashed row + nLines |})
          {| cds_totalCarsWashed := 1; cds_totalItemsWashed := nLines |}
          (companyDailySummaries db1) with
  | None => None
  | Some company =>
      Some (carWash, lines,
            {| branches := branches db1; washers := washers db1;
               serviceItems := serviceItems db1;
               carWashes := carWashes db1; washedItems := washedItems db1;
               dailySummaries := summaries;
               companyDailySummaries := company |})
  end
  end.

(** [createCarWashRecord] (recordController.js, lines 46-311), for a
    caller of branch [branchId]. *)
Definition createCarWashRecord (env : Env) (branchId : string) (body : Body)
    (db : Store) : Response * Store :=
  match items body with
  | None | Some [] => (BadRequest NoItems, db)
  | Some items =>
    if match paymentMethod body with
       | Some pm =>
           JS.truthyStr pm
           && negb (JS.arrayIncludes ["cash"; "transfer"] (JS.toLowerCase pm))
       | None => false
       end
    then (BadRequest BadPaymentMethod, db)
    else
    let washerNames := JS.uniq (map washerName items) in
    let serviceItemNames := JS.uniq (map serviceItemName items) in
    let washers := findWashers db branchId washerNames in
    let serviceItems := findServiceItems db serviceItemNames in
    let IdowuWasher := findIdowu db branchId in
    let hasSpecialItems :=
      existsb (fun item => isSpecialItem (serviceItemName item)) items in
    if hasSpecialItems && negb (bool_decide (is_Some IdowuWasher))
    then (BadRequest IdowuRequired, db)
    else
    let washerMap :=
      JS.fromEntries (map (fun w => (w_name w, w_id w)) washers) in
    let serviceItemMap :=
      JS.fromEntries (map (fun s => (s_name s, (s_id s, s_price s)))
                          serviceItems) in
    let missingWashers := List.filter (noWasher washerMap) washerNames in
    if negb (length missingWashers =? 0)%nat
    then (BadRequest (MissingWashers missingWashers), db)
    else
    let missingServiceItems :=
      List.filter (noServiceItem serviceItemMap) serviceItemNames in
    if negb (length missingServiceItems =? 0)%nat
    then (BadRequest (MissingServiceItems missingServiceItems), db)
    else
    match itemsWithMissingPrices serviceItemMap items with
    | None => (ServerError, db)
    | Some missingPrices =>
    if negb (length missingPrices =? 0)%nat
    then (BadRequest (MissingPrices missingPrices), db)
    else
    match mapM (toItemWithIds IdowuWasher washerMap serviceItemMap) items with
    | None => (ServerError, db)
    | Some itemsWithIds =>
        let totalAmount := sumF (map price itemsWithIds) in
        let allInvolvedWasherIds := JS.uniq (map washerId itemsWithIds) in
        match transaction env branchId body itemsWithIds totalAmount
                          allInvolvedWasherIds db with
        | None => (ServerError, db)
        | Some (carWash, lines, db') => (Created carWash lines, db')
        end
    end
    end
  end.

End Ingestion.

(** ** Read side: what the summaries return *)

Record Joined := mkJoined {
  j_item : WashedItem; j_serviceItem : ServiceItem;
  j_carWash : CarWash; j_washer : option Washer
}.

(** [prisma.washedItem.findMany] over the lines whose job is of the branch
    and within the two instants, with the related rows included.  Foreign
    keys make the job and the service item of a line exist. *)
Definition findWashedItems (db : Store) (branchId : string) (from to : Z)
    : list Joined :=
  omap (fun wi =>
          match List.find (fun cw => String.eqb (cw_id cw) (wi_carWashId wi))
                          (carWashes db),
                List.find (fun s => String.eqb (s_id s) (wi_serviceItemId wi))
                          (serviceItems db) with
          | Some cw, Some s =>
              if String.eqb (cw_branchId cw) branchId
                 && (from <=? cw_washDate cw) && (cw_washDate cw <=? to)
              then Some (mkJoined wi s cw
                           (List.find (fun w => String.eqb (w_id w) (wi_washerId wi))
                                      (washers db)))
              else None
          | _, _ => None
          end)
       (washedItems db).

(** [prisma.carWash.findMany] over the jobs of the branch within the two
    instants. *)
Definition findCarWashes (db : Store) (branchId : string) (from to : Z)
    : list CarWash :=
  List.filter
    (fun cw => String.eqb (cw_branchId cw) branchId
               && (from <=? cw_washDate cw) && (cw_washDate cw <=? to))
    (carWashes db).

Record PaymentMethods := mkPaymentMethods { pm_cash : float; pm_transfer : float }.

Record ItemSummary := mkItemSummary {
  is_itemName : string; is_quantity : Z; is_totalEarnings : float;
  is_companyEarning : float; is_workerShare : float
}.

Record Totals := mkTotals {
  t_totalEarnings : float; t_companyShare : float; t_workerShare : float;
  t_totalJobs : Z; t_totalItemsWashed : Z
}.

Record BranchSummary := mkBranchSummary {
  bs_summary : Totals;
  bs_itemsWashed : list ItemSummary;
  bs_paymentMethods : PaymentMethods
}.

Record OverallTotals := mkOverallTotals {
  o_totalEarnings : float; o_companyShare : float; o_workerShare : float;
  o_totalJobs : Z; o_totalItemsWashed : Z; o_cash : float; o_transfer : float
}.

(** ** recordController.js: the company daily summaries *)

Module Summary.

Import RecordController.
Local Open Scope float_scope.

(** The accumulators of the loop over the lines. *)
Record Acc := mkAcc {
  totalSales : float; companyEarnings : float; washerEarnings : float;
  itemsSummary : list (string * ItemSummary)
}.

(** [getCompanyDailySummary] (recordController.js, lines 388-526);
    [date] is the query parameter, today when absent. *)
Definition getCompanyDailySummary (env : Env) (branchId : string)
    (date : option Z) (db : Store) : BranchSummary :=
  let targetDate := default (now env) date in
  let startOfDay := startOfDay env targetDate in
  let endOfDay := endOfDay env targetDate in
  let carWashRecords := findCarWashes db branchId startOfDay endOfDay in
  let washedItems := findWashedItems db branchId startOfDay endOfDay in
  let paymentMethods :=
    fold_left
      (fun pm record =>
         match cw_paymentMethod record with
         | Some m =>
             if JS.truthyStr m then
               let method := JS.toLowerCase m in
               if String.eqb method "cash"
               then {| pm_cash := pm_cash pm + cw_totalAmount record;
                       pm_transfer := pm_transfer pm |}
               else if String.eqb method "transfer"
               then {| pm_cash := pm_cash pm;
                       pm_transfer := pm_transfer pm + cw_totalAmount record |}
               else pm
             else pm
         | None => pm
         end)
      carWashRecords {| pm_cash := 0; pm_transfer := 0 |} in
  let acc :=
    fold_left
      (fun acc item =>
         let price :=
           JS.orNum (wi_price (j_item item)) (s_price (j_serviceItem item)) in
         let serviceItemName := s_name (j_serviceItem item) in
         let split := calculatePaymentSplit serviceItemName price in
         {| totalSales := totalSales acc + price;
            companyEarnings := companyEarnings acc + companyShare split;
            washerEarnings := washerEarnings acc + washerShare split;
            itemsSummary :=
              JS.alter serviceItemName
                (fun e =>
                   {| is_itemName := is_itemName e;
                      is_quantity := (is_quantity e + 1)%Z;
                      is_totalEarnings := is_totalEarnings e + price;
                      is_companyEarning := is_companyEarning e + companyShare split;
                      is_workerShare := is_workerShare e + washerShare split |})
                (JS.init serviceItemName
                   {| is_itemName := serviceItemName; is_quantity := 0%Z;
                      is_totalEarnings := 0; is_companyEarning := 0;
                      is_workerShare := 0 |}
                   (itemsSummary acc)) |})
      washedItems
      {| totalSales := 0; companyEarnings := 0; washerEarnings := 0;
         itemsSummary := [] |} in
  let itemsWashed :=
    map (fun item : ItemSummary =>
           {| is_itemName := is_itemName item;
              is_quantity := is_quantity item;
              is_totalEarnings := JS.Math_round (is_totalEarnings item * 100) / 100;
              is_companyEarning := JS.Math_round (is_companyEarning item * 100) / 100;
              is_workerShare := JS.Math_round (is_workerShare item * 100) / 100 |})
        (JS.values (itemsSummary acc)) in
  let itemsWashed :=
    JS.sort (fun a b => is_totalEarnings b - is_totalEarnings a) itemsWashed in
  {| bs_summary :=
       {| t_totalEarnings := JS.Math_round (totalSales acc * 100) / 100;
          t_companyShare := JS.Math_round (companyEarnings acc * 100) / 100;
          t_workerShare := JS.Math_round (washerEarnings acc * 100) / 100;
          t_totalJobs := Z.of_nat (length carWashRecords);
          t_totalItemsWashed := Z.of_nat (length washedItems) |};
     bs_itemsWashed := itemsWashed;
     bs_paymentMethods :=
       {| pm_cash := JS.Math_round (pm_cash paymentMethods * 100) / 100;
          pm_transfer := JS.Math_round (pm_transfer paymentMethods * 100) / 100 |}
  |}.

(** Branch names in ascending order ([orderBy: { name: 'asc' }]), here
    the order of the character codes. *)
Definition nameLe (b1 b2 : Branch) : Prop :=
  String.leb (b_name b1) (b_name b2) = true.

#[export] Instance nameLe_dec : RelDecision nameLe.
Proof. intros b1 b2. unfold nameLe. apply _. Defined.

(** [prisma.branch.findMany({ where: { isActive: true }, orderBy: name })] *)
Definition findActiveBranches (db : Store) : list Branch :=
  merge_sort nameLe (List.filter b_isActive (branches db)).

(** [getCompanyDailySummaryAllBranches] (recordController.js, lines
    680-859): the summary of every active branch, and the overall
    totals. *)
Definition getCompanyDailySummaryAllBranches (env : Env) (date : option Z)
    (db : Store) : list (Branch * BranchSummary) * OverallTotals :=
  let targetDate := default (now env) date in
  let startOfDay := startOfDay env targetDate in
  let endOfDay := endOfDay env targetDate in
  let branches := findActiveBranches db in
  let branchSummaries :=
    map
      (fun branch =>
         let carWashRecords :=
           findCarWashes db (b_id branch) startOfDay endOfDay in
         let washedItems :=
           findWashedItems db (b_id branch) startOfDay endOfDay in
         let paymentMethods :=
           fold_left
             (fun pm record =>
                match cw_paymentMethod record with
                | Some m =>
                    if JS.truthyStr m then
                      let method := JS.toLowerCase m in
                      if String.eqb method "cash"
                      then {| pm_cash := pm_cash pm + cw_totalAmount record;
                              pm_transfer := pm_transfer pm |}
                      else if String.eqb method "transfer"
                      then {| pm_cash := pm_cash pm;
                              pm_transfer :=
                                pm_transfer pm + cw_totalAmount record |}
                      else pm
                    else pm
                | None => pm
                end)
             carWashRecords {| pm_cash := 0; pm_transfer := 0 |} in
         let acc :=
           fold_left
             (fun acc item =>
                let price :=
                  JS.orNum (wi_price (j_item item))
                           (s_price (j_serviceItem item)) in
                let serviceItemName := s_name (j_serviceItem item) in
                let split := calculatePaymentSplit serviceItemName price in
                {| totalSales := totalSales acc + price;
                   companyEarnings := companyEarnings acc + companyShare split;
                   washerEarnings := washerEarnings acc + washerShare split;
                   itemsSummary :=
                     JS.alter serviceItemName
                       (fun e =>
                          {| is_itemName := is_itemName e;
                             is_quantity := (is_quantity e + 1)%Z;
                             is_totalEarnings := is_totalEarnings e + price;
                             is_companyEarning :=
                               is_companyEarning e + companyShare split;
                             is_workerShare :=
                               is_workerShare e + washerShare split |})
                       (JS.init serviceItemName
                          {| is_itemName := serviceItemName;
                             is_quantity := 0%Z;
                             is_totalEarnings := 0; is_companyEarning := 0;
                             is_workerShare := 0 |}
                          (itemsSummary acc)) |})
             washedItems
             {| totalSales := 0; companyEarnings := 0; washerEarnings := 0;
                itemsSummary := [] |} in
         let itemsWashed :=
           map (fun item : ItemSummary =>
                  {| is_itemName := is_itemName item;
                     is_quantity := is_quantity item;
                     is_totalEarnings :=
                       JS.Math_round (is_totalEarnings item * 100) / 100;
                     is_companyEarning :=
                       JS.Math_round (is_companyEarning item * 100) / 100;
                     is_workerShare :=
                       JS.Math_round (is_workerShare item * 100) / 100 |})
               (JS.values (itemsSummary acc)) in
         let itemsWashed :=
           JS.sort (fun a b => is_totalEarnings b - is_totalEarnings a)
                   itemsWashed in
         (branch,
          {| bs_summary :=
               {| t_totalEarnings := JS.Math_round (totalSales acc * 100) / 100;
                  t_companyShare :=
                    JS.Math_round (companyEarnings acc * 100) / 100;
                  t_workerShare :=
                    JS.Math_round (washerEarnings acc * 100) / 100;
                  t_totalJobs := Z.of_nat (length carWashRecords);
                  t_totalItemsWashed := Z.of_nat (length washedItems) |};
             bs_itemsWashed := itemsWashed;
             bs_paymentMethods :=
               {| pm_cash := JS.Math_round (pm_cash paymentMethods * 100) / 100;
                  pm_transfer :=
                    JS.Math_round (pm_transfer paymentMethods * 100) / 100 |}
          |}))
      branches in
  let overallTotals :=
    fold_left
      (fun acc branch =>
         {| o_totalEarnings :=
              o_totalEarnings acc + t_totalEarnings (bs_summary branch.2);
            o_companyShare :=
              o_companyShare acc + t_companyShare (bs_summary branch.2);
            o_workerShare :=
              o_workerShare acc + t_workerShare (bs_summary branch.2);
            o_totalJobs :=
              (o_totalJobs acc + t_totalJobs (bs_summary branch.2))%Z;
            o_totalItemsWashed :=
              (o_totalItemsWashed acc
               + t_totalItemsWashed (bs_summary branch.2))%Z;
            o_cash := o_cash acc + pm_cash (bs_paymentMethods branch.2);
            o_transfer :=
              o_transfer acc + pm_transfer (bs_paymentMethods branch.2) |})
      branchSummaries
      {| o_totalEarnings := 0; o_companyShare := 0; o_workerShare := 0;
         o_totalJobs := 0%Z; o_totalItemsWashed := 0%Z;
         o_cash := 0; o_transfer := 0 |} in
  (branchSummaries,
   {| o_totalEarnings := JS.Math_round (o_totalEarnings overallTotals * 100) / 100;
      o_companyShare := JS.Math_round (o_companyShare overallTotals * 100) / 100;
      o_workerShare := JS.Math_round (o_workerShare overallTotals * 100) / 100;
      o_totalJobs := o_totalJobs overallTotals;
      o_totalItemsWashed := o_totalItemsWashed overallTotals;
      o_cash := JS.Math_round (o_cash overallTotals * 100) / 100;
      o_transfer := JS.Math_round (o_transfer overallTotals * 100) / 100 |}).

End Summary.

(** ** paymentController.js: the payment summaries *)

Record PaidItem := mkPaidItem {
  pi_carNumber : option string; pi_serviceItem : string;
  pi_price : float; pi_washerShare : float; pi_companyShare : float
}.

Record WasherPayment := mkWasherPayment {
  wp_washerId : string; wp_washerName : string; wp_washerPhone : option string;
  wp_totalAmount : float; wp_washerEarnings : float; wp_companyEarnings : float;
  wp_itemsWashed : Z; wp_carsWashed : list string; wp_items : list PaidItem
}.

Record PaymentTotals := mkPaymentTotals {
  pt_totalSales : float; pt_companyEarnings : float; pt_washerEarnings : float;
  pt_totalCarsWashed : Z; pt_totalItemsWashed : Z
}.

Module Payments.

Import PaymentController.
Local Open Scope float_scope.

(** [new Set().add(x)] *)
Definition setAdd (x : string) (set : list string) : list string :=
  if JS.arrayIncludes set x then set else set ++ [x].

(** [getDailyPaymentSummary] (paymentController.js, lines 39-183).  The
    washer of a line is included by the query; [None] is the exception
    raised when it is missing. *)
Definition getDailyPaymentSummary (env : Env) (branchId : string)
    (date : option Z) (db : Store)
    : option (PaymentTotals * list WasherPayment) :=
  let targetDate := default (now env) date in
  let startOfDay := startOfDay env targetDate in
  let endOfDay := endOfDay env targetDate in
  let washedItems := findWashedItems db branchId startOfDay endOfDay in
  match mapM j_washer washedItems with
  | None => None
  | Some _ =>
  let '(washerSummaries, totalCompanyEarnings, totalWasherEarnings,
        totalSales, uniqueCars) :=
    fold_left
      (fun '(washerSummaries, totalCompanyEarnings, totalWasherEarnings,
             totalSales, uniqueCars) item =>
         let washerId := wi_washerId (j_item item) in
         let washerName := default "" (w_name <$> j_washer item) in
         let washerPhone := j_washer item ≫= w_phone in
         let price :=
           JS.orNum (wi_price (j_item item)) (s_price (j_serviceItem item)) in
         let serviceItemName := s_name (j_serviceItem item) in
         let carWashId := cw_id (j_carWash item) in
         let split := calculatePaymentSplit serviceItemName price in
         (JS.alter washerId
            (fun w =>
               {| wp_washerId := wp_washerId w;
                  wp_washerName := wp_washerName w;
                  wp_washerPhone := wp_washerPhone w;
                  wp_totalAmount := wp_totalAmount w + price;
                  wp_washerEarnings := wp_washerEarnings w + washerShare split;
                  wp_companyEarnings := wp_companyEarnings w + companyShare split;
                  wp_itemsWashed := (wp_itemsWashed w + 1)%Z;
                  wp_carsWashed := setAdd carWashId (wp_carsWashed w);
                  wp_items :=
                    (wp_items w ++
                     [ {| pi_carNumber := cw_carNumber (j_carWash item);
                          pi_serviceItem := serviceItemName;
                          pi_price := price;
                          pi_washerShare := washerShare split;
                          pi_companyShare := companyShare split |} ])%list |})
            (JS.initId washerId
               {| wp_washerId := washerId; wp_washerName := washerName;
                  wp_washerPhone := washerPhone;
                  wp_totalAmount := 0; wp_washerEarnings := 0;
                  wp_companyEarnings := 0; wp_itemsWashed := 0%Z;
                  wp_carsWashed := []; wp_items := [] |}
               washerSummaries),
          totalCompanyEarnings + companyShare split,
          totalWasherEarnings + washerShare split,
          totalSales + price,
          setAdd carWashId uniqueCars))
      washedItems ([], 0, 0, 0, []) in
  let washerPayments :=
    map (fun summary : WasherPayment =>
           {| wp_washerId := wp_washerId summary;
              wp_washerName := wp_washerName summary;
              wp_washerPhone := wp_washerPhone summary;
              wp_totalAmount := JS.Math_round (wp_totalAmount summary * 100) / 100;
              wp_washerEarnings :=
                JS.Math_round (wp_washerEarnings summary * 100) / 100;
              wp_companyEarnings :=
                JS.Math_round (wp_companyEarnings summary * 100) / 100;
              wp_itemsWashed := wp_itemsWashed summary;
              wp_carsWashed := wp_carsWashed summary;
              wp_items := wp_items summary |})
        (map snd washerSummaries) in
  let washerPayments :=
    JS.sort (fun a b => wp_washerEarnings b - wp_washerEarnings a)
            washerPayments in
  Some
    ({| pt_totalSales := JS.Math_round (totalSales * 100) / 100;
        pt_companyEarnings := JS.Math_round (totalCompanyEarnings * 100) / 100;
        pt_washerEarnings := JS.Math_round (totalWasherEarnings * 100) / 100;
        pt_totalCarsWashed := Z.of_nat (length uniqueCars);
        pt_totalItemsWashed := Z.of_nat (length washedItems) |},
     washerPayments)
  end.

(** [getWasherPaymentSummary] (paymentController.js, lines 189-309);
    [None] is the 404 answer for a washer that is not of the branch. *)
Definition getWasherPaymentSummary (env : Env) (branchId washerId : string)
    (date : option Z) (db : Store)
    : option (PaymentTotals * list PaidItem) :=
  let targetDate := default (now env) date in
  let startOfDay := startOfDay env targetDate in
  let endOfDay := endOfDay env targetDate in
  match List.find
          (fun w => String.eqb (w_id w) washerId
                    && String.eqb (w_branchId w) branchId)
          (washers db) with
  | None => None
  | Some washer =>
      let washedItems :=
        List.filter
          (fun item => String.eqb (wi_washerId (j_item item)) washerId)
          (findWashedItems db branchId startOfDay endOfDay) in
      let '(totalAmount, washerEarnings, companyEarnings, carsWashed, items) :=
        fold_left
          (fun '(totalAmount, washerEarnings, companyEarnings, carsWashed,
                 items) item =>
             let price :=
               JS.orNum (wi_price (j_item item))
                        (s_price (j_serviceItem item)) in
             let serviceItemName := s_name (j_serviceItem item) in
             let split := calculatePaymentSplit serviceItemName price in
             (totalAmount + price,
              washerEarnings + washerShare split,
              companyEarnings + companyShare split,
              setAdd (cw_id (j_carWash item)) carsWashed,
              (items ++
               [ {| pi_carNumber := cw_carNumber (j_carWash item);
                    pi_serviceItem := serviceItemName;
                    pi_price := price;
                    pi_washerShare := washerShare split;
                    pi_companyShare := companyShare split |} ])%list))
          washedItems (0, 0, 0, [], []) in
      Some
        ({| pt_totalSales := JS.Math_round (totalAmount * 100) / 100;
            pt_companyEarnings := JS.Math_round (companyEarnings * 100) / 100;
            pt_washerEarnings := JS.Math_round (washerEarnings * 100) / 100;
            pt_totalCarsWashed := Z.of_nat (length carsWashed);
            pt_totalItemsWashed := Z.of_nat (length washedItems) |},
         items)
  end.

(** [getCompanyPaymentSummary] (paymentController.js, lines 314-420). *)
Definition getCompanyPaymentSummary (env : Env) (branchId : string)
    (date : option Z) (db : Store) : PaymentTotals * PaymentMethods :=
  let targetDate := default (now env) date in
  let startOfDay := startOfDay env targetDate in
  let endOfDay := endOfDay env targetDate in
  let carWashRecords := findCarWashes db branchId startOfDay endOfDay in
  let washedItems := findWashedItems db branchId startOfDay endOfDay in
  let paymentMethods :=
    fold_left
      (fun pm record =>
         match cw_paymentMethod record with
         | Some m =>
             if JS.truthyStr m then
               let method := JS.toLowerCase m in
               if String.eqb method "cash"
               then {| pm_cash := pm_cash pm + cw_totalAmount record;
                       pm_transfer := pm_transfer pm |}
               else if String.eqb method "transfer"
               then {| pm_cash := pm_cash pm;
                       pm_transfer := pm_transfer pm + cw_totalAmount record |}
               else pm
             else pm
         | None => pm
         end)
      carWashRecords {| pm_cash := 0; pm_transfer := 0 |} in
  let '(totalSales, companyEarnings, washerEarnings) :=
    fold_left
      (fun '(totalSales, companyEarnings, washerEarnings) item =>
         let price :=
           JS.orNum (wi_price (j_item item)) (s_price (j_serviceItem item)) in
         let serviceItemName := s_name (j_serviceItem item) in
         let split := calculatePaymentSplit serviceItemName price in
         (totalSales + price,
          companyEarnings + companyShare split,
          washerEarnings + washerShare split))
      washedItems (0, 0, 0) in
  ({| pt_totalSales := JS.Math_round (totalSales * 100) / 100;
      pt_companyEarnings := JS.Math_round (companyEarnings * 100) / 100;
      pt_washerEarnings := JS.Math_round (washerEarnings * 100) / 100;
      pt_totalCarsWashed := Z.of_nat (length carWashRecords);
      pt_totalItemsWashed := Z.of_nat (length washedItems) |},
   {| pm_cash := JS.Math_round (pm_cash paymentMethods * 100) / 100;
      pm_transfer := JS.Math_round (pm_transfer paymentMethods * 100) / 100 |}).

End Payments.


(** ** Notions used in the statements *)

(** [name] contains [kw] whatever the case: some segment of [name] reads
    [kw] once lowered. *)
Definition containsCI (kw name : string) : Prop :=
  exists pre mid suf,
    name = pre +:+ mid +:+ suf /\ JS.toLowerCase mid = kw.

(** A special service item: its name contains "engine", "radiator" or
    "condenser" whatever the case. *)
Definition Special (name : string) : Prop :=
  containsCI "engine" name \/ containsCI "radiator" name
  \/ containsCI "condenser" name.

(** A rug service item: its name contains "rug" whatever the case. *)
Definition Rug (name : string) : Prop := containsCI "rug" name.

(** The dictionaries the ingestion builds from what its two queries
    return: [washerMap] and [serviceItemMap]. *)
Definition washerMapOf (db : Store) (b : string) (its : list ItemReq)
    : gmap string string :=
  JS.fromEntries
    (map (fun w => (w_name w, w_id w))
         (Ingestion.findWashers db b (JS.uniq (map washerName its)))).

Definition serviceItemMapOf (db : Store) (its : list ItemReq)
    : gmap string (string * float) :=
  JS.fromEntries
    (map (fun s => (s_name s, (s_id s, s_price s)))
         (Ingestion.findServiceItems db (JS.uniq (map serviceItemName its)))).

(** [w] is an active washer of branch [b] called Idowu, whatever the case. *)
Definition IdowuOf (db : Store) (b : string) (w : Washer) : Prop :=
  w ∈ washers db /\ w_branchId w = b /\ w_isActive w = true
  /\ JS.toLowerCase (w_name w) = "idowu".

(** [w] is an active washer of branch [b] called [name]. *)
Definition ActiveWasher (db : Store) (b name : string) (w : Washer) : Prop :=
  w ∈ washers db /\ w_branchId w = b /\ w_isActive w = true
  /\ w_name w = name.

(** Branch [b] has an active washer called [name]. *)
Definition hasActiveWasher (db : Store) (b name : string) : bool :=
  existsb (fun w => String.eqb (w_name w) name && w_isActive w
                    && String.eqb (w_branchId w) b)
          (washers db).

(** The payment method of the submission is absent, empty, or one of
    "cash" and "transfer" whatever the case. *)
Definition paymentMethodOk (body : Body) : Prop :=
  match paymentMethod body with
  | Some pm =>
      pm = "" \/ JS.toLowerCase pm = "cash" \/ JS.toLowerCase pm = "transfer"
  | None => True
  end.

(** The counters of a washer's day, 0 when there is no row yet. *)
Definition jobCounter (db : Store) (w : string) (day : Z) (b : string) : Z :=
  default 0 (ds_totalCarsWashed <$> dailySummaries db !! (w, day, b)).

Definition itemCounter (db : Store) (w : string) (day : Z) (b : string) : Z :=
  default 0 (ds_totalItemsWashed <$> dailySummaries db !! (w, day, b)).

(** How many of the lines credit washer [w]. *)
Definition linesCredited (w : string) (lines : list WashedItem) : Z :=
  Z.of_nat (length (List.filter (fun l => String.eqb (wi_washerId l) w) lines)).

(** The lines a summary of branch [b] reads for the day of [date] (today
    when absent): those whose job is of the branch and of that day. *)
Definition linesOfDay (env : Env) (b : string) (date : option Z) (db : Store)
    : list Joined :=
  findWashedItems db b
    (startOfDay env (default (now env) date))
    (endOfDay env (default (now env) date)).

(** The price a summary uses for a line: [item.price || item.serviceItem.price]. *)
Definition priceUsed (j : Joined) : float :=
  JS.orNum (wi_price (j_item j)) (s_price (j_serviceItem j)).

(** The price stored with a line, 0 when absent. *)
Definition priceStored (j : Joined) : float :=
  default 0%float (wi_price (j_item j)).

(** Two stores with the same raw data; their aggregate tables may differ. *)
Definition sameRawData (db1 db2 : Store) : Prop :=
  branches db1 = branches db2 /\ washers db1 = washers db2
  /\ serviceItems db1 = serviceItems db2
  /\ carWashes db1 = carWashes db2 /\ washedItems db1 = washedItems db2.

(** Sum of an array of counters. *)
Definition sumZ (xs : list Z) : Z := fold_left Z.add xs 0.

(** The split the controllers compute, on binary64 numbers. *)
Definition split (name : string) (p : float) : Split float :=
  RecordController.calculatePaymentSplit name p.

(** The same policy read in exact arithmetic. *)
Definition splitQ (name : string) (p : Q) : Split Q :=
  RecordController.calculatePaymentSplit name p.

(** The number that is the integer [k]. *)
Definition wholePrice (k : Z) : float :=
  PrimFloat.of_uint63 (Uint63.of_Z k).

(** [p * c + p * w === p] for the whole prices [k], [k + 1], ...,
    [k + n - 1]. *)
Fixpoint sharesSumExact (c w : float) (k : Z) (n : nat) : bool :=
  match n with
  | O => true
  | S n' =>
      let p := wholePrice k in
      if PrimFloat.eqb (p * c + p * w)%float p
      then sharesSumExact c w (k + 1) n'
      else false
  end.

(** Rounding to two decimals at the output boundary:
    [Math.round(x * 100) / 100]. *)
Definition round2 (x : float) : float :=
  (JS.Math_round (x * 100) / 100)%float.

(** ** A branch for the examples *)

Module Ex.

(** 14 November 2023, 22:13:20 UTC, on a server one hour ahead of UTC. *)
Definition env : Env :=
  {| now := 1700000000000; tzOffset := 3600000;
     newCarWashId := "job-1";
     newItemId := fun i => "line-" +:+ pretty i |}.

Definition today : Z := startOfDay env (now env).

Definition sam : Washer := mkWasher "w-sam" "Sam" None true "branch_a".
Definition idowu : Washer := mkWasher "w-idowu" "idowu" None true "branch_a".

Definition services : list ServiceItem :=
  [ mkServiceItem "s-full" "Full Wash" 50 true;
    mkServiceItem "s-engine" "Engine Wash" 300 true;
    mkServiceItem "s-rug" "Car Rug" 0 true ].

(** A branch with the washers Sam and Idowu, and no job yet. *)
Definition db : Store :=
  {| branches := [ mkBranch "branch_a" "Branch A" "A" None true ];
     washers := [ sam; idowu ];
     serviceItems := services;
     carWashes := []; washedItems := [];
     dailySummaries := ∅; companyDailySummaries := ∅ |}.

(** The same branch without Idowu. *)
Definition dbNoIdowu : Store :=
  {| branches := branches db; washers := [ sam ];
     serviceItems := services;
     carWashes := []; washedItems := [];
     dailySummaries := ∅; companyDailySummaries := ∅ |}.

Definition line (washer item : string) : ItemReq :=
  mkItemReq washer item JS.VUndefined.

Definition submit (lines : list ItemReq) : Body :=
  mkBody None None None None (Some "cash") (Some lines).

(** What a submission leaves behind. *)
Definition after (lines : list ItemReq) : Store :=
  (Ingestion.createCarWashRecord env "branch_a" (submit lines) db).2.

Definition job (total : float) (credited : list string) : CarWash :=
  mkCarWash "job-1" "branch_a" None None None None (Some "cash") total
            (now env) credited.

(** A store of two active branches holding the given jobs and lines,
    with the given aggregate tables. *)
Definition storeOf (jobs : list CarWash) (lines : list WashedItem)
    (daily : gmap (string * Z * string) DailySummary)
    (company : gmap (string * Z) CompanyDailySummary) : Store :=
  {| branches := [ mkBranch "branch_b" "Branch B" "B" None true;
                   mkBranch "branch_a" "Branch A" "A" None true;
                   mkBranch "branch_c" "Branch C" "C" None false ];
     washers := [ sam; idowu;
                  mkWasher "w-bola" "Bola" None true "branch_b" ];
     serviceItems := services;
     carWashes := jobs; washedItems := lines;
     dailySummaries := daily; companyDailySummaries := company |}.

Definition jobAt (id branch : string) (total : float) : CarWash :=
  mkCarWash id branch None None None None (Some "cash") total (now env) [].

(** One job of branch A today, with one rug line priced 0.125. *)
Definition dbEighth : Store :=
  storeOf [ jobAt "job-a" "branch_a" 0.125 ]
          [ mkWashedItem "l-1" "job-a" "w-sam" "s-rug" (Some 0.125%float) ]
          ∅ ∅.

(** One job of branch A today, with one line of "Full Wash" (list price
    50) whose stored price is 0. *)
Definition dbZero : Store :=
  storeOf [ jobAt "job-a" "branch_a" 0 ]
          [ mkWashedItem "l-1" "job-a" "w-sam" "s-full" (Some 0%float) ]
          ∅ ∅.

(** One job in each of the branches A and B today, each with one rug
    line priced 0.125. *)
Definition dbTwoBranches : Store :=
  storeOf [ jobAt "job-a" "branch_a" 0.125; jobAt "job-b" "branch_b" 0.125 ]
          [ mkWashedItem "l-1" "job-a" "w-sam" "s-rug" (Some 0.125%float);
            mkWashedItem "l-2" "job-b" "w-bola" "s-rug" (Some 0.125%float) ]
          ∅ ∅.

End Ex.

(** ** recordController.js: reading jobs and washer summaries *)

(** What the reading handlers answer. *)
Inductive Answer (A : Type) :=
| Ok200 (data : A)
| BadRequest400
| NotFound404.
Arguments Ok200 {A} _.
Arguments BadRequest400 {A}.
Arguments NotFound404 {A}.

(** A line with the rows included with it. *)
Record LineView := mkLineView {
  lv_item : WashedItem;
  lv_washer : option Washer;
  lv_serviceItem : option ServiceItem
}.

(** A job with the rows included with it: its lines, the washers linked
    to it and its branch. *)
Record RecordView := mkRecordView {
  rv_job : CarWash;
  rv_lines : list LineView;
  rv_washers : list Washer;
  rv_branch : option Branch
}.

Module Records.

(** [include: { washedItems: { include: { washer, serviceItem } },
    washers, branch }] *)
Definition includeRelations (db : Store) (cw : CarWash) : RecordView :=
  {| rv_job := cw;
     rv_lines :=
       map (fun wi =>
              {| lv_item := wi;
                 lv_washer :=
                   List.find (fun w => String.eqb (w_id w) (wi_washerId wi))
                             (washers db);
                 lv_serviceItem :=
                   List.find
                     (fun s => String.eqb (s_id s) (wi_serviceItemId wi))
                     (serviceItems db) |})
           (List.filter (fun wi => String.eqb (wi_carWashId wi) (cw_id cw))
                        (washedItems db));
     rv_washers :=
       List.filter (fun w => JS.arrayIncludes (cw_washers cw) (w_id w))
                   (washers db);
     rv_branch :=
       List.find (fun br => String.eqb (b_id br) (cw_branchId cw))
                 (branches db) |}.

(** [getWasherDailySummary] (recordController.js, lines 316-383). *)
Definition getWasherDailySummary (env : Env) (branchId washerId : string)
    (date : option Z) (db : Store) : Answer DailySummary :=
  let targetDate := startOfDay env (default (now env) date) in
  match List.find
          (fun w => String.eqb (w_id w) washerId
                    && String.eqb (w_branchId w) branchId)
          (washers db) with
  | None => NotFound404
  | Some washer =>
      match dailySummaries db !! (washerId, targetDate, branchId) with
      | None => NotFound404
      | Some summary => Ok200 summary
      end
  end.

(** Rows in descending order of their item counter
    ([orderBy: { totalItemsWashed: 'desc' }]). *)
Definition moreItems (r1 r2 : string * DailySummary) : Prop :=
  ds_totalItemsWashed r2.2 <= ds_totalItemsWashed r1.2.

#[export] Instance moreItems_dec : RelDecision moreItems.
Proof. intros r1 r2. unfold moreItems. apply _. Defined.

(** [getAllWashersDailySummary] (recordController.js, lines 531-578):
    the rows of the day and the branch, each with its washer's
    identifier. *)
Definition getAllWashersDailySummary (env : Env) (branchId : string)
    (date : option Z) (db : Store) : list (string * DailySummary) :=
  let targetDate := startOfDay env (default (now env) date) in
  merge_sort moreItems
    (omap (fun kv : string * Z * string * DailySummary =>
             if decide (kv.1.1.2 = targetDate /\ kv.1.2 = branchId)
             then Some (kv.1.1.1, kv.2) else None)
          (map_to_list (dailySummaries db))).

(** Jobs in descending order of their date
    ([orderBy: { washDate: 'desc' }]). *)
Definition later (r1 r2 : RecordView) : Prop :=
  cw_washDate (rv_job r2) <= cw_washDate (rv_job r1).

#[export] Instance later_dec : RelDecision later.
Proof. intros r1 r2. unfold later. apply _. Defined.

(** [getCarWashRecords] (recordController.js, lines 583-674); [washerId]
    is the optional query parameter, absent or empty when [None]. *)
Definition getCarWashRecords (env : Env) (branchId : string)
    (date : option Z) (washerId : option string) (db : Store)
    : Answer (list RecordView * Z) :=
  let targetDate := default (now env) date in
  let startOfDay := startOfDay env targetDate in
  let endOfDay := endOfDay env targetDate in
  let inDay (cw : CarWash) :=
    String.eqb (cw_branchId cw) branchId
    && (startOfDay <=? cw_washDate cw) && (cw_washDate cw <=? endOfDay) in
  let answer (records : list CarWash) :=
    let records := merge_sort later (map (includeRelations db) records) in
    Ok200 (records, Z.of_nat (length records)) in
  match washerId with
  | Some washerId =>
      if JS.truthyStr washerId then
        match List.find
                (fun w => String.eqb (w_id w) washerId
                          && String.eqb (w_branchId w) branchId)
                (washers db) with
        | None => BadRequest400
        | Some washer =>
            answer
              (List.filter
                 (fun cw => inDay cw
                            && JS.arrayIncludes (cw_washers cw) washerId)
                 (carWashes db))
        end
      else answer (List.filter inDay (carWashes db))
  | None => answer (List.filter inDay (carWashes db))
  end.

(** [getCarWashById] (recordController.js, lines 864-932). *)
Definition getCarWashById (branchId id : string) (db : Store)
    : Answer RecordView :=
  match List.find
          (fun cw => String.eqb (cw_id cw) id
                     && String.eqb (cw_branchId cw) branchId)
          (carWashes db) with
  | None => NotFound404
  | Some record => Ok200 (includeRelations db record)
  end.

End Records.

(** ** Further notions used in the statements *)

(** [s] is an active service item called [name]. *)
Definition ActiveService (db : Store) (name : string) (s : ServiceItem) : Prop :=
  s ∈ serviceItems db /\ s_isActive s = true /\ s_name s = name.

(** [name] is one of the property names every object inherits. *)
Definition InheritedName (name : string) : Prop :=
  name ∈ JS.objectPrototype.

(** [v] passes as the custom price of a line: it is truthy and, read as
    a number, it is not zero or below (which [NaN] is not either). *)
Definition customPriceGiven (v : JS.value) : Prop :=
  JS.truthy v = true /\ JS.leZero v = Some false.

(** Every custom price that is given is read as a number other than 0:
    a number is, the string "1500" is, the string "abc" is not. *)
Definition customPricesReadable (body : Body) : Prop :=
  forall its item p,
    items body = Some its -> item ∈ its ->
    JS.truthy (customPrice item) = true ->
    JS.parseFloat (customPrice item) = Some p ->
    JS.truthyNum p = true.

(** What a submission to branch [b] needs to be accepted: lines, an
    acceptable payment method, Idowu when a line is special; on every
    line the name of an active washer of the branch, where a special line
    may bear an inherited name instead; on every line the name of an
    active service item; and a custom price on every line whose item has
    list price 0. *)
Definition Acceptable (db : Store) (b : string) (body : Body) : Prop :=
  exists its,
    items body = Some its /\ its <> []
    /\ paymentMethodOk body
    /\ ((exists item, item ∈ its /\ Special (serviceItemName item)) ->
        exists w, IdowuOf db b w)
    /\ (forall item, item ∈ its ->
        (exists w, ActiveWasher db b (washerName item) w)
        \/ (InheritedName (washerName item)
            /\ Special (serviceItemName item)))
    /\ (forall item, item ∈ its ->
        exists s,
          ActiveService db (serviceItemName item) s
          /\ (PrimFloat.eqb (s_price s) 0 = true ->
              customPriceGiven (customPrice item))).

(** What a submission to branch [b] needs to pass the checks that come
    before the transaction: lines, an acceptable payment method, Idowu
    when a line is special; on every line a washer name that is that of
    an active washer of the branch or one every object inherits; and on
    every line an item name that is that of an active service item, with
    a custom price when its list price is 0, or one every object
    inherits. *)
Definition PassesChecks (db : Store) (b : string) (body : Body) : Prop :=
  exists its,
    items body = Some its /\ its <> []
    /\ paymentMethodOk body
    /\ ((exists item, item ∈ its /\ Special (serviceItemName item)) ->
        exists w, IdowuOf db b w)
    /\ (forall item, item ∈ its ->
        (exists w, ActiveWasher db b (washerName item) w)
        \/ InheritedName (washerName item))
    /\ (forall item, item ∈ its ->
        (exists s,
           ActiveService db (serviceItemName item) s
           /\ (PrimFloat.eqb (s_price s) 0 = true ->
               customPriceGiven (customPrice item)))
        \/ ((forall s, ~ ActiveService db (serviceItemName item) s)
            /\ InheritedName (serviceItemName item))).

(** A line that cannot be stored: it is not special and its washer name
    is not that of an active washer of the branch, or its item name is
    not that of an active service item. *)
Definition Unstorable (db : Store) (b : string) (item : ItemReq) : Prop :=
  (~ Special (serviceItemName item)
   /\ forall w, ~ ActiveWasher db b (washerName item) w)
  \/ (forall s, ~ ActiveService db (serviceItemName item) s).

(** The counters of today's rows of branch [b] leave room for a job of
    [n] lines: none is negative, the job counters are below the largest
    INTEGER and the item counters at least [n] below it. *)
Definition Room (db : Store) (b : string) (day : Z) (n : Z) : Prop :=
  n <= 2147483647
  /\ (forall w row,
        dailySummaries db !! (w, day, b) = Some row ->
        0 <= ds_totalCarsWashed row < 2147483647
        /\ 0 <= ds_totalItemsWashed row <= 2147483647 - n)
  /\ (forall row,
        companyDailySummaries db !! (b, day) = Some row ->
        0 <= cds_totalCarsWashed row < 2147483647
        /\ 0 <= cds_totalItemsWashed row <= 2147483647 - n).

(** Line [wi] belongs to a job of branch [b] washed on the day of
    [date], today when absent: from local midnight to 23:59:59.999. *)
Definition ofBranchDay (env : Env) (b : string) (date : option Z)
    (db : Store) (wi : WashedItem) : bool :=
  existsb
    (fun cw =>
       String.eqb (cw_id cw) (wi_carWashId wi)
       && String.eqb (cw_branchId cw) b
       && (startOfDay env (default (now env) date) <=? cw_washDate cw)
       && (cw_washDate cw <=? startOfDay env (default (now env) date) + 86399999))
    (carWashes db).

(** The identifier handed to the new job is not in use: no job has it
    and no line refers to it. *)
Definition FreshJob (env : Env) (db : Store) : Prop :=
  (newCarWashId env ∉ cw_id <$> carWashes db)
  /\ (newCarWashId env ∉ wi_carWashId <$> washedItems db).

(** How many of the lines read for a day credit washer [w]. *)
Definition linesOfWasher (w : string) (js : list Joined) : Z :=
  Z.of_nat
    (length (List.filter (fun j => String.eqb (wi_washerId (j_item j)) w) js)).

(** The elements of [l] filed under [k]. *)
Definition groupOf {A} (key : A -> string) (k : string) (l : list A) : list A :=
  List.filter (fun x => String.eqb (key x) k) l.

(** One round of a loop that files elements in a dictionary keyed by
    generated identifiers: create the entry of the element's key when it
    is missing, then update it. *)
Definition groupStep {A V} (key : A -> string) (zero : A -> V)
    (upd : A -> V -> V) (obj : list (string * V)) (x : A) : list (string * V) :=
  JS.alter (key x) (upd x) (JS.initId (key x) (zero x) obj).

(** The same round on a dictionary keyed by names of any kind: under a
    name every object inherits, no entry is made and none is updated. *)
Definition groupStepByName {A V} (key : A -> string) (zero : A -> V)
    (upd : A -> V -> V) (obj : list (string * V)) (x : A) : list (string * V) :=
  JS.alter (key x) (upd x) (JS.init (key x) (zero x) obj).

(** The elements of [l] whose key is not a name every object inherits. *)
Definition ownKeyed {A} (key : A -> string) (l : list A) : list A :=
  List.filter (fun x => negb (JS.inheritedName (key x))) l.

(** What the loop over [l] makes of an entry that was there before. *)
Definition groupOld {A V} (key : A -> string) (upd : A -> V -> V)
    (l : list A) (kv : string * V) : string * V :=
  (kv.1, fold_left (fun v x => upd x v) (groupOf key kv.1 l) kv.2).

(** The entry the loop over [l] creates for the key [k]. *)
Definition groupNew {A V} (key : A -> string) (zero : A -> V)
    (upd : A -> V -> V) (l : list A) (k : string) : option (string * V) :=
  match groupOf key k l with
  | [] => None
  | x0 :: g => Some (k, fold_left (fun v x => upd x v) g (upd x0 (zero x0)))
  end.

(** The name of the service item of a line. *)
Definition itemNameOf (j : Joined) : string := s_name (j_serviceItem j).

(** The entry the breakdown loop creates for the service item of a line,
    and what the loop does to that entry for the line
    (recordController.js, lines 470-483). *)
Definition itemZero (j : Joined) : ItemSummary :=
  {| is_itemName := itemNameOf j; is_quantity := 0;
     is_totalEarnings := 0; is_companyEarning := 0; is_workerShare := 0 |}.

Definition itemUpd (j : Joined) (e : ItemSummary) : ItemSummary :=
  {| is_itemName := is_itemName e;
     is_quantity := is_quantity e + 1;
     is_totalEarnings := (is_totalEarnings e + priceUsed j)%float;
     is_companyEarning :=
       (is_companyEarning e
        + companyShare (split (itemNameOf j) (priceUsed j)))%float;
     is_workerShare :=
       (is_workerShare e
        + washerShare (split (itemNameOf j) (priceUsed j)))%float |}.

(** The row of the breakdown for the service item named [k], given the
    lines [g] of the day that are of that item: their number, and the
    sums of their prices and shares, each rounded to two decimals. *)
Definition itemRow (k : string) (g : list Joined) : ItemSummary :=
  {| is_itemName := k;
     is_quantity := Z.of_nat (length g);
     is_totalEarnings := round2 (sumF (map priceUsed g));
     is_companyEarning :=
       round2 (sumF (map (fun j => companyShare
                                     (split (itemNameOf j) (priceUsed j))) g));
     is_workerShare :=
       round2 (sumF (map (fun j => washerShare
                                     (split (itemNameOf j) (priceUsed j))) g)) |}.

(** The washer a line is credited to. *)
Definition washerIdOf (j : Joined) : string := wi_washerId (j_item j).

(** The entry of a line in a washer's list of paid items
    (paymentController.js, lines 129-135). *)
Definition paidItemOf (j : Joined) : PaidItem :=
  {| pi_carNumber := cw_carNumber (j_carWash j);
     pi_serviceItem := itemNameOf j;
     pi_price := priceUsed j;
     pi_washerShare :=
       washerShare (PaymentController.calculatePaymentSplit
                      (itemNameOf j) (priceUsed j));
     pi_companyShare :=
       companyShare (PaymentController.calculatePaymentSplit
                       (itemNameOf j) (priceUsed j)) |}.

(** The entry the daily payment loop creates for the washer of a line,
    and what the loop does to that entry for the line
    (paymentController.js, lines 106-135). *)
Definition washerZero (j : Joined) : WasherPayment :=
  {| wp_washerId := washerIdOf j;
     wp_washerName := default "" (w_name <$> j_washer j);
     wp_washerPhone := j_washer j ≫= w_phone;
     wp_totalAmount := 0; wp_washerEarnings := 0; wp_companyEarnings := 0;
     wp_itemsWashed := 0; wp_carsWashed := []; wp_items := [] |}.

Definition washerUpd (j : Joined) (w : WasherPayment) : WasherPayment :=
  {| wp_washerId := wp_washerId w;
     wp_washerName := wp_washerName w;
     wp_washerPhone := wp_washerPhone w;
     wp_totalAmount := (wp_totalAmount w + priceUsed j)%float;
     wp_washerEarnings :=
       (wp_washerEarnings w + pi_washerShare (paidItemOf j))%float;
     wp_companyEarnings :=
       (wp_companyEarnings w + pi_companyShare (paidItemOf j))%float;
     wp_itemsWashed := wp_itemsWashed w + 1;
     wp_carsWashed :=
       Payments.setAdd (cw_id (j_carWash j)) (wp_carsWashed w);
     wp_items := (wp_items w ++ [paidItemOf j])%list |}.

(** The job was paid by method [m] ("cash" or "transfer"), whatever the
    case in which the method was recorded. *)
Definition paidBy (m : string) (cw : CarWash) : bool :=
  match cw_paymentMethod cw with
  | Some s => String.eqb (JS.toLowerCase s) m
  | None => false
  end.

(** The jobs a summary of branch [b] reads for the day of [date]. *)
Definition jobsOfDay (env : Env) (b : string) (date : option Z) (db : Store)
    : list CarWash :=
  findCarWashes db b
    (startOfDay env (default (now env) date))
    (endOfDay env (default (now env) date)).

(** The counters of a branch's day, 0 when there is no row yet. *)
Definition branchJobCounter (db : Store) (b : string) (day : Z) : Z :=
  default 0 (cds_totalCarsWashed <$> companyDailySummaries db !! (b, day)).

Definition branchItemCounter (db : Store) (b : string) (day : Z) : Z :=
  default 0 (cds_totalItemsWashed <$> companyDailySummaries db !! (b, day)).

(** ** More examples *)

Module Ex2.

(** A rug washed by Sam for 1500, the price given with the line. *)
Definition rugLine : ItemReq :=
  mkItemReq "Sam" "Car Rug" (JS.VNumber 1500).

Definition rugStored : WashedItem :=
  mkWashedItem "line-0" "job-1" "w-sam" "s-rug" (Some 1500%float).

(** Bola, of branch B, washes a car while branch A holds a job. *)
Definition bolaLine : ItemReq := mkItemReq "Bola" "Full Wash" JS.VUndefined.

Definition jobB : CarWash :=
  mkCarWash "job-1" "branch_b" None None None None (Some "cash") 50
            (now Ex.env) ["w-bola"].

Definition afterB : Store :=
  (Ingestion.createCarWashRecord Ex.env "branch_b" (Ex.submit [bolaLine])
     Ex.dbEighth).2.

(** Sam, of branch A, washes a second car there. *)
Definition jobA : CarWash :=
  mkCarWash "job-1" "branch_a" None None None None (Some "cash") 50
            (now Ex.env) ["w-sam"].

Definition lineA : WashedItem :=
  mkWashedItem "line-0" "job-1" "w-sam" "s-full" (Some 50%float).

Definition afterA : Store :=
  (Ingestion.createCarWashRecord Ex.env "branch_a"
     (Ex.submit [Ex.line "Sam" "Full Wash"]) Ex.dbEighth).2.

(** Branch A on a day whose row says that 2147483647 items were washed:
    the counter is at the largest value of its column. *)
Definition dbFull : Store :=
  {| branches := branches Ex.db; washers := washers Ex.db;
     serviceItems := serviceItems Ex.db;
     carWashes := []; washedItems := [];
     dailySummaries := ∅;
     companyDailySummaries :=
       {[ ("branch_a", Ex.today) := mkCompanyDailySummary 1 2147483647 ]} |}.

End Ex2.

(** * Properties *)

(** ** Strings *)

Lemma prefix_spec (kw s : string) :
  String.prefix kw s = true <-> exists suf, s = kw +:+ suf.
Proof.
  revert s. induction kw as [|c kw IH]; intros s.
  - destruct s; simpl; split; eauto.
  - destruct s as [|d s]; simpl.
    + split; [discriminate | intros [suf E]; discriminate].
    + destruct (Ascii.ascii_dec c d) as [->|Hne].
      * rewrite IH. split; intros [suf E]; exists suf.
        -- simpl. by rewrite E.
        -- simpl in E. by injection E.
      * split; [discriminate|]. intros [suf E]. simpl in E.
        injection E as E1 E2. congruence.
Qed.

Lemma includes_unfold (s kw : string) :
  JS.includes s kw =
    if String.prefix kw s then true
    else match s with
         | EmptyString => false
         | String _ s' => JS.includes s' kw
         end.
Proof. by destruct s. Qed.

Lemma includes_spec (s kw : string) :
  JS.includes s kw = true <-> exists pre suf, s = pre +:+ kw +:+ suf.
Proof.
  induction s as [|c s IH]; rewrite includes_unfold.
  - destruct (String.prefix kw "") eqn:Hp.
    + apply prefix_spec in Hp as [suf E]. split; [|done].
      intros _. exists "", suf. exact E.
    + split; [discriminate|]. intros (pre & suf & E).
      destruct pre; [|discriminate]. simpl in E.
      assert (String.prefix kw "" = true) by (apply prefix_spec; eauto).
      congruence.
  - destruct (String.prefix kw (String c s)) eqn:Hp.
    + apply prefix_spec in Hp as [suf E]. split; [|done].
      intros _. exists "", suf. exact E.
    + rewrite IH. split.
      * intros (pre & suf & ->). by exists (String c pre), suf.
      * intros (pre & suf & E). destruct pre as [|d pre].
        -- simpl in E.
           assert (String.prefix kw (String c s) = true)
             by (apply prefix_spec; eauto).
           congruence.
        -- simpl in E. injection E as _ E. eauto.
Qed.

Lemma toLowerCase_app (a b : string) :
  JS.toLowerCase (a +:+ b) = JS.toLowerCase a +:+ JS.toLowerCase b.
Proof. induction a as [|c a IH]; simpl; [done | by rewrite IH]. Qed.

Lemma toLowerCase_split (s a b : string) :
  JS.toLowerCase s = a +:+ b ->
  exists s1 s2,
    s = s1 +:+ s2 /\ JS.toLowerCase s1 = a /\ JS.toLowerCase s2 = b.
Proof.
  revert s. induction a as [|c a IH]; intros s E; simpl in E.
  - by exists "", s.
  - destruct s as [|d s]; [discriminate|]. simpl in E.
    injection E as E1 E2.
    destruct (IH _ E2) as (s1 & s2 & -> & H1 & H2).
    exists (String d s1), s2. simpl. by rewrite E1, H1.
Qed.

(** The search of the lowered name finds [kw] exactly when the name
    contains [kw] whatever the case. *)
Lemma includes_lower_spec (name kw : string) :
  JS.includes (JS.toLowerCase name) kw = true <-> containsCI kw name.
Proof.
  rewrite includes_spec. split.
  - intros (pre & suf & E).
    apply toLowerCase_split in E as (s1 & s23 & -> & H1 & E).
    apply toLowerCase_split in E as (s2 & s3 & -> & H2 & H3).
    by exists s1, s2, s3.
  - intros (pre & mid & suf & -> & <-).
    exists (JS.toLowerCase pre), (JS.toLowerCase suf).
    by rewrite !toLowerCase_app.
Qed.

Lemma isSpecialItem_spec (name : string) :
  RecordController.isSpecialItem name = true <-> Special name.
Proof.
  unfold RecordController.isSpecialItem, Special. simpl.
  rewrite !orb_true_iff, !includes_lower_spec. intuition discriminate.
Qed.

Lemma isSpecialItem_false (name : string) :
  RecordController.isSpecialItem name = false <-> ~ Special name.
Proof.
  rewrite <- isSpecialItem_spec.
  destruct (RecordController.isSpecialItem name); intuition congruence.
Qed.

Lemma split_cases {num} `{Arithmetic num} (name : string) (p : num) :
  RecordController.calculatePaymentSplit name p =
    if RecordController.isSpecialItem name
    then mkSplit (nmul (ndiv p lit3) lit2) (ndiv p lit3)
    else if JS.includes (JS.toLowerCase name) "rug"
         then mkSplit (nmul p lit0_5) (nmul p lit0_5)
         else mkSplit (nmul p lit0_6) (nmul p lit0_4).
Proof. reflexivity. Qed.

(** ** The split policy *)

(** C4.  A special name gives the washer [p/3] and the company two
    thirds, [(p/3)*2], also when the name contains "rug"; otherwise a
    rug name gives each side [p*0.5]; every other name gives the company
    [p*0.6] and the washer [p*0.4].  In exact arithmetic these are
    [2p/3], [p/2], [60%] and [40%] of [p]. *)
Theorem C4_split_by_category (name : string) :
  (forall p : float,
     (Special name ->
        washerShare (split name p) = (p / 3)%float
        /\ companyShare (split name p) = (p / 3 * 2)%float)
     /\ (~ Special name -> Rug name ->
        washerShare (split name p) = (p * 0.5)%float
        /\ companyShare (split name p) = (p * 0.5)%float)
     /\ (~ Special name -> ~ Rug name ->
        companyShare (split name p) = (p * 0x1.3333333333333p-1)%float
        /\ washerShare (split name p) = (p * 0x1.999999999999ap-2)%float))
  /\ (forall p : Q,
     (Special name ->
        washerShare (splitQ name p) == p / 3
        /\ companyShare (splitQ name p) == 2 * p / 3)
     /\ (~ Special name -> Rug name ->
        washerShare (splitQ name p) == p / 2
        /\ companyShare (splitQ name p) == p / 2)
     /\ (~ Special name -> ~ Rug name ->
        companyShare (splitQ name p) == (60 # 100) * p
        /\ washerShare (splitQ name p) == (40 # 100) * p))%Q.
Proof.
  unfold split, splitQ, Rug.
  split; intros p; rewrite split_cases;
    (split; [|split]).
  - intros Hs. apply isSpecialItem_spec in Hs. by rewrite Hs.
  - intros Hs Hr. apply isSpecialItem_false in Hs.
    apply includes_lower_spec in Hr. by rewrite Hs, Hr.
  - intros Hs Hr. apply isSpecialItem_false in Hs.
    rewrite <- includes_lower_spec in Hr. apply not_true_is_false in Hr.
    by rewrite Hs, Hr.
  - intros Hs. apply isSpecialItem_spec in Hs. rewrite Hs. simpl.
    split; field.
  - intros Hs Hr. apply isSpecialItem_false in Hs.
    apply includes_lower_spec in Hr. rewrite Hs, Hr. simpl.
    split; field.
  - intros Hs Hr. apply isSpecialItem_false in Hs.
    rewrite <- includes_lower_spec in Hr. apply not_true_is_false in Hr.
    rewrite Hs, Hr. simpl. split; field.
Qed.

(** C9.  The split function of the record controller and the copy in the
    payment controller return the same pair for every name and price, in
    whatever arithmetic they are run. *)
Theorem C9_split_copies_agree {num} `{Arithmetic num} (name : string) (p : num) :
  RecordController.calculatePaymentSplit name p
  = PaymentController.calculatePaymentSplit name p.
Proof.
  unfold RecordController.calculatePaymentSplit,
    PaymentController.calculatePaymentSplit.
  destruct (existsb _ _); [done|].
  by destruct (JS.includes (JS.toLowerCase name) "rug").
Qed.

(** The worked examples of the split: "Engine Wash" at 300, "Car Rug" at
    100 and "Full Wash" at 50. *)
Lemma split_examples :
  split "Engine Wash" 300 = mkSplit 200%float 100%float
  /\ split "Car Rug" 100 = mkSplit 50%float 50%float
  /\ split "Full Wash" 50 = mkSplit 30%float 20%float.
Proof. repeat split; vm_compute; reflexivity. Qed.

Lemma split_rug (name : string) (p : float) :
  ~ Special name -> Rug name -> split name p = split "Car Rug" p.
Proof.
  intros Hs Hr. unfold split. rewrite split_cases.
  apply isSpecialItem_false in Hs. apply includes_lower_spec in Hr.
  by rewrite Hs, Hr.
Qed.

Lemma split_regular (name : string) (p : float) :
  ~ Special name -> ~ Rug name -> split name p = split "Full Wash" p.
Proof.
  intros Hs Hr. unfold split. rewrite split_cases.
  apply isSpecialItem_false in Hs.
  unfold Rug in Hr. rewrite <- includes_lower_spec in Hr.
  apply not_true_is_false in Hr. by rewrite Hs, Hr.
Qed.

Lemma sharesSumExact_spec (c w : float) (n : nat) :
  forall k, sharesSumExact c w k n = true ->
  forall j, k <= j < k + Z.of_nat n ->
    PrimFloat.eqb (wholePrice j * c + wholePrice j * w)%float (wholePrice j)
    = true.
Proof.
  induction n as [|n IH]; intros k Hk j Hj; [lia|].
  cbn [sharesSumExact] in Hk. cbv zeta in Hk.
  destruct (PrimFloat.eqb _ (wholePrice k)) eqn:E; [|discriminate].
  destruct (decide (j = k)) as [->|Hne]; [exact E|].
  apply (IH (k + 1)); [exact Hk | lia].
Qed.

Lemma sumExact_regular :
  sharesSumExact 0x1.3333333333333p-1 0x1.999999999999ap-2 0 (Z.to_nat 1000001) = true.
Proof. vm_cast_no_check (eq_refl true). Qed.

Lemma sumExact_rug : sharesSumExact 0.5 0.5 0 (Z.to_nat 1000001) = true.
Proof. vm_cast_no_check (eq_refl true). Qed.

Lemma not_special_Full_Wash : ~ Special "Full Wash".
Proof. by apply isSpecialItem_false. Qed.

Lemma not_rug_Full_Wash : ~ Rug "Full Wash".
Proof.
  unfold Rug. rewrite <- includes_lower_spec. by apply not_true_iff_false.
Qed.

Lemma special_Engine_Wash : Special "Engine Wash".
Proof. by apply isSpecialItem_spec. Qed.

Lemma rug_Car_Rug : Rug "Car Rug".
Proof. by apply includes_lower_spec. Qed.

Lemma not_special_Car_Rug : ~ Special "Car Rug".
Proof. by apply isSpecialItem_false. Qed.

(** ** Halving in binary64 *)

(** A number that is at least [2^-1021] is infinite or has a mantissa of
    53 bits over an exponent of at least -1073. *)
Lemma Prim2SF_large (p : float) :
  PrimFloat.leb 0x1p-1021 p = true ->
  Prim2SF p = S754_infinity false
  \/ exists m e,
       Prim2SF p = S754_finite false m e
       /\ Z.pos (digits2_pos m) = 53 /\ -1073 <= e <= 971.
Proof.
  rewrite FloatAxioms.leb_spec. intros Hle.
  pose proof (Prim2SF_valid p) as Hv.
  change (Prim2SF 0x1p-1021) with (S754_finite false 4503599627370496 (-1073))
    in Hle.
  destruct (Prim2SF p) as [s|s| |s m e]; try discriminate.
  - destruct s; [discriminate | by left].
  - right. exists m, e. destruct s; [discriminate|].
    split; [done|].
    unfold SFleb, SFcompare in Hle.
    assert (-1073 <= e) as He.
    { destruct (Z.compare_spec (-1073) e); [lia | lia | discriminate]. }
    unfold SpecFloat.valid_binary, bounded, canonical_mantissa, fexp,
      SpecFloat.emin, FloatOps.prec, FloatOps.emax in Hv.
    apply andb_prop in Hv as [Hc Hb].
    apply Z.eqb_eq in Hc. apply Z.leb_le in Hb. lia.
Qed.

Lemma fexp_eq (d e : Z) :
  -1074 <= d + e - 53 -> fexp prec emax (d + e) = d + e - 53.
Proof. unfold fexp, SpecFloat.emin, prec, emax. lia. Qed.

(** A mantissa of 53 bits over an exponent within range is a number. *)
Lemma round_exact (m : positive) (e : Z) :
  digits2_pos m = 53%positive -> -1074 <= e <= 971 ->
  binary_round_aux prec emax false (Z.pos m) e loc_Exact
  = S754_finite false m e.
Proof.
  intros Hd He. unfold binary_round_aux, shr_fexp.
  cbn [Zdigits2]. rewrite Hd, fexp_eq by lia.
  assert (53 + e - 53 - e = 0) as -> by lia.
  cbn [shr shr_record_of_loc shr_m loc_of_shr_record shr_r shr_s
       round_nearest_even Zdigits2].
  rewrite Hd, fexp_eq by lia.
  assert (53 + e - 53 - e = 0) as -> by lia.
  cbn [shr shr_record_of_loc shr_m].
  assert ((e <=? emax - prec) = true) as ->; [|done].
  apply Z.leb_le. unfold emax, prec. lia.
Qed.

Lemma mul_half_spec (m : positive) (e : Z) :
  digits2_pos m = 53%positive -> -1073 <= e <= 971 ->
  SF64mul (S754_finite false m e) (S754_finite false 4503599627370496 (-53))
  = S754_finite false m (e - 1).
Proof.
  intros Hd He.
  unfold SF64mul, SFmul. rewrite Pos.mul_comm.
  cbn [xorb].
  let t := eval cbv [PosDef.Pos.mul] in (4503599627370496 * m)%positive in
  change (4503599627370496 * m)%positive with t.
  unfold binary_round_aux, shr_fexp.
  cbn [Zdigits2 digits2_pos]. rewrite Hd.
  cbv beta iota fix delta [PosDef.Pos.succ]. rewrite fexp_eq by lia.
  assert (105 + (e + -53) - 53 - (e + -53) = 52) as -> by lia.
  cbn [shr shr_record_of_loc SpecFloat.iter_pos shr_1 shr_m shr_r shr_s orb
       loc_of_shr_record round_nearest_even Zdigits2].
  rewrite Hd, fexp_eq by lia.
  assert (53 + (e + -53 + 52) - 53 - (e + -53 + 52) = 0) as -> by lia.
  cbn [shr shr_record_of_loc shr_m].
  assert ((e + -53 + 52 <=? emax - prec) = true) as ->.
  { apply Z.leb_le. unfold emax, prec. lia. }
  f_equal. lia.
Qed.

Lemma add_self_spec (m : positive) (e : Z) :
  digits2_pos m = 53%positive -> -1073 <= e <= 971 ->
  SF64add (S754_finite false m (e - 1)) (S754_finite false m (e - 1))
  = S754_finite false m e.
Proof.
  intros Hd He.
  unfold SF64add, SFadd. cbv zeta.
  rewrite Z.min_id. unfold shl_align. rewrite Z.sub_diag.
  cbn [fst cond_Zopp]. change (Z.pos m + Z.pos m) with (Z.pos (m + m)).
  rewrite Pos.add_diag.
  unfold binary_normalize, binary_round.
  cbn [digits2_pos]. rewrite Hd. cbv beta iota fix delta [PosDef.Pos.succ].
  rewrite fexp_eq by lia. unfold shl_align.
  assert (54 + (e - 1) - 53 - (e - 1) = 1) as -> by lia.
  unfold binary_round_aux, shr_fexp.
  cbn [Zdigits2 digits2_pos]. rewrite Hd. cbv beta iota fix delta [PosDef.Pos.succ].
  rewrite fexp_eq by lia.
  assert (54 + (e - 1) - 53 - (e - 1) = 1) as -> by lia.
  cbn [shr shr_record_of_loc SpecFloat.iter_pos shr_1 shr_m shr_r shr_s orb
       loc_of_shr_record round_nearest_even Zdigits2].
  rewrite Hd, fexp_eq by lia.
  assert (53 + (e - 1 + 1) - 53 - (e - 1 + 1) = 0) as -> by lia.
  cbn [shr shr_record_of_loc shr_m].
  assert ((e - 1 + 1 <=? emax - prec) = true) as ->.
  { apply Z.leb_le. unfold emax, prec. lia. }
  f_equal. lia.
Qed.

(** Halving a number that is at least [2^-1021] and adding the halves
    gives the number back. *)
Lemma halves_add_up (p : float) :
  PrimFloat.leb 0x1p-1021 p = true ->
  PrimFloat.eqb (p * 0.5 + p * 0.5) p = true.
Proof.
  intros Hle. rewrite FloatAxioms.eqb_spec, add_spec, mul_spec.
  change (Prim2SF 0.5) with (S754_finite false 4503599627370496 (-53)).
  destruct (Prim2SF_large p Hle) as [->|(m & e & -> & Hd & He)]; [done|].
  injection Hd as Hd.
  rewrite mul_half_spec, add_self_spec by done.
  unfold SFeqb, SFcompare. by rewrite Z.compare_refl, Pos.compare_cont_refl.
Qed.

(** The halves of zero add up to zero. *)
Lemma halves_of_zero (p : float) :
  PrimFloat.eqb p 0 = true ->
  PrimFloat.eqb (p * 0.5 + p * 0.5) p = true.
Proof.
  rewrite !FloatAxioms.eqb_spec, add_spec, mul_spec.
  change (Prim2SF 0.5) with (S754_finite false 4503599627370496 (-53)).
  change (Prim2SF 0) with (S754_zero false).
  destruct (Prim2SF p) as [[|]|[|]| |[|] m e]; try discriminate; done.
Qed.

(** Below [2^-1021] the halves may be rounded: those of the least
    positive number are both 0. *)
Lemma halves_of_least_number :
  PrimFloat.eqb (0x1p-1074 * 0.5 + 0x1p-1074 * 0.5) 0x1p-1074 = false
  /\ (0x1p-1074 * 0.5 + 0x1p-1074 * 0.5 = 0)%float.
Proof. split; vm_compute; reflexivity. Qed.

(** C5, as stated, fails: the regular item "Full Wash" at the price 0.9
    (the binary64 number nearest to it) gets shares whose sum is
    0.9000000000000001, not the price. *)
Lemma C5_sum_not_exact_at_0_9 :
  ~ Special "Full Wash" /\ ~ Rug "Full Wash"
  /\ PrimFloat.leb 0 0x1.ccccccccccccdp-1 = true
  /\ PrimFloat.eqb
       (companyShare (split "Full Wash" 0x1.ccccccccccccdp-1)
        + washerShare (split "Full Wash" 0x1.ccccccccccccdp-1))%float
       0x1.ccccccccccccdp-1 = false.
Proof.
  split; [exact not_special_Full_Wash|].
  split; [exact not_rug_Full_Wash|].
  split; vm_compute; reflexivity.
Qed.

(** C5, amended.  The shares are plain binary64 products, with no
    rounding to cents.  For a rug name both are [p*0.5]: they add up to
    [p] in exact arithmetic and, on binary64 numbers, for the price 0 and
    for every price from [2^-1021] on, whole or not.  For a regular name
    they are [p*0.6] and [p*0.4]: they add up to [p] in exact arithmetic
    and, on binary64 numbers, for every whole price from 0 to 1,000,000,
    but not for every price (0.9 is one where they do not).  For a
    special name the washer gets [p/3] and the company [(p/3)*2], which
    is the price less the washer's share in exact arithmetic. *)
Theorem C5_shares_add_up (name : string) :
  (~ Special name -> Rug name ->
     (forall p : float, split name p = mkSplit (p * 0.5)%float (p * 0.5)%float)
     /\ (forall p : Q,
        companyShare (splitQ name p) + washerShare (splitQ name p) == p)%Q
     /\ (forall p : float,
        PrimFloat.eqb p 0 = true \/ PrimFloat.leb 0x1p-1021 p = true ->
        PrimFloat.eqb
          (companyShare (split name p) + washerShare (split name p))%float p
        = true)
     /\ (forall k : Z, 0 <= k <= 1000000 ->
        PrimFloat.eqb
          (companyShare (split name (wholePrice k))
           + washerShare (split name (wholePrice k)))%float
          (wholePrice k) = true))
  /\ (~ Special name -> ~ Rug name ->
     (forall p : float,
        split name p
        = mkSplit (p * 0x1.3333333333333p-1)%float
                  (p * 0x1.999999999999ap-2)%float)
     /\ (forall p : Q,
        companyShare (splitQ name p) + washerShare (splitQ name p) == p)%Q
     /\ (forall k : Z, 0 <= k <= 1000000 ->
        PrimFloat.eqb
          (companyShare (split name (wholePrice k))
           + washerShare (split name (wholePrice k)))%float
          (wholePrice k) = true))
  /\ (Special name ->
     (forall p : float,
        washerShare (split name p) = (p / 3)%float
        /\ companyShare (split name p) = (p / 3 * 2)%float)
     /\ (forall p : Q,
        washerShare (splitQ name p) == p / 3
        /\ companyShare (splitQ name p) == p - washerShare (splitQ name p))%Q).
Proof.
  split; [|split].
  - intros Hs Hr. pose proof Hs as Hs'. apply isSpecialItem_false in Hs'.
    pose proof Hr as Hr'. apply includes_lower_spec in Hr'.
    assert (forall p : float,
              split name p = mkSplit (p * 0.5)%float (p * 0.5)%float) as Hsplit.
    { intros p. unfold split. by rewrite split_cases, Hs', Hr'. }
    split; [exact Hsplit|]. split; [|split].
    + intros p. unfold splitQ. rewrite split_cases, Hs', Hr'. simpl. ring.
    + intros p Hp. rewrite Hsplit. cbn [companyShare washerShare].
      destruct Hp as [Hp|Hp]; [by apply halves_of_zero | by apply halves_add_up].
    + intros k Hk. rewrite (split_rug _ _ Hs Hr).
      apply (sharesSumExact_spec _ _ _ 0 sumExact_rug). lia.
  - intros Hs Hr. pose proof Hs as Hs'. apply isSpecialItem_false in Hs'.
    assert (JS.includes (JS.toLowerCase name) "rug" = false) as Hr'.
    { apply not_true_is_false. by rewrite includes_lower_spec. }
    split; [|split].
    + intros p. unfold split. by rewrite split_cases, Hs', Hr'.
    + intros p. unfold splitQ. rewrite split_cases, Hs', Hr'. simpl. ring.
    + intros k Hk. rewrite (split_regular _ _ Hs Hr).
      apply (sharesSumExact_spec _ _ _ 0 sumExact_regular). lia.
  - intros Hs. apply isSpecialItem_spec in Hs. split; intros p.
    + unfold split. by rewrite split_cases, Hs.
    + unfold splitQ. rewrite split_cases, Hs. simpl. split; field.
Qed.

(** C5 at the rug "Car Rug" for the price 0.9, at the regular item "Full
    Wash" for the price 50, and at the special item "Engine Wash" for
    300. *)
Lemma C5_shares_add_up_witness :
  PrimFloat.eqb
    (companyShare (split "Car Rug" 0x1.ccccccccccccdp-1)
     + washerShare (split "Car Rug" 0x1.ccccccccccccdp-1))%float
    0x1.ccccccccccccdp-1 = true
  /\ PrimFloat.eqb
       (companyShare (split "Full Wash" (wholePrice 50))
        + washerShare (split "Full Wash" (wholePrice 50)))%float
       (wholePrice 50) = true
  /\ washerShare (split "Engine Wash" 300) = (300 / 3)%float.
Proof.
  split; [|split].
  - apply (proj1 (C5_shares_add_up "Car Rug")).
    + exact not_special_Car_Rug.
    + exact rug_Car_Rug.
    + right. vm_compute. reflexivity.
  - apply (proj1 (proj2 (C5_shares_add_up "Full Wash"))).
    + exact not_special_Full_Wash.
    + exact not_rug_Full_Wash.
    + lia.
  - apply (proj2 (proj2 (C5_shares_add_up "Engine Wash"))).
    exact special_Engine_Wash.
Defined.

Lemma C4_split_by_category_witness :
  washerShare (split "Rug + ENGINE" 300) = (300 / 3)%float
  /\ companyShare (split "Rug + ENGINE" 300) = (300 / 3 * 2)%float.
Proof.
  apply (proj1 (C4_split_by_category "Rug + ENGINE")).
  by apply isSpecialItem_spec.
Defined.

(** ** Arrays, sets and dictionaries *)

Lemma arrayIncludes_spec (xs : list string) (x : string) :
  JS.arrayIncludes xs x = true <-> x ∈ xs.
Proof.
  unfold JS.arrayIncludes. rewrite existsb_exists, list_elem_of_In.
  split.
  - intros (y & Hy & E). apply String.eqb_eq in E. by subst.
  - intros Hx. exists x. split; [done | apply String.eqb_refl].
Qed.

Lemma arrayIncludes_false (xs : list string) (x : string) :
  JS.arrayIncludes xs x = false <-> x ∉ xs.
Proof.
  rewrite <- arrayIncludes_spec.
  destruct (JS.arrayIncludes xs x); intuition congruence.
Qed.

Lemma elem_of_uniqFrom (seen xs : list string) (x : string) :
  x ∈ JS.uniqFrom seen xs <-> x ∈ xs /\ x ∉ seen.
Proof.
  revert seen. induction xs as [|y xs IH]; intros seen; simpl.
  - rewrite elem_of_nil. tauto.
  - destruct (JS.arrayIncludes seen y) eqn:E.
    + apply arrayIncludes_spec in E. rewrite IH, elem_of_cons.
      split; [tauto|]. intros [[->|?] ?]; tauto.
    + apply arrayIncludes_false in E.
      rewrite !elem_of_cons, IH, elem_of_cons.
      split.
      * intros [->|[? ?]]; [tauto|]. split; [tauto|]. tauto.
      * intros [[->|?] ?]; [tauto|].
        destruct (decide (x = y)) as [->|?]; tauto.
Qed.

Lemma NoDup_uniqFrom (seen xs : list string) : NoDup (JS.uniqFrom seen xs).
Proof.
  revert seen. induction xs as [|y xs IH]; intros seen; simpl.
  - constructor.
  - destruct (JS.arrayIncludes seen y); [apply IH|].
    constructor; [|apply IH].
    rewrite elem_of_uniqFrom, elem_of_cons. tauto.
Qed.

Lemma elem_of_uniq (xs : list string) (x : string) :
  x ∈ JS.uniq xs <-> x ∈ xs.
Proof.
  unfold JS.uniq. rewrite elem_of_uniqFrom, elem_of_nil. tauto.
Qed.

Lemma NoDup_uniq (xs : list string) : NoDup (JS.uniq xs).
Proof. apply NoDup_uniqFrom. Qed.

Section fromEntries.
Context {V : Type}.

Lemma foldl_entries_Some (kvs : list (string * V)) :
  forall (m : gmap string V) k v,
    foldl JS.setEntry m kvs !! k = Some v -> (k, v) ∈ kvs \/ m !! k = Some v.
Proof.
  induction kvs as [|[k' v'] kvs IH]; intros m k v H; simpl in H.
  - by right.
  - apply IH in H as [H|H]; [left; by apply elem_of_cons; right|].
    unfold JS.setEntry in H. simpl in H.
    destruct (decide (k' = k)) as [->|Hne].
    + rewrite lookup_insert_eq in H. injection H as ->.
      left. apply elem_of_cons. by left.
    + rewrite lookup_insert_ne in H by done. by right.
Qed.

Lemma foldl_entries_None (kvs : list (string * V)) :
  forall (m : gmap string V) k,
    foldl JS.setEntry m kvs !! k = None <-> (k ∉ kvs.*1) /\ m !! k = None.
Proof.
  induction kvs as [|[k' v'] kvs IH]; intros m k; simpl.
  - rewrite elem_of_nil. tauto.
  - rewrite IH, elem_of_cons. unfold JS.setEntry. simpl.
    destruct (decide (k' = k)) as [->|Hne].
    + rewrite lookup_insert_eq. split; [intros [_ ?]; done | tauto].
    + rewrite lookup_insert_ne by done. split; [|tauto].
      intros [? ?]. split; [|done]. intros [?|?]; [congruence | done].
Qed.

Lemma fromEntries_Some (kvs : list (string * V)) k v :
  JS.fromEntries kvs !! k = Some v -> (k, v) ∈ kvs.
Proof.
  intros H. apply foldl_entries_Some in H as [H|H]; [done|].
  by rewrite lookup_empty in H.
Qed.

Lemma fromEntries_None (kvs : list (string * V)) k :
  JS.fromEntries kvs !! k = None <-> k ∉ (kvs.*1).
Proof.
  unfold JS.fromEntries.
  rewrite foldl_entries_None, lookup_empty. tauto.
Qed.
End fromEntries.

(** ** The queries of the ingestion *)

Lemma elem_of_findWashers (db : Store) (b : string) (names : list string)
    (w : Washer) :
  w ∈ Ingestion.findWashers db b names
  <-> w_name w ∈ names /\ ActiveWasher db b (w_name w) w.
Proof.
  unfold Ingestion.findWashers, ActiveWasher.
  rewrite list_elem_of_In, filter_In, <- list_elem_of_In.
  rewrite !andb_true_iff, arrayIncludes_spec, String.eqb_eq. tauto.
Qed.

Lemma findIdowu_Some (db : Store) (b : string) (w : Washer) :
  Ingestion.findIdowu db b = Some w -> IdowuOf db b w.
Proof.
  unfold Ingestion.findIdowu, IdowuOf. intros H.
  apply find_some in H as [Hin H].
  rewrite !andb_true_iff, !String.eqb_eq in H.
  rewrite list_elem_of_In. simpl in H. tauto.
Qed.

Lemma findIdowu_None (db : Store) (b : string) :
  Ingestion.findIdowu db b = None <-> forall w, ~ IdowuOf db b w.
Proof.
  split.
  - intros H w (Hin & Hb & Ha & Hn).
    apply list_elem_of_In in Hin.
    pose proof (find_none _ _ H w Hin) as Hf. simpl in Hf.
    rewrite Hn, Hb, Ha, !String.eqb_refl in Hf. discriminate.
  - intros H. destruct (Ingestion.findIdowu db b) as [w|] eqn:E; [|done].
    apply findIdowu_Some in E. by destruct (H w).
Qed.

Lemma hasActiveWasher_spec (db : Store) (b name : string) :
  hasActiveWasher db b name = true <-> exists w, ActiveWasher db b name w.
Proof.
  unfold hasActiveWasher, ActiveWasher. rewrite existsb_exists.
  split.
  - intros (w & Hin & H). exists w.
    rewrite !andb_true_iff, !String.eqb_eq in H.
    rewrite list_elem_of_In. tauto.
  - intros (w & Hin & Hb & Ha & Hn). exists w.
    rewrite <- list_elem_of_In. split; [done|].
    by rewrite Hn, Hb, Ha, !String.eqb_refl.
Qed.

Lemma existsb_special (its : list ItemReq) :
  existsb (fun item => RecordController.isSpecialItem (serviceItemName item)) its
  = true
  <-> exists item, item ∈ its /\ Special (serviceItemName item).
Proof.
  rewrite existsb_exists. split; intros (item & Hin & H); exists item.
  - by rewrite list_elem_of_In, <- isSpecialItem_spec.
  - by rewrite <- list_elem_of_In, isSpecialItem_spec.
Qed.

(** ** Rejection without an Idowu washer *)

(** C3.  A submission with a special line, in a branch with no active
    washer called Idowu (whatever the case), is answered with a 400
    error and the store is left as it was: no job, no line, no aggregate
    row is created or changed. *)
Theorem C3_special_without_idowu_rejected
    (env : Env) (b : string) (body : Body) (db : Store)
    (its : list ItemReq) (item : ItemReq) :
  items body = Some its ->
  item ∈ its ->
  Special (serviceItemName item) ->
  (forall w, ~ IdowuOf db b w) ->
  exists e,
    Ingestion.createCarWashRecord env b body db = (BadRequest e, db)
    /\ (e = BadPaymentMethod \/ e = IdowuRequired).
Proof.
  intros Hits Hin Hsp Hno.
  unfold Ingestion.createCarWashRecord. rewrite Hits.
  destruct its as [|it0 its']; [by apply elem_of_nil in Hin|].
  destruct (match paymentMethod body with Some _ => _ | None => _ end).
  { exists BadPaymentMethod. split; [done | by left]. }
  assert (existsb
            (fun item => RecordController.isSpecialItem (serviceItemName item))
            (it0 :: its') = true) as ->.
  { apply existsb_special. eauto. }
  apply findIdowu_None in Hno. rewrite Hno. simpl.
  exists IdowuRequired. split; [done | by right].
Qed.

(** ** Successful ingestion *)

(** A 201 answer comes out of the transaction, run on the resolved lines. *)
Lemma createCarWashRecord_Created (env : Env) (b : string) (body : Body)
    (db db' : Store) (cw : CarWash) (lines : list WashedItem) :
  Ingestion.createCarWashRecord env b body db = (Created cw lines, db') ->
  exists its itemsWithIds,
    items body = Some its
    /\ mapM (Ingestion.toItemWithIds (Ingestion.findIdowu db b)
               (washerMapOf db b its) (serviceItemMapOf db its)) its
       = Some itemsWithIds
    /\ Ingestion.transaction env b body itemsWithIds
         (sumF (map price itemsWithIds))
         (JS.uniq (map washerId itemsWithIds)) db
       = Some (cw, lines, db').
Proof.
  unfold Ingestion.createCarWashRecord. intros H.
  destruct (items body) as [[|it0 its]|]; [discriminate| |discriminate].
  exists (it0 :: its).
  fold (washerMapOf db b (it0 :: its)) in H.
  fold (serviceItemMapOf db (it0 :: its)) in H.
  repeat (case_match; try discriminate).
  all: injection H as <- <- <-; subst; eauto.
Qed.

Lemma transaction_lines (env : Env) (b : string) (body : Body)
    (iwis : list ItemWithIds) (total : float) (all : list string)
    (db db' : Store) (cw : CarWash) (lines : list WashedItem) :
  Ingestion.transaction env b body iwis total all db = Some (cw, lines, db') ->
  wi_washerId <$> lines = washerId <$> iwis
  /\ washedItems db' = (washedItems db ++ lines)%list
  /\ carWashes db' = (carWashes db ++ [cw])%list
  /\ cw_washers cw = all /\ cw_branchId cw = b /\ cw_washDate cw = now env
  /\ cw_totalAmount cw = total.
Proof.
  unfold Ingestion.transaction. intros H.
  destruct (Ingestion.updateDailySummaries _ _ _ _ _ _); [|discriminate].
  destruct (upsertChecked _ _ _ _ _); [|discriminate].
  simplify_eq. simpl. split; [|done].
  rewrite fmap_imap. simpl. apply (imap_const washerId).
Qed.

Lemma get_Own {V} (obj : gmap string V) (key : string) (v : V) :
  JS.get obj key = JS.Own v <-> obj !! key = Some v.
Proof.
  unfold JS.get. destruct (obj !! key).
  - split; congruence.
  - split; [|done]. by destruct (JS.inheritedName key).
Qed.

(** What a line that can be stored is made of. *)
Lemma toItemWithIds_Some (IdowuWasher : option Washer)
    (washerMap : gmap string string)
    (serviceItemMap : gmap string (string * float))
    (item : ItemReq) (iwi : ItemWithIds) :
  Ingestion.toItemWithIds IdowuWasher washerMap serviceItemMap item = Some iwi ->
  exists data,
    serviceItemMap !! serviceItemName item = Some data
    /\ serviceItemId iwi = data.1
    /\ (if PrimFloat.eqb data.2 0 && JS.truthy (customPrice item)
        then JS.parseFloat (customPrice item) = Some (price iwi)
        else price iwi = data.2)
    /\ (if RecordController.isSpecialItem (serviceItemName item)
        then exists w, IdowuWasher = Some w /\ washerId iwi = w_id w
        else washerMap !! washerName item = Some (washerId iwi)).
Proof.
  unfold Ingestion.toItemWithIds. intros H.
  destruct (JS.get serviceItemMap (serviceItemName item)) as [data| |] eqn:Hd;
    [|done|done].
  apply get_Own in Hd. exists data. split; [done|].
  destruct (PrimFloat.eqb data.2 0 && JS.truthy (customPrice item)).
  - destruct (JS.parseFloat (customPrice item)) as [p|]; [|done].
    destruct (RecordController.isSpecialItem (serviceItemName item)).
    + destruct IdowuWasher as [w|]; [|done]. simpl in H. simplify_eq. simpl.
      eauto.
    + destruct (JS.get washerMap (washerName item)) as [id| |] eqn:Hw;
        [|done|done].
      apply get_Own in Hw. by simplify_eq.
  - destruct (RecordController.isSpecialItem (serviceItemName item)).
    + destruct IdowuWasher as [w|]; [|done]. simpl in H. simplify_eq. simpl.
      eauto.
    + destruct (JS.get washerMap (washerName item)) as [id| |] eqn:Hw;
        [|done|done].
      apply get_Own in Hw. by simplify_eq.
Qed.

(** ** Who is credited *)

(** C2.  After a successful ingestion the job's lines are stored, and
    line by line: a special service item is credited to an active washer
    of the branch called Idowu (whatever the case), whoever was named on
    the line; any other item, rug included, is credited to an active
    washer of the branch bearing the submitted name. *)
Theorem C2_credited_washer (env : Env) (b : string) (body : Body)
    (db db' : Store) (cw : CarWash) (lines : list WashedItem) :
  Ingestion.createCarWashRecord env b body db = (Created cw lines, db') ->
  exists its,
    items body = Some its
    /\ washedItems db' = (washedItems db ++ lines)%list
    /\ Forall2
         (fun item line =>
            exists w,
              w_id w = wi_washerId line
              /\ (Special (serviceItemName item) -> IdowuOf db b w)
              /\ (~ Special (serviceItemName item) ->
                  ActiveWasher db b (washerName item) w))
         its lines.
Proof.
  intros H.
  apply createCarWashRecord_Created in H as (its & iwis & Hits & Hmap & Htx).
  apply transaction_lines in Htx as (Hids & Hst & _).
  exists its. split; [done|]. split; [done|].
  apply mapM_Some in Hmap.
  assert (Forall2
            (fun item wid =>
               exists w,
                 w_id w = wid
                 /\ (Special (serviceItemName item) -> IdowuOf db b w)
                 /\ (~ Special (serviceItemName item) ->
                     ActiveWasher db b (washerName item) w))
            its (wi_washerId <$> lines)) as HF.
  { rewrite Hids. apply Forall2_fmap_r.
    eapply Forall2_impl; [exact Hmap|].
    intros item iwi Hto. simpl.
    apply toItemWithIds_Some in Hto as (data & _ & _ & _ & Hw).
    destruct (RecordController.isSpecialItem (serviceItemName item)) eqn:Hsp.
    - destruct Hw as (w & Hid & ->). exists w.
      apply findIdowu_Some in Hid. apply isSpecialItem_spec in Hsp.
      split; [done|]. split; [done|]. by intros [].
    - apply fromEntries_Some, list_elem_of_fmap in Hw as (w & E & Hw).
      injection E as E1 E2.
      apply elem_of_findWashers in Hw as [_ Hw].
      apply isSpecialItem_false in Hsp.
      exists w. split; [done|]. split; [by intros ?|]. by rewrite E1. }
  by apply Forall2_fmap_r in HF.
Qed.

(** ** Missing washers *)

Lemma paymentMethod_check (body : Body) :
  match paymentMethod body with
  | Some pm =>
      JS.truthyStr pm
      && negb (JS.arrayIncludes ["cash"; "transfer"] (JS.toLowerCase pm))
  | None => false
  end = false
  <-> paymentMethodOk body.
Proof.
  unfold paymentMethodOk. destruct (paymentMethod body) as [pm|]; [|done].
  unfold JS.truthyStr, JS.arrayIncludes. simpl.
  rewrite andb_false_iff, !negb_false_iff, orb_false_r, orb_true_iff.
  rewrite !String.eqb_eq. tauto.
Qed.

Lemma idowu_check (db : Store) (b : string) (its : list ItemReq) :
  existsb (fun item => RecordController.isSpecialItem (serviceItemName item)) its
  && negb (bool_decide (is_Some (Ingestion.findIdowu db b))) = false
  <-> ((exists item, item ∈ its /\ Special (serviceItemName item)) ->
       exists w, IdowuOf db b w).
Proof.
  rewrite andb_false_iff, negb_false_iff, bool_decide_eq_true.
  rewrite <- existsb_special. split.
  - intros [H|[w H]] Hsp; [congruence|].
    exists w. by apply findIdowu_Some.
  - intros H.
    destruct (existsb _ its); [right | by left].
    destruct (Ingestion.findIdowu db b) as [w|] eqn:E; [by eexists|].
    destruct (H eq_refl) as [w Hw].
    rewrite findIdowu_None in E. by destruct (E w).
Qed.


Lemma nonempty_check_false {A} (l : list A) :
  negb (length l =? 0)%nat = false <-> l = [].
Proof. by destruct l. Qed.

(** The dictionary of washers has an entry under a submitted name
    exactly when the branch has an active washer of that name. *)
Lemma washerMapOf_is_Some (db : Store) (b : string) (its : list ItemReq)
    (name : string) :
  name ∈ JS.uniq (map washerName its) ->
  is_Some (washerMapOf db b its !! name) <-> hasActiveWasher db b name = true.
Proof.
  intros Hname. split.
  - intros [id E].
    apply fromEntries_Some, list_elem_of_fmap in E as (w & E & Hw).
    injection E as E1 E2.
    apply elem_of_findWashers in Hw as [_ Hw].
    apply hasActiveWasher_spec. exists w. by rewrite E1.
  - intros Hh. destruct (washerMapOf db b its !! name) eqn:E; [by eexists|].
    apply fromEntries_None in E.
    apply hasActiveWasher_spec in Hh as [w Hw]. destruct E.
    rewrite <- list_fmap_compose. apply list_elem_of_fmap.
    exists w. pose proof Hw as (_ & _ & _ & Hn).
    split; [simpl; congruence|].
    apply elem_of_findWashers. by rewrite Hn.
Qed.

(** With non-empty identifiers, a submitted name fails the dictionary
    test exactly when the branch has no active washer of that name and
    the name is not one every object inherits. *)
Lemma noWasher_spec (db : Store) (b : string) (its : list ItemReq)
    (name : string) :
  (forall w, w ∈ washers db -> w_id w <> "") ->
  name ∈ JS.uniq (map washerName its) ->
  Ingestion.noWasher (washerMapOf db b its) name
  = negb (hasActiveWasher db b name) && negb (JS.inheritedName name).
Proof.
  intros Hids Hname. unfold Ingestion.noWasher, JS.get.
  pose proof (washerMapOf_is_Some db b its name Hname) as Hsome.
  destruct (washerMapOf db b its !! name) as [id|] eqn:E.
  - rewrite (proj1 Hsome) by by eexists. simpl.
    apply fromEntries_Some, list_elem_of_fmap in E as (w & E & Hw).
    injection E as E1 E2.
    apply elem_of_findWashers in Hw as [_ [Hin _]]. apply Hids in Hin.
    unfold JS.truthyStr. subst id.
    apply String.eqb_neq in Hin. by rewrite Hin.
  - destruct (hasActiveWasher db b name).
    + destruct (proj2 Hsome eq_refl) as [? ?]. discriminate.
    + by destruct (JS.inheritedName name).
Qed.

Lemma missingWashers_spec (db : Store) (b : string) (its : list ItemReq) :
  (forall w, w ∈ washers db -> w_id w <> "") ->
  List.filter (Ingestion.noWasher (washerMapOf db b its))
              (JS.uniq (map washerName its))
  = List.filter (fun n => negb (hasActiveWasher db b n)
                          && negb (JS.inheritedName n))
                (JS.uniq (map washerName its)).
Proof.
  intros Hids. apply filter_ext_in. intros n Hn.
  apply noWasher_spec; [done | by apply list_elem_of_In].
Qed.


Lemma C3_special_without_idowu_rejected_witness :
  exists e,
    Ingestion.createCarWashRecord Ex.env "branch_a"
      (Ex.submit [Ex.line "Sam" "Engine Wash"]) Ex.dbNoIdowu
    = (BadRequest e, Ex.dbNoIdowu)
    /\ (e = BadPaymentMethod \/ e = IdowuRequired).
Proof.
  apply (C3_special_without_idowu_rejected Ex.env "branch_a"
           (Ex.submit [Ex.line "Sam" "Engine Wash"]) Ex.dbNoIdowu
           [Ex.line "Sam" "Engine Wash"] (Ex.line "Sam" "Engine Wash")).
  - reflexivity.
  - apply list_elem_of_singleton. reflexivity.
  - exact special_Engine_Wash.
  - apply findIdowu_None. reflexivity.
Defined.

Lemma C2_credited_washer_witness :
  exists its,
    items (Ex.submit [Ex.line "Sam" "Engine Wash"; Ex.line "Sam" "Full Wash"])
    = Some its
    /\ washedItems
         (Ex.after [Ex.line "Sam" "Engine Wash"; Ex.line "Sam" "Full Wash"])
       = (washedItems Ex.db ++
          [ mkWashedItem "line-0" "job-1" "w-idowu" "s-engine" (Some 300%float);
            mkWashedItem "line-1" "job-1" "w-sam" "s-full" (Some 50%float) ])%list
    /\ Forall2
         (fun item line =>
            exists w,
              w_id w = wi_washerId line
              /\ (Special (serviceItemName item) -> IdowuOf Ex.db "branch_a" w)
              /\ (~ Special (serviceItemName item) ->
                  ActiveWasher Ex.db "branch_a" (washerName item) w))
         its
         [ mkWashedItem "line-0" "job-1" "w-idowu" "s-engine" (Some 300%float);
           mkWashedItem "line-1" "job-1" "w-sam" "s-full" (Some 50%float) ].
Proof.
  apply (C2_credited_washer Ex.env "branch_a" _ Ex.db _
           (Ex.job 350 ["w-idowu"; "w-sam"])).
  vm_compute. reflexivity.
Defined.



(** ** The aggregate updater *)

Lemma startOfDay_le (env : Env) (t : Z) : startOfDay env t <= t.
Proof.
  unfold startOfDay, msPerDay.
  pose proof (Z.mod_pos_bound (t + tzOffset env) 86400000). lia.
Qed.

Section upsert.
Context {K V : Type} `{Countable K}.

Lemma upsert_lookup_eq (k : K) (u : V -> V) (c : V) (m : gmap K V) :
  upsert k u c m !! k
  = Some (match m !! k with Some row => u row | None => c end).
Proof.
  unfold upsert. destruct (m !! k); by rewrite lookup_insert_eq.
Qed.

Lemma upsert_lookup_ne (k k' : K) (u : V -> V) (c : V) (m : gmap K V) :
  k <> k' -> upsert k u c m !! k' = m !! k'.
Proof.
  intros Hne. unfold upsert.
  destruct (m !! k); by rewrite lookup_insert_ne.
Qed.
End upsert.

Lemma fold_insert_lookup {V} (g : string -> V) (l : list string) :
  forall (m : gmap string V) (w : string),
    fold_left (fun acc x => <[ x := g x ]> acc) l m !! w
    = if decide (w ∈ l) then Some (g w) else m !! w.
Proof.
  induction l as [|x l IH]; intros m w; simpl.
  - destruct (decide (w ∈ [])) as [Hin|]; [by apply elem_of_nil in Hin | done].
  - rewrite IH.
    destruct (decide (w ∈ l)) as [Hin|Hnin].
    + rewrite decide_True; [done | by apply elem_of_cons; right].
    + destruct (decide (w = x)) as [->|Hne].
      * rewrite lookup_insert_eq.
        rewrite decide_True; [done | by apply elem_of_cons; left].
      * rewrite lookup_insert_ne by done.
        rewrite decide_False; [done|].
        intros [?|?]%elem_of_cons; done.
Qed.

(** The job just created is among the jobs of today that link the washer. *)
Lemma new_job_is_existing (db : Store) (b : string) (today : Z)
    (cw : CarWash) (w : string) :
  cw ∈ carWashes db -> cw_branchId cw = b -> today <= cw_washDate cw ->
  w ∈ cw_washers cw ->
  existsb (fun c => String.eqb (cw_id c) (cw_id cw))
          (Ingestion.existingCarWashes db b today w) = true.
Proof.
  intros Hin Hb Ht Hw. apply existsb_exists. exists cw.
  split; [|apply String.eqb_refl].
  unfold Ingestion.existingCarWashes. apply filter_In.
  split; [by apply list_elem_of_In|].
  rewrite Hb, String.eqb_refl. simpl.
  apply arrayIncludes_spec in Hw. rewrite Hw.
  apply Z.leb_le in Ht. by rewrite Ht.
Qed.

Lemma length_filter_map {A B} (f : A -> B) (p : B -> bool) (l : list A) :
  length (List.filter p (map f l)) = length (List.filter (fun x => p (f x)) l).
Proof.
  induction l as [|x l IH]; simpl; [done|].
  destruct (p (f x)); simpl; by rewrite IH.
Qed.

Lemma washerItemCounts_fold (iwis : list ItemWithIds) (w : string) :
  forall acc : gmap string Z,
    default 0
      (fold_left
         (fun acc item =>
            <[ washerId item := default 0 (acc !! washerId item) + 1 ]> acc)
         iwis acc !! w)
    = default 0 (acc !! w)
      + Z.of_nat
          (length (List.filter (fun item => String.eqb (washerId item) w) iwis)).
Proof.
  induction iwis as [|item iwis IH]; intros acc; simpl; [lia|].
  rewrite IH.
  destruct (String.eqb (washerId item) w) eqn:E.
  - apply String.eqb_eq in E. rewrite E, lookup_insert_eq.
    cbn [default length]. unfold id. lia.
  - apply String.eqb_neq in E. by rewrite lookup_insert_ne.
Qed.

Lemma washerItemCounts_lookup (iwis : list ItemWithIds) (w : string) :
  default 0 (Ingestion.washerItemCounts iwis !! w)
  = Z.of_nat
      (length (List.filter (fun item => String.eqb (washerId item) w) iwis)).
Proof.
  unfold Ingestion.washerItemCounts.
  by rewrite washerItemCounts_fold, lookup_empty.
Qed.

Lemma upsertChecked_Some {K V} `{Countable K} (fits : V -> bool)
    (key : K) (update : V -> V) (create : V) (m m' : gmap K V) :
  upsertChecked fits key update create m = Some m' ->
  m' = upsert key update create m.
Proof. unfold upsertChecked. case_match; congruence. Qed.

(** When every statement of the second loop succeeds, the table is the
    one the loop's updates give. *)
Lemma updateDailySummaries_Some (b : string) (today : Z)
    (inv : gmap string bool) (counts : gmap string Z) (l : list string) :
  forall table table',
    Ingestion.updateDailySummaries b today inv counts l table = Some table' ->
    table' = Ingestion.updatedDailySummaries b today inv counts l table.
Proof.
  unfold Ingestion.updateDailySummaries, Ingestion.updatedDailySummaries.
  match goal with
  | |- context [fold_left ?F l (Some _)] => set (step := F)
  end.
  assert (forall l', fold_left step l' None = None) as Hnone.
  { induction l' as [|x l' IH]; simpl; [done | exact IH]. }
  induction l as [|x l IH]; intros table table'; cbn [fold_left].
  - congruence.
  - destruct (step (Some table) x) as [t1|] eqn:E.
    + unfold step in E. cbv zeta in E. apply upsertChecked_Some in E as ->.
      apply IH.
    + rewrite Hnone. discriminate.
Qed.

Lemma updateDailySummaries_lookup (b : string) (today : Z)
    (inv : gmap string bool) (counts : gmap string Z) (l : list string) :
  NoDup l ->
  forall (table : gmap (string * Z * string) DailySummary) (w : string),
    Ingestion.updatedDailySummaries b today inv counts l table !! (w, today, b)
    = if decide (w ∈ l) then
        let cars := if default false (inv !! w) then 1 else 0 in
        let lines := default 0 (counts !! w) in
        Some
          match table !! (w, today, b) with
          | Some row =>
              {| ds_totalCarsWashed := ds_totalCarsWashed row + cars;
                 ds_totalItemsWashed := ds_totalItemsWashed row + lines |}
          | None =>
              {| ds_totalCarsWashed := cars; ds_totalItemsWashed := lines |}
          end
      else table !! (w, today, b).
Proof.
  unfold Ingestion.updatedDailySummaries.
  induction 1 as [|x l Hx Hnd IH]; intros table w; simpl.
  - destruct (decide (w ∈ [])) as [Hin|]; [by apply elem_of_nil in Hin | done].
  - rewrite IH.
    destruct (decide (w = x)) as [->|Hne].
    + rewrite decide_False by done.
      rewrite decide_True by (apply elem_of_cons; by left).
      by rewrite upsert_lookup_eq.
    + rewrite upsert_lookup_ne by congruence.
      destruct (decide (w ∈ l)) as [Hin|Hnin].
      * rewrite decide_True by (apply elem_of_cons; by right). done.
      * rewrite decide_False; [done|].
        intros [?|?]%elem_of_cons; done.
Qed.

(** C1, on the code.  Whenever a job is ingested, the job counter of
    every washer credited on it stays as it was, first job of the day or
    not: the job just created is itself among the jobs of today that link
    the washer, so the test for an earlier involvement always succeeds.
    The item counter grows by the number of lines credited to the
    washer. *)
Theorem C1_job_counter_after_ingestion
    (env : Env) (b : string) (body : Body) (db db' : Store)
    (cw : CarWash) (lines : list WashedItem) (w : string) :
  Ingestion.createCarWashRecord env b body db = (Created cw lines, db') ->
  w ∈ wi_washerId <$> lines ->
  jobCounter db' w (startOfDay env (now env)) b
    = jobCounter db w (startOfDay env (now env)) b
  /\ itemCounter db' w (startOfDay env (now env)) b
    = itemCounter db w (startOfDay env (now env)) b + linesCredited w lines.
Proof.
  intros H Hw.
  apply createCarWashRecord_Created in H as (its & iwis & _ & _ & Htx).
  pose proof (transaction_lines _ _ _ _ _ _ _ _ _ _ Htx)
    as (Hids & _ & _ & Hlinked & Hb & Hdate & _).
  unfold jobCounter, itemCounter, linesCredited.
  assert (dailySummaries db'
          = Ingestion.updatedDailySummaries b (startOfDay env (now env))
              (Ingestion.washerCarInvolvement
                 {| branches := branches db; washers := washers db;
                    serviceItems := serviceItems db;
                    carWashes := carWashes db ++ [cw];
                    washedItems := washedItems db ++ lines;
                    dailySummaries := dailySummaries db;
                    companyDailySummaries := companyDailySummaries db |}
                 b (startOfDay env (now env)) cw
                 (JS.uniq (map washerId iwis)))
              (Ingestion.washerItemCounts iwis)
              (JS.uniq (map washerId iwis)) (dailySummaries db)) as ->.
  { unfold Ingestion.transaction in Htx.
    destruct (Ingestion.updateDailySummaries _ _ _ _ _ _) as [t|] eqn:Ht;
      [|discriminate].
    destruct (upsertChecked _ _ _ _ _); [|discriminate].
    apply updateDailySummaries_Some in Ht.
    injection Htx as Hcw Hlines Hdb.
    rewrite <- Hdb, <- Hlines, <- Hcw. exact Ht. }
  rewrite Hids in Hw.
  assert (w ∈ JS.uniq (map washerId iwis)) as Hin by by apply elem_of_uniq.
  rewrite updateDailySummaries_lookup by apply NoDup_uniq.
  rewrite decide_True by done. cbv zeta.
  unfold Ingestion.washerCarInvolvement.
  rewrite fold_insert_lookup, decide_True by done.
  rewrite new_job_is_existing; cycle 1.
  { simpl. apply elem_of_app. right. by apply list_elem_of_singleton. }
  { done. }
  { rewrite Hdate. apply startOfDay_le. }
  { by rewrite Hlinked. }
  simpl negb. cbn [default].
  rewrite washerItemCounts_lookup.
  replace (length (List.filter (fun l => String.eqb (wi_washerId l) w) lines))
    with (length (List.filter (fun item => String.eqb (washerId item) w) iwis)).
  2: { rewrite <- (length_filter_map washerId (fun id => String.eqb id w)).
       rewrite <- (length_filter_map wi_washerId (fun id => String.eqb id w)).
       change (map washerId iwis) with (washerId <$> iwis).
       change (map wi_washerId lines) with (wi_washerId <$> lines).
       by rewrite Hids. }
  destruct (dailySummaries db !! (w, startOfDay env (now env), b));
    simpl; split; lia.
Qed.

(** C1, at the input of the specification's scenario: two lines of one
    job credited to Sam, who has no job yet today.  The item counter
    becomes 2, and the job counter is 0 where it should be 1. *)
Lemma C1_first_job_not_counted :
  (Ingestion.createCarWashRecord Ex.env "branch_a"
     (Ex.submit [Ex.line "Sam" "Full Wash"; Ex.line "Sam" "Full Wash"])
     Ex.db).1
  = Created (Ex.job 100 ["w-sam"])
      [ mkWashedItem "line-0" "job-1" "w-sam" "s-full" (Some 50%float);
        mkWashedItem "line-1" "job-1" "w-sam" "s-full" (Some 50%float) ]
  /\ jobCounter Ex.db "w-sam" Ex.today "branch_a" = 0
  /\ jobCounter
       (Ex.after [Ex.line "Sam" "Full Wash"; Ex.line "Sam" "Full Wash"])
       "w-sam" Ex.today "branch_a" = 0
  /\ itemCounter
       (Ex.after [Ex.line "Sam" "Full Wash"; Ex.line "Sam" "Full Wash"])
       "w-sam" Ex.today "branch_a" = 2.
Proof. repeat split; vm_compute; reflexivity. Qed.

Lemma C1_job_counter_after_ingestion_witness :
  jobCounter
    (Ex.after [Ex.line "Sam" "Full Wash"; Ex.line "Sam" "Full Wash"])
    "w-sam" (startOfDay Ex.env (now Ex.env)) "branch_a"
  = jobCounter Ex.db "w-sam" (startOfDay Ex.env (now Ex.env)) "branch_a"
  /\ itemCounter
       (Ex.after [Ex.line "Sam" "Full Wash"; Ex.line "Sam" "Full Wash"])
       "w-sam" (startOfDay Ex.env (now Ex.env)) "branch_a"
     = itemCounter Ex.db "w-sam" (startOfDay Ex.env (now Ex.env)) "branch_a"
       + linesCredited "w-sam"
           [ mkWashedItem "line-0" "job-1" "w-sam" "s-full" (Some 50%float);
             mkWashedItem "line-1" "job-1" "w-sam" "s-full" (Some 50%float) ].
Proof.
  apply (C1_job_counter_after_ingestion Ex.env "branch_a"
           (Ex.submit [Ex.line "Sam" "Full Wash"; Ex.line "Sam" "Full Wash"])
           Ex.db _ (Ex.job 100 ["w-sam"])).
  - vm_compute. reflexivity.
  - vm_compute. apply elem_of_cons. by left.
Defined.

(** ** The read side *)

Lemma fold_left_proj {A B C} (f : B -> A -> B) (g : C -> A -> C)
    (proj : B -> C) :
  (forall b a, proj (f b a) = g (proj b) a) ->
  forall l b, proj (fold_left f l b) = fold_left g l (proj b).
Proof.
  intros Hstep l. induction l as [|a l IH]; intros b; simpl; [done|].
  by rewrite IH, Hstep.
Qed.

Lemma fold_add_map {A} (f : A -> float) (l : list A) :
  forall s,
    fold_left (fun s x => (s + f x)%float) l s
    = fold_left PrimFloat.add (map f l) s.
Proof. induction l as [|a l IH]; intros s; simpl; [done | by rewrite IH]. Qed.

Lemma fold_Zadd_map {A} (f : A -> Z) (l : list A) :
  forall s,
    fold_left (fun s x => s + f x) l s = fold_left Z.add (map f l) s.
Proof. induction l as [|a l IH]; intros s; simpl; [done | by rewrite IH]. Qed.

(** Which lines a summary reads. *)
Lemma elem_of_linesOfDay (env : Env) (b : string) (date : option Z)
    (db : Store) (j : Joined) :
  j ∈ linesOfDay env b date db
  <-> j_item j ∈ washedItems db
      /\ List.find (fun cw => String.eqb (cw_id cw) (wi_carWashId (j_item j)))
                   (carWashes db) = Some (j_carWash j)
      /\ List.find (fun s => String.eqb (s_id s) (wi_serviceItemId (j_item j)))
                   (serviceItems db) = Some (j_serviceItem j)
      /\ List.find (fun w => String.eqb (w_id w) (wi_washerId (j_item j)))
                   (washers db) = j_washer j
      /\ cw_branchId (j_carWash j) = b
      /\ startOfDay env (default (now env) date) <= cw_washDate (j_carWash j)
         <= endOfDay env (default (now env) date).
Proof.
  unfold linesOfDay, findWashedItems. rewrite list_elem_of_omap. split.
  - intros (wi & Hin & H).
    destruct (List.find _ (carWashes db)) as [cw|] eqn:Hcw; [|done].
    destruct (List.find _ (serviceItems db)) as [s|] eqn:Hs; [|done].
    destruct (String.eqb (cw_branchId cw) b) eqn:Hb; [|done].
    destruct (_ <=? cw_washDate cw) eqn:H1; [|done].
    destruct (cw_washDate cw <=? _) eqn:H2; [|done].
    simpl in H. injection H as <-. simpl.
    apply String.eqb_eq in Hb. apply Z.leb_le in H1, H2. done.
  - intros (Hin & Hcw & Hs & Hw & Hb & H1 & H2).
    exists (j_item j). split; [done|]. rewrite Hcw, Hs, Hb, String.eqb_refl.
    apply Z.leb_le in H1, H2. rewrite H1, H2. simpl.
    rewrite Hw. by destruct j.
Qed.

Lemma summary_totalEarnings (env : Env) (b : string) (date : option Z)
    (db : Store) :
  t_totalEarnings (bs_summary (Summary.getCompanyDailySummary env b date db))
  = round2 (sumF (map priceUsed (linesOfDay env b date db))).
Proof.
  unfold Summary.getCompanyDailySummary, round2, sumF. cbn [bs_summary t_totalEarnings].
  rewrite (fold_left_proj _ (fun s j => (s + priceUsed j)%float)
             Summary.totalSales) by done.
  by rewrite fold_add_map.
Qed.

Lemma summary_independent (env : Env) (b : string) (date : option Z)
    (db1 db2 : Store) :
  sameRawData db1 db2 ->
  Summary.getCompanyDailySummary env b date db1
  = Summary.getCompanyDailySummary env b date db2.
Proof.
  intros (Hb & Hw & Hs & Hc & Hi).
  unfold Summary.getCompanyDailySummary, findCarWashes, findWashedItems.
  by rewrite Hw, Hs, Hc, Hi.
Qed.

(** C7, as stated, fails.  A line priced 0.125 is reported as 0.13: the
    reported total is the sum rounded to two decimals.  A line stored
    with price 0 counts for the list price of its service item, 50. *)
Lemma C7_total_is_not_the_stored_sum :
  PrimFloat.eqb
    (t_totalEarnings
       (bs_summary
          (Summary.getCompanyDailySummary Ex.env "branch_a" None Ex.dbEighth)))
    (sumF (map priceStored (linesOfDay Ex.env "branch_a" None Ex.dbEighth)))
  = false
  /\ t_totalEarnings
       (bs_summary
          (Summary.getCompanyDailySummary Ex.env "branch_a" None Ex.dbEighth))
     = 0x1.0a3d70a3d70a4p-3%float
  /\ sumF (map priceStored (linesOfDay Ex.env "branch_a" None Ex.dbEighth))
     = 0.125%float
  /\ t_totalEarnings
       (bs_summary
          (Summary.getCompanyDailySummary Ex.env "branch_a" None Ex.dbZero))
     = 50%float
  /\ sumF (map priceStored (linesOfDay Ex.env "branch_a" None Ex.dbZero))
     = 0%float.
Proof. repeat split; vm_compute; reflexivity. Qed.

(** With distinct job identifiers, the job a line is joined with is the
    one job bearing the identifier the line refers to. *)
Lemma find_job_unique (jobs : list CarWash) (cw : CarWash) (id : string) :
  NoDup (map cw_id jobs) -> cw ∈ jobs -> cw_id cw = id ->
  List.find (fun c => String.eqb (cw_id c) id) jobs = Some cw.
Proof.
  intros Hnd Hin Hid. induction jobs as [|c jobs IH].
  { by apply elem_of_nil in Hin. }
  cbn [map] in Hnd. apply NoDup_cons in Hnd as [Hc Hnd]. cbn [List.find].
  destruct (String.eqb (cw_id c) id) eqn:E.
  - apply String.eqb_eq in E.
    apply elem_of_cons in Hin as [->|Hin]; [done|].
    destruct Hc. rewrite E, <- Hid. apply list_elem_of_fmap. by exists cw.
  - apply String.eqb_neq in E.
    apply elem_of_cons in Hin as [->|Hin]; [done|]. by apply IH.
Qed.

Lemma ofBranchDay_spec (env : Env) (b : string) (date : option Z)
    (db : Store) (wi : WashedItem) :
  NoDup (map cw_id (carWashes db)) ->
  ofBranchDay env b date db wi
  = match List.find (fun cw => String.eqb (cw_id cw) (wi_carWashId wi))
                    (carWashes db) with
    | Some cw =>
        String.eqb (cw_branchId cw) b
        && (startOfDay env (default (now env) date) <=? cw_washDate cw)
        && (cw_washDate cw <=? endOfDay env (default (now env) date))
    | None => false
    end.
Proof.
  intros Hnd. unfold ofBranchDay.
  change (startOfDay env (default (now env) date) + 86399999)
    with (endOfDay env (default (now env) date)).
  destruct (List.find _ (carWashes db)) as [cw|] eqn:Hf.
  - apply eq_true_iff_eq. rewrite existsb_exists. split.
    + intros (cw' & Hin & H).
      rewrite !andb_true_iff in H. destruct H as [[[Hid Hb] H1] H2].
      apply String.eqb_eq in Hid. apply list_elem_of_In in Hin.
      rewrite (find_job_unique _ cw' _ Hnd Hin Hid) in Hf.
      injection Hf as <-. by rewrite Hb, H1, H2.
    + intros H. apply find_some in Hf as [Hin Hid].
      exists cw. split; [done|]. rewrite Hid. exact H.
  - apply not_true_is_false. rewrite existsb_exists.
    intros (cw' & Hin & H).
    rewrite !andb_true_iff in H. destruct H as [[[Hid Hb] H1] H2].
    pose proof (find_none _ _ Hf cw' Hin) as Hn. simpl in Hn. congruence.
Qed.

(** With distinct job identifiers, and lines whose service item exists,
    the lines a summary reads are, in order, the stored lines whose job
    is of the branch and of the day, each with a service item bearing
    the identifier the line refers to. *)
Lemma linesOfDay_lines (env : Env) (b : string) (date : option Z)
    (db : Store) :
  NoDup (map cw_id (carWashes db)) ->
  (forall wi, wi ∈ washedItems db ->
     exists s, s ∈ serviceItems db /\ s_id s = wi_serviceItemId wi) ->
  Forall2
    (fun wi j =>
       j_item j = wi /\ j_serviceItem j ∈ serviceItems db
       /\ s_id (j_serviceItem j) = wi_serviceItemId wi)
    (List.filter (ofBranchDay env b date db) (washedItems db))
    (linesOfDay env b date db).
Proof.
  intros Hnd. unfold linesOfDay, findWashedItems.
  generalize (washedItems db). intros l Hfk.
  induction l as [|wi l IH]; [constructor|].
  cbn [List.filter]. csimpl.
  assert (forall wi', wi' ∈ l ->
            exists s, s ∈ serviceItems db /\ s_id s = wi_serviceItemId wi')
    as Hfk'.
  { intros wi' Hin. apply Hfk, elem_of_cons. by right. }
  specialize (IH Hfk').
  rewrite (ofBranchDay_spec env b date db wi Hnd).
  destruct (List.find _ (carWashes db)) as [cw|]; [|exact IH].
  destruct (Hfk wi) as (s & Hs & Hid); [apply elem_of_cons; by left|].
  destruct (List.find _ (serviceItems db)) as [s'|] eqn:Hf.
  - apply find_some in Hf as [Hin' Hid'].
    apply String.eqb_eq in Hid'. apply list_elem_of_In in Hin'.
    destruct (String.eqb (cw_branchId cw) b && _ && _); [|exact IH].
    csimpl. constructor; [|exact IH]. done.
  - apply list_elem_of_In in Hs.
    pose proof (find_none _ _ Hf s Hs) as Hn. simpl in Hn.
    rewrite Hid, String.eqb_refl in Hn. discriminate.
Qed.

(** C7, amended.  The total sales reported for a branch and a day are the
    sum, rounded to two decimals, of the prices of the stored lines whose
    job is of that branch and day (from local midnight to 23:59:59.999),
    taken in the order in which they are stored, where the price of a
    line is its stored price or, when that is zero or absent, the list
    price of its service item.  The lines read are exactly those lines.
    The summary is computed from the jobs, lines and service items only:
    two stores that differ in their aggregate tables alone give the same
    summary.  Job identifiers are distinct, and the service item of
    every line exists. *)
Theorem C7_total_sales_from_lines (env : Env) (b : string) (date : option Z)
    (db : Store) :
  NoDup (map cw_id (carWashes db)) ->
  (forall wi, wi ∈ washedItems db ->
     exists s, s ∈ serviceItems db /\ s_id s = wi_serviceItemId wi) ->
  (exists prices,
     t_totalEarnings (bs_summary (Summary.getCompanyDailySummary env b date db))
     = round2 (sumF prices)
     /\ Forall2
          (fun wi p =>
             exists s, s ∈ serviceItems db /\ s_id s = wi_serviceItemId wi
                       /\ p = JS.orNum (wi_price wi) (s_price s))
          (List.filter (ofBranchDay env b date db) (washedItems db))
          prices)
  /\ map j_item (linesOfDay env b date db)
     = List.filter (ofBranchDay env b date db) (washedItems db)
  /\ t_totalEarnings (bs_summary (Summary.getCompanyDailySummary env b date db))
     = round2 (sumF (map priceUsed (linesOfDay env b date db)))
  /\ (forall j, j ∈ linesOfDay env b date db ->
      j_item j ∈ washedItems db
      /\ j_carWash j ∈ carWashes db
      /\ cw_id (j_carWash j) = wi_carWashId (j_item j)
      /\ cw_branchId (j_carWash j) = b
      /\ startOfDay env (default (now env) date) <= cw_washDate (j_carWash j)
         <= startOfDay env (default (now env) date) + 86399999)
  /\ (forall daily company,
      Summary.getCompanyDailySummary env b date
        {| branches := branches db; washers := washers db;
           serviceItems := serviceItems db;
           carWashes := carWashes db; washedItems := washedItems db;
           dailySummaries := daily; companyDailySummaries := company |}
      = Summary.getCompanyDailySummary env b date db).
Proof.
  intros Hnd Hfk.
  pose proof (linesOfDay_lines env b date db Hnd Hfk) as HF.
  split; [|split; [|split; [apply summary_totalEarnings|split]]].
  - exists (map priceUsed (linesOfDay env b date db)).
    split; [apply summary_totalEarnings|].
    apply Forall2_fmap_r. eapply Forall2_impl; [exact HF|].
    intros wi j (<- & Hs & Hid). exists (j_serviceItem j). done.
  - symmetry. induction HF as [|wi j l k (<- & _) HF IH]; [done|].
    cbn [map]. by rewrite IH.
  - intros j Hj. apply elem_of_linesOfDay in Hj
      as (Hin & Hcw & _ & _ & Hb & Hd).
    apply find_some in Hcw as [Hcw Hid].
    apply String.eqb_eq in Hid. apply list_elem_of_In in Hcw.
    unfold endOfDay, msPerDay in Hd. simpl in Hd. done.
  - intros daily company. by apply summary_independent.
Qed.

Lemma C7_total_sales_from_lines_witness :
  (exists prices,
     t_totalEarnings
       (bs_summary
          (Summary.getCompanyDailySummary Ex.env "branch_a" None
             Ex.dbTwoBranches))
     = round2 (sumF prices)
     /\ Forall2
          (fun wi p =>
             exists s, s ∈ serviceItems Ex.dbTwoBranches
                       /\ s_id s = wi_serviceItemId wi
                       /\ p = JS.orNum (wi_price wi) (s_price s))
          (List.filter (ofBranchDay Ex.env "branch_a" None Ex.dbTwoBranches)
                       (washedItems Ex.dbTwoBranches))
          prices)
  /\ map j_item (linesOfDay Ex.env "branch_a" None Ex.dbTwoBranches)
     = [ mkWashedItem "l-1" "job-a" "w-sam" "s-rug" (Some 0.125%float) ]
  /\ Summary.getCompanyDailySummary Ex.env "branch_a" None
       (Ex.storeOf (carWashes Ex.dbTwoBranches) (washedItems Ex.dbTwoBranches)
          {[ ("w-sam", Ex.today, "branch_a") := mkDailySummary 7 9 ]} ∅)
     = Summary.getCompanyDailySummary Ex.env "branch_a" None Ex.dbTwoBranches.
Proof.
  destruct (C7_total_sales_from_lines Ex.env "branch_a" None Ex.dbTwoBranches)
    as (H1 & H2 & _ & _ & H5).
  - apply (bool_decide_unpack _). vm_compute. exact I.
  - intros wi Hin. exists (mkServiceItem "s-rug" "Car Rug" 0 true).
    split; [do 2 (apply elem_of_cons; right); apply elem_of_cons; by left|].
    apply elem_of_cons in Hin as [->|Hin]; [reflexivity|].
    apply list_elem_of_singleton in Hin as ->. reflexivity.
  - split; [exact H1|]. split; [exact H2 | apply H5].
Defined.

(** ** All branches *)

#[local] Instance nameLe_total : Total Summary.nameLe.
Proof. intros b1 b2. apply String.leb_total. Qed.

Lemma branch_entries (env : Env) (date : option Z) (db : Store) :
  (Summary.getCompanyDailySummaryAllBranches env date db).1
  = map (fun br => (br, Summary.getCompanyDailySummary env (b_id br) date db))
        (Summary.findActiveBranches db).
Proof. reflexivity. Qed.

(** The overall totals before the last rounding: sums of what the
    branches report. *)
Lemma overall_totals (env : Env) (date : option Z) (db : Store) :
  let entries := (Summary.getCompanyDailySummaryAllBranches env date db).1 in
  let overall := (Summary.getCompanyDailySummaryAllBranches env date db).2 in
  let reported (f : BranchSummary -> float) :=
    round2 (sumF (map (fun e : Branch * BranchSummary => f e.2) entries)) in
  o_totalEarnings overall = reported (fun s => t_totalEarnings (bs_summary s))
  /\ o_companyShare overall = reported (fun s => t_companyShare (bs_summary s))
  /\ o_workerShare overall = reported (fun s => t_workerShare (bs_summary s))
  /\ o_cash overall = reported (fun s => pm_cash (bs_paymentMethods s))
  /\ o_transfer overall = reported (fun s => pm_transfer (bs_paymentMethods s))
  /\ o_totalJobs overall
     = sumZ (map (fun e : Branch * BranchSummary => t_totalJobs (bs_summary e.2))
                 entries)
  /\ o_totalItemsWashed overall
     = sumZ (map (fun e : Branch * BranchSummary =>
                    t_totalItemsWashed (bs_summary e.2))
                 entries).
Proof.
  cbv zeta. rewrite branch_entries.
  set (entries := map _ (Summary.findActiveBranches db)).
  unfold Summary.getCompanyDailySummaryAllBranches.
  cbn [snd o_totalEarnings o_companyShare o_workerShare o_cash o_transfer
       o_totalJobs o_totalItemsWashed].
  change (map _ (Summary.findActiveBranches db)) with entries.
  unfold round2, sumF, sumZ.
  repeat split.
  - rewrite (fold_left_proj _
               (fun s (e : Branch * BranchSummary) =>
                  (s + t_totalEarnings (bs_summary e.2))%float)
               o_totalEarnings) by done.
    by rewrite fold_add_map.
  - rewrite (fold_left_proj _
               (fun s (e : Branch * BranchSummary) =>
                  (s + t_companyShare (bs_summary e.2))%float)
               o_companyShare) by done.
    by rewrite fold_add_map.
  - rewrite (fold_left_proj _
               (fun s (e : Branch * BranchSummary) =>
                  (s + t_workerShare (bs_summary e.2))%float)
               o_workerShare) by done.
    by rewrite fold_add_map.
  - rewrite (fold_left_proj _
               (fun s (e : Branch * BranchSummary) =>
                  (s + pm_cash (bs_paymentMethods e.2))%float)
               o_cash) by done.
    by rewrite fold_add_map.
  - rewrite (fold_left_proj _
               (fun s (e : Branch * BranchSummary) =>
                  (s + pm_transfer (bs_paymentMethods e.2))%float)
               o_transfer) by done.
    by rewrite fold_add_map.
  - rewrite (fold_left_proj _
               (fun s (e : Branch * BranchSummary) =>
                  s + t_totalJobs (bs_summary e.2))
               o_totalJobs) by done.
    by rewrite fold_Zadd_map.
  - rewrite (fold_left_proj _
               (fun s (e : Branch * BranchSummary) =>
                  s + t_totalItemsWashed (bs_summary e.2))
               o_totalItemsWashed) by done.
    by rewrite fold_Zadd_map.
Qed.

(** C8, as stated, fails.  With a line priced 0.125 in each of two
    branches, each branch reports 0.13 and the overall total is 0.26;
    rounding the sum of the unrounded branch totals once gives 0.25. *)
Lemma C8_overall_total_rounded_twice :
  PrimFloat.eqb
    (o_totalEarnings
       (Summary.getCompanyDailySummaryAllBranches Ex.env None Ex.dbTwoBranches).2)
    (round2
       (sumF
          (map (fun br =>
                  sumF (map priceUsed
                          (linesOfDay Ex.env (b_id br) None Ex.dbTwoBranches)))
               (Summary.findActiveBranches Ex.dbTwoBranches))))
  = false
  /\ o_totalEarnings
       (Summary.getCompanyDailySummaryAllBranches Ex.env None Ex.dbTwoBranches).2
     = 0x1.0a3d70a3d70a4p-2%float
  /\ round2
       (sumF
          (map (fun br =>
                  sumF (map priceUsed
                          (linesOfDay Ex.env (b_id br) None Ex.dbTwoBranches)))
               (Summary.findActiveBranches Ex.dbTwoBranches)))
     = 0.25%float
  /\ map (fun e : Branch * BranchSummary =>
            (b_name e.1, t_totalEarnings (bs_summary e.2)))
         (Summary.getCompanyDailySummaryAllBranches Ex.env None
            Ex.dbTwoBranches).1
     = [ ("Branch A", 0x1.0a3d70a3d70a4p-3%float);
         ("Branch B", 0x1.0a3d70a3d70a4p-3%float) ].
Proof. repeat split; vm_compute; reflexivity. Qed.

(** C8, amended.  The all-branches summary lists the active branches in
    ascending order of name; the entry of a branch is the summary the
    single-branch report gives for it, each of its amounts rounded to two
    decimals once.  Each overall amount is the sum of the amounts the
    branches report, that is of amounts already rounded, rounded once
    more; the overall counts are the sums of the counts. *)
Theorem C8_all_branches_summary (env : Env) (date : option Z) (db : Store) :
  let entries := (Summary.getCompanyDailySummaryAllBranches env date db).1 in
  let overall := (Summary.getCompanyDailySummaryAllBranches env date db).2 in
  let reported (f : BranchSummary -> float) :=
    round2 (sumF (map (fun e : Branch * BranchSummary => f e.2) entries)) in
  (Sorted Summary.nameLe (map fst entries)
   /\ map fst entries ≡ₚ List.filter b_isActive (branches db)
   /\ (forall br, br ∈ map fst entries <-> br ∈ branches db /\ b_isActive br = true))
  /\ Forall
       (fun e : Branch * BranchSummary =>
          e.2 = Summary.getCompanyDailySummary env (b_id e.1) date db)
       entries
  /\ (o_totalEarnings overall = reported (fun s => t_totalEarnings (bs_summary s))
      /\ o_companyShare overall = reported (fun s => t_companyShare (bs_summary s))
      /\ o_workerShare overall = reported (fun s => t_workerShare (bs_summary s))
      /\ o_cash overall = reported (fun s => pm_cash (bs_paymentMethods s))
      /\ o_transfer overall
         = reported (fun s => pm_transfer (bs_paymentMethods s))
      /\ o_totalJobs overall
         = sumZ (map (fun e : Branch * BranchSummary =>
                        t_totalJobs (bs_summary e.2)) entries)
      /\ o_totalItemsWashed overall
         = sumZ (map (fun e : Branch * BranchSummary =>
                        t_totalItemsWashed (bs_summary e.2)) entries)).
Proof.
  cbv zeta. split; [|split; [|apply overall_totals]].
  - rewrite branch_entries, map_map. simpl. rewrite map_id.
    unfold Summary.findActiveBranches.
    split; [apply Sorted_merge_sort, _|].
    split; [apply merge_sort_Permutation|].
    intros br. rewrite merge_sort_Permutation.
    by rewrite list_elem_of_In, filter_In, <- list_elem_of_In.
  - rewrite branch_entries. apply Forall_forall. intros e He.
    apply list_elem_of_fmap in He as (br & -> & _). done.
Qed.

Lemma C8_all_branches_summary_witness :
  o_totalEarnings
    (Summary.getCompanyDailySummaryAllBranches Ex.env None Ex.dbTwoBranches).2
  = round2
      (sumF
         (map (fun e : Branch * BranchSummary => t_totalEarnings (bs_summary e.2))
              (Summary.getCompanyDailySummaryAllBranches Ex.env None
                 Ex.dbTwoBranches).1))
  /\ (mkBranch "branch_a" "Branch A" "A" None true
      ∈ map fst
          (Summary.getCompanyDailySummaryAllBranches Ex.env None
             Ex.dbTwoBranches).1).
Proof.
  destruct (C8_all_branches_summary Ex.env None Ex.dbTwoBranches)
    as ((_ & _ & Hact) & _ & Htot & _).
  split; [exact Htot|].
  apply Hact. split; [|reflexivity].
  apply elem_of_cons. right. apply elem_of_cons. by left.
Defined.

(** ** The price a summary uses *)








(** * Further properties of the ingestion *)

Lemma filter_nil_inv {A} (p : A -> bool) (l : list A) :
  List.filter p l = [] <-> forall x, x ∈ l -> p x = false.
Proof.
  induction l as [|a l IH]; simpl.
  - split; [|done]. intros _ x Hx. by apply elem_of_nil in Hx.
  - destruct (p a) eqn:E.
    + split; [discriminate|]. intros H.
      rewrite H in E by (apply elem_of_cons; by left). discriminate.
    + rewrite IH. split.
      * intros H x [->|Hx]%elem_of_cons; auto.
      * intros H x Hx. apply H, elem_of_cons. by right.
Qed.

Lemma serviceItemMapOf_Some (db : Store) (its : list ItemReq) (name : string)
    (d : string * float) :
  serviceItemMapOf db its !! name = Some d ->
  exists s, ActiveService db name s /\ d = (s_id s, s_price s).
Proof.
  intros H. apply fromEntries_Some, list_elem_of_fmap in H as (s & E & Hs).
  injection E as E1 E2. exists s. split; [|by subst].
  unfold Ingestion.findServiceItems in Hs.
  apply list_elem_of_In, filter_In in Hs as [Hin Hs].
  apply andb_true_iff in Hs as [_ Ha].
  by split; [apply list_elem_of_In|].
Qed.

Lemma serviceItemMapOf_None (db : Store) (its : list ItemReq) (name : string) :
  name ∈ map serviceItemName its ->
  serviceItemMapOf db its !! name = None ->
  forall s, ~ ActiveService db name s.
Proof.
  intros Hname H s (Hin & Ha & Hn).
  apply fromEntries_None in H. destruct H.
  rewrite <- list_fmap_compose. apply list_elem_of_fmap.
  exists s. split; [by simpl|].
  unfold Ingestion.findServiceItems.
  apply list_elem_of_In, filter_In. split; [by apply list_elem_of_In|].
  rewrite Ha, andb_true_r. apply arrayIncludes_spec, elem_of_uniq.
  by rewrite Hn.
Qed.

Lemma same_name_same_item (db : Store) (s1 s2 : ServiceItem) :
  NoDup (map s_name (serviceItems db)) ->
  s1 ∈ serviceItems db -> s2 ∈ serviceItems db ->
  s_name s1 = s_name s2 -> s1 = s2.
Proof.
  generalize (serviceItems db). intros l Hnd H1 H2 Hn.
  induction l as [|s l IH]; [by apply elem_of_nil in H1|].
  simpl in Hnd. apply NoDup_cons in Hnd as [Hs Hnd].
  apply elem_of_cons in H1 as [->|H1]; apply elem_of_cons in H2 as [->|H2].
  - done.
  - destruct Hs. rewrite Hn. apply list_elem_of_fmap. by exists s2.
  - destruct Hs. rewrite <- Hn. apply list_elem_of_fmap. by exists s1.
  - by apply IH.
Qed.

Lemma serviceItemMapOf_lookup (db : Store) (its : list ItemReq)
    (s : ServiceItem) :
  NoDup (map s_name (serviceItems db)) ->
  s_name s ∈ map serviceItemName its ->
  ActiveService db (s_name s) s ->
  serviceItemMapOf db its !! s_name s = Some (s_id s, s_price s).
Proof.
  intros Hnd Hname Hs.
  destruct (serviceItemMapOf db its !! s_name s) as [d|] eqn:E.
  - apply serviceItemMapOf_Some in E as (s' & (Hin' & _ & Hn') & ->).
    destruct Hs as (Hin & _).
    by rewrite (same_name_same_item db s' s Hnd Hin' Hin Hn').
  - by destruct (serviceItemMapOf_None db its _ Hname E s).
Qed.

Lemma customPriceMissing_false (item : ItemReq) :
  Ingestion.customPriceMissing item = Some false
  <-> customPriceGiven (customPrice item).
Proof.
  unfold Ingestion.customPriceMissing, customPriceGiven.
  destruct (JS.truthy (customPrice item)); simpl.
  - split; [by intros -> | by intros [_ ->]].
  - split; [discriminate | by intros [? _]].
Qed.

(** A custom price that passes can be read as a price. *)
Lemma customPriceGiven_parsed (v : JS.value) :
  customPriceGiven v -> is_Some (JS.parseFloat v).
Proof.
  intros [_ H]. unfold JS.leZero, JS.toNumber in H.
  destruct v as [| | | | |[s|]]; cbn in H |- *;
    first [discriminate | by eexists].
Qed.

(** The loop over the lines finds nothing missing exactly when every line
    finds something under the name of its service item and, where what it
    finds is an entry with list price 0, has a custom price that passes. *)
Lemma itemsWithMissingPrices_nil (m : gmap string (string * float))
    (its : list ItemReq) :
  Ingestion.itemsWithMissingPrices m its = Some []
  <-> Forall
        (fun item =>
           match JS.get m (serviceItemName item) with
           | JS.Own d =>
               PrimFloat.eqb d.2 0 = true -> customPriceGiven (customPrice item)
           | JS.Inherited => True
           | JS.Absent => False
           end)
        its.
Proof.
  induction its as [|item its IH]; cbn [Ingestion.itemsWithMissingPrices].
  - split; [constructor | done].
  - rewrite Forall_cons, <- IH. clear IH.
    destruct (JS.get m (serviceItemName item)) as [d| |].
    + pose proof (customPriceMissing_false item) as Hc.
      destruct (PrimFloat.eqb d.2 0) eqn:E0.
      * destruct (Ingestion.customPriceMissing item) as [[|]|].
        -- split.
           ++ destruct (Ingestion.itemsWithMissingPrices m its); discriminate.
           ++ intros [H _]. apply Hc in H; [discriminate | done].
        -- split.
           ++ destruct (Ingestion.itemsWithMissingPrices m its) as [names|];
                [|discriminate].
              intros ->. split; [|done]. intros _. by apply Hc.
           ++ by intros [_ ->].
        -- split; [discriminate|].
           intros [H _]. apply Hc in H; [discriminate | done].
      * split; [by intros -> | by intros [_ ->]].
    + tauto.
    + split; [discriminate | tauto].
Qed.


(** A 201 answer means that every check passed. *)
Lemma createCarWashRecord_Created_checks (env : Env) (b : string) (body : Body)
    (db db' : Store) (cw : CarWash) (lines : list WashedItem) :
  Ingestion.createCarWashRecord env b body db = (Created cw lines, db') ->
  exists its itemsWithIds,
    items body = Some its /\ its <> []
    /\ paymentMethodOk body
    /\ ((exists item, item ∈ its /\ Special (serviceItemName item)) ->
        exists w, IdowuOf db b w)
    /\ List.filter (Ingestion.noWasher (washerMapOf db b its))
                   (JS.uniq (map washerName its)) = []
    /\ List.filter (Ingestion.noServiceItem (serviceItemMapOf db its))
                   (JS.uniq (map serviceItemName its)) = []
    /\ Ingestion.itemsWithMissingPrices (serviceItemMapOf db its) its = Some []
    /\ mapM (Ingestion.toItemWithIds (Ingestion.findIdowu db b)
               (washerMapOf db b its) (serviceItemMapOf db its)) its
       = Some itemsWithIds
    /\ Ingestion.transaction env b body itemsWithIds
         (sumF (map price itemsWithIds))
         (JS.uniq (map washerId itemsWithIds)) db
       = Some (cw, lines, db').
Proof.
  unfold Ingestion.createCarWashRecord. intros H.
  destruct (items body) as [[|it0 its]|]; [discriminate| |discriminate].
  exists (it0 :: its).
  fold (washerMapOf db b (it0 :: its)) in H.
  fold (serviceItemMapOf db (it0 :: its)) in H.
  pose proof (paymentMethod_check body) as Hpm.
  pose proof (idowu_check db b (it0 :: its)) as Hid.
  destruct (match paymentMethod body with Some _ => _ | None => _ end);
    [discriminate|].
  destruct (existsb _ (it0 :: its) && _); [discriminate|].
  destruct (negb (length (List.filter (Ingestion.noWasher _) _) =? 0)%nat)
    eqn:Hw; [discriminate|].
  destruct (negb (length (List.filter (Ingestion.noServiceItem _) _) =? 0)%nat)
    eqn:Hs; [discriminate|].
  apply nonempty_check_false in Hw, Hs.
  destruct (Ingestion.itemsWithMissingPrices _ _) as [names|] eqn:Hp;
    [|discriminate].
  destruct (negb (length names =? 0)%nat) eqn:Hn; [discriminate|].
  apply nonempty_check_false in Hn. subst names.
  destruct (mapM _ (it0 :: its)) as [iwis|] eqn:Hm; [|discriminate].
  exists iwis.
  destruct (Ingestion.transaction _ _ _ _ _ _ _) as [[[cw0 lines0] db0]|]
    eqn:Htx; [|discriminate].
  injection H as <- <- <-.
  repeat split; try done. by apply Hpm. by apply Hid.
Qed.

Lemma inheritedName_spec (name : string) :
  JS.inheritedName name = true <-> InheritedName name.
Proof. apply arrayIncludes_spec. Qed.

Lemma mapM_Some_elem {A B} (f : A -> option B) (l : list A) (k : list B)
    (x : A) :
  mapM f l = Some k -> x ∈ l -> exists y, y ∈ k /\ f x = Some y.
Proof.
  intros H Hin. apply mapM_Some in H.
  apply list_elem_of_lookup in Hin as [i Hi].
  destruct (Forall2_lookup_l _ _ _ i x H Hi) as (y & Hy & Hf).
  exists y. split; [|done]. apply list_elem_of_lookup. by exists i.
Qed.

(** X3.  A submission that is answered with a 201 is acceptable: it has
    lines, its payment method is absent, empty, cash or transfer, the
    branch has an active Idowu when a line is special, every line bears
    the name of an active washer of the branch (or, on a special line, a
    property name every object inherits, which the dictionary of washers
    answers for), every item name is that of an active service item, and
    every line of an item with list price 0 carries a custom price that
    is truthy and not zero or below. *)
Theorem accepted_only_if_acceptable
    (env : Env) (b : string) (body : Body) (db db' : Store)
    (cw : CarWash) (lines : list WashedItem) :
  Ingestion.createCarWashRecord env b body db = (Created cw lines, db') ->
  Acceptable db b body.
Proof.
  intros H.
  apply createCarWashRecord_Created_checks in H
    as (its & iwis & Hits & Hne & Hpm & Hid & Hw & Hs & Hp & Hm & _).
  exists its. repeat split; try done.
  - intros item Hin.
    destruct (mapM_Some_elem _ _ _ item Hm Hin) as (iwi & _ & Hi).
    apply toItemWithIds_Some in Hi as (data & _ & _ & _ & Hwash).
    assert (washerName item ∈ JS.uniq (map washerName its)) as Hname.
    { apply elem_of_uniq, list_elem_of_fmap. eauto. }
    assert (is_Some (washerMapOf db b its !! washerName item) ->
            exists w, ActiveWasher db b (washerName item) w) as Hact.
    { intros Hsome. apply hasActiveWasher_spec.
      by apply (washerMapOf_is_Some db b its). }
    destruct (RecordController.isSpecialItem (serviceItemName item)) eqn:Esp.
    + rewrite filter_nil_inv in Hw. specialize (Hw _ Hname).
      unfold Ingestion.noWasher, JS.get in Hw.
      destruct (washerMapOf db b its !! washerName item) as [id|] eqn:E.
      * left. apply Hact. by eexists.
      * destruct (JS.inheritedName (washerName item)) eqn:Ei; [|done].
        right. split; [by apply inheritedName_spec|].
        by apply isSpecialItem_spec.
    + left. apply Hact. by eexists.
  - intros item Hin.
    destruct (mapM_Some_elem _ _ _ item Hm Hin) as (iwi & _ & Hi).
    apply toItemWithIds_Some in Hi as (data & Hd & _).
    apply itemsWithMissingPrices_nil in Hp.
    rewrite Forall_forall in Hp. specialize (Hp item Hin).
    rewrite (proj2 (get_Own _ _ _) Hd) in Hp.
    apply serviceItemMapOf_Some in Hd as (s & Hs' & ->).
    exists s. by split.
Qed.
Lemma accepted_only_if_acceptable_witness :
  Acceptable Ex.db "branch_a"
    (Ex.submit [Ex.line "constructor" "Engine Wash"; Ex.line "Sam" "Full Wash"]).
Proof.
  apply (accepted_only_if_acceptable Ex.env "branch_a" _ Ex.db
           (Ex.after [Ex.line "constructor" "Engine Wash";
                      Ex.line "Sam" "Full Wash"])
           (Ex.job 350 ["w-idowu"; "w-sam"])
           [ mkWashedItem "line-0" "job-1" "w-idowu" "s-engine" (Some 300%float);
             mkWashedItem "line-1" "job-1" "w-sam" "s-full" (Some 50%float) ]).
  vm_compute. reflexivity.
Defined.

Lemma transaction_store (env : Env) (b : string) (body : Body)
    (iwis : list ItemWithIds) (total : float) (all : list string)
    (db db' : Store) (cw : CarWash) (lines : list WashedItem) :
  Ingestion.transaction env b body iwis total all db = Some (cw, lines, db') ->
  branches db' = branches db /\ washers db' = washers db
  /\ serviceItems db' = serviceItems db
  /\ cw = {| cw_id := newCarWashId env; cw_branchId := b;
             cw_carNumber := carNumber body; cw_carModel := carModel body;
             cw_customerName := customerName body;
             cw_customerPhone := customerPhone body;
             cw_paymentMethod := paymentMethod body;
             cw_totalAmount := total; cw_washDate := now env;
             cw_washers := all |}
  /\ lines
     = imap (fun i item =>
               {| wi_id := newItemId env i; wi_carWashId := newCarWashId env;
                  wi_washerId := washerId item;
                  wi_serviceItemId := serviceItemId item;
                  wi_price := Some (price item) |})
            iwis
  /\ companyDailySummaries db'
     = upsert (b, startOfDay env (now env))
         (fun row =>
            {| cds_totalCarsWashed := cds_totalCarsWashed row + 1;
               cds_totalItemsWashed :=
                 cds_totalItemsWashed row + Z.of_nat (length iwis) |})
         {| cds_totalCarsWashed := 1;
            cds_totalItemsWashed := Z.of_nat (length iwis) |}
         (companyDailySummaries db)
  /\ dailySummaries db'
     = Ingestion.updatedDailySummaries b (startOfDay env (now env))
         (Ingestion.washerCarInvolvement
            {| branches := branches db; washers := washers db;
               serviceItems := serviceItems db;
               carWashes := carWashes db ++ [cw];
               washedItems := washedItems db ++ lines;
               dailySummaries := dailySummaries db;
               companyDailySummaries := companyDailySummaries db |}
            b (startOfDay env (now env)) cw all)
         (Ingestion.washerItemCounts iwis) all (dailySummaries db).
Proof.
  unfold Ingestion.transaction. intros H.
  destruct (Ingestion.updateDailySummaries _ _ _ _ _ _) as [summaries|] eqn:Hd;
    [|discriminate].
  destruct (upsertChecked _ _ _ _ _) as [company|] eqn:Hc; [|discriminate].
  apply updateDailySummaries_Some in Hd. apply upsertChecked_Some in Hc.
  injection H as Hcw Hlines Hdb.
  rewrite <- Hdb, <- Hlines, <- Hcw. simpl in *. by subst.
Qed.

(** X4.  A 201 appends one job and one line per submitted line, in
    order, and touches nothing else of the raw data: the jobs and lines
    there were are kept as they are, and the branch, washer and
    service-item tables are unchanged.  The job carries the fields of the
    request, the caller's branch and the current time; every new line
    points to it; and it is linked to exactly the washers credited on its
    lines, each once. *)
Theorem accepted_job_is_appended
    (env : Env) (b : string) (body : Body) (db db' : Store)
    (cw : CarWash) (lines : list WashedItem) :
  Ingestion.createCarWashRecord env b body db = (Created cw lines, db') ->
  (branches db' = branches db /\ washers db' = washers db
   /\ serviceItems db' = serviceItems db
   /\ carWashes db' = (carWashes db ++ [cw])%list
   /\ washedItems db' = (washedItems db ++ lines)%list)
  /\ (cw_id cw = newCarWashId env /\ cw_branchId cw = b
      /\ cw_washDate cw = now env
      /\ cw_paymentMethod cw = paymentMethod body
      /\ cw_carNumber cw = carNumber body /\ cw_carModel cw = carModel body
      /\ cw_customerName cw = customerName body
      /\ cw_customerPhone cw = customerPhone body)
  /\ (exists its, items body = Some its /\ length lines = length its)
  /\ (forall i line, lines !! i = Some line ->
      wi_id line = newItemId env i /\ wi_carWashId line = cw_id cw)
  /\ (NoDup (cw_washers cw)
      /\ forall w, w ∈ cw_washers cw <-> w ∈ wi_washerId <$> lines).
Proof.
  intros H.
  apply createCarWashRecord_Created in H as (its & iwis & Hits & Hmap & Htx).
  pose proof (transaction_lines _ _ _ _ _ _ _ _ _ _ Htx)
    as (Hids & Hwi & Hcws & _).
  apply transaction_store in Htx as (Hb & Hw & Hs & -> & -> & _).
  split; [done|]. split; [done|]. split; [|split].
  - exists its. split; [done|]. rewrite length_imap.
    symmetry. by eapply length_mapM.
  - intros i line Hl. rewrite list_lookup_imap in Hl.
    destruct (iwis !! i); simpl in Hl; by simplify_eq.
  - simpl. split; [apply NoDup_uniq|]. intros w.
    by rewrite elem_of_uniq, Hids.
Qed.

Lemma accepted_job_is_appended_witness :
  cw_id (Ex.job 350 ["w-idowu"; "w-sam"]) = newCarWashId Ex.env
  /\ forall w,
       w ∈ cw_washers (Ex.job 350 ["w-idowu"; "w-sam"])
       <-> w ∈ wi_washerId <$>
             [ mkWashedItem "line-0" "job-1" "w-idowu" "s-engine" (Some 300%float);
               mkWashedItem "line-1" "job-1" "w-sam" "s-full" (Some 50%float) ].
Proof.
  destruct (accepted_job_is_appended Ex.env "branch_a"
              (Ex.submit [Ex.line "Sam" "Engine Wash"; Ex.line "Sam" "Full Wash"])
              Ex.db
              (Ex.after [Ex.line "Sam" "Engine Wash"; Ex.line "Sam" "Full Wash"])
              (Ex.job 350 ["w-idowu"; "w-sam"])
              [ mkWashedItem "line-0" "job-1" "w-idowu" "s-engine" (Some 300%float);
                mkWashedItem "line-1" "job-1" "w-sam" "s-full" (Some 50%float) ])
    as (_ & (Hid & _) & _ & _ & _ & Hlinks).
  - vm_compute. reflexivity.
  - split; [exact Hid | exact Hlinks].
Defined.

Lemma Forall2_with_Forall_l {A B} (Q : A -> Prop) (P : A -> B -> Prop)
    (l : list A) (k : list B) :
  Forall Q l -> Forall2 P l k -> Forall2 (fun x y => Q x /\ P x y) l k.
Proof.
  intros HQ HP. induction HP as [|x y l k HP1 HP IH]; [constructor|].
  apply Forall_cons in HQ as [? ?]. constructor; auto.
Qed.

(** What is stored for a custom price that is a number: the number. *)
Lemma parseFloat_number (c : float) :
  customPriceGiven (JS.VNumber c) -> JS.parseFloat (JS.VNumber c) = Some c.
Proof.
  intros [Ht _]. simpl in *. unfold JS.truthyNum in Ht.
  by destruct (PrimFloat.eqb c 0).
Qed.

(** Line by line, the service item and the price a 201 stores. *)
Lemma accepted_lines_by_item
    (env : Env) (b : string) (body : Body) (db db' : Store)
    (cw : CarWash) (lines : list WashedItem) :
  Ingestion.createCarWashRecord env b body db = (Created cw lines, db') ->
  exists its,
    items body = Some its
    /\ Forall2
         (fun item line =>
            exists s,
              ActiveService db (serviceItemName item) s
              /\ wi_serviceItemId line = s_id s
              /\ (PrimFloat.eqb (s_price s) 0 = false ->
                  wi_price line = Some (s_price s))
              /\ (PrimFloat.eqb (s_price s) 0 = true ->
                  customPriceGiven (customPrice item)
                  /\ exists p, JS.parseFloat (customPrice item) = Some p
                               /\ wi_price line = Some p))
         its lines.
Proof.
  intros H.
  apply createCarWashRecord_Created_checks in H
    as (its & iwis & Hits & _ & _ & _ & _ & _ & Hp & Hmap & Htx).
  apply transaction_store in Htx as (_ & _ & _ & -> & -> & _).
  exists its. split; [done|].
  apply itemsWithMissingPrices_nil in Hp.
  apply mapM_Some in Hmap.
  assert (Forall2
            (fun item iwi =>
               exists s,
                 ActiveService db (serviceItemName item) s
                 /\ serviceItemId iwi = s_id s
                 /\ (PrimFloat.eqb (s_price s) 0 = false ->
                     Some (price iwi) = Some (s_price s))
                 /\ (PrimFloat.eqb (s_price s) 0 = true ->
                     customPriceGiven (customPrice item)
                     /\ exists p, JS.parseFloat (customPrice item) = Some p
                                  /\ Some (price iwi) = Some p))
            its iwis) as HF.
  { eapply Forall2_impl; [exact (Forall2_with_Forall_l _ _ _ _ Hp Hmap)|].
    intros item iwi [Hprice Hto]. simpl in Hto.
    apply toItemWithIds_Some in Hto as (d & Hd & Hid & Hpr & _).
    rewrite (proj2 (get_Own _ _ _) Hd) in Hprice.
    apply serviceItemMapOf_Some in Hd as (s & Hs & ->). simpl in *.
    exists s. split; [done|]. split; [done|]. split.
    - intros E. rewrite E in Hpr. simpl in Hpr. by rewrite Hpr.
    - intros E. specialize (Hprice E). split; [done|].
      rewrite E in Hpr. destruct Hprice as [Ht Hle]. rewrite Ht in Hpr.
      simpl in Hpr. eauto. }
  apply (Forall2_fmap_r
           (fun line => (wi_serviceItemId line, wi_price line))
           (fun item (p : string * option float) =>
              exists s,
                ActiveService db (serviceItemName item) s
                /\ p.1 = s_id s
                /\ (PrimFloat.eqb (s_price s) 0 = false ->
                    p.2 = Some (s_price s))
                /\ (PrimFloat.eqb (s_price s) 0 = true ->
                    customPriceGiven (customPrice item)
                    /\ exists q, JS.parseFloat (customPrice item) = Some q
                                 /\ p.2 = Some q))).
  rewrite fmap_imap. simpl.
  rewrite (imap_const (fun item => (serviceItemId item, Some (price item)))).
  by apply Forall2_fmap_r.
Qed.

(** X5.  Line by line, a 201 stores the identifier of an active service
    item bearing the submitted name, with its list price when that is not
    0; when the list price is 0, the line's custom price is truthy and,
    converted to a number, not zero or below, and what is stored is what
    [parseFloat] reads in it: the number itself when it is a number, but
    [NaN] for the string "abc" and 0 for the string "0x10", which both
    pass.  The job's total amount is the sum of the prices stored with
    its lines. *)
Theorem accepted_lines_are_priced
    (env : Env) (b : string) (body : Body) (db db' : Store)
    (cw : CarWash) (lines : list WashedItem) :
  Ingestion.createCarWashRecord env b body db = (Created cw lines, db') ->
  exists its prices,
    items body = Some its
    /\ wi_price <$> lines = Some <$> prices
    /\ cw_totalAmount cw = sumF prices
    /\ Forall2
         (fun item line =>
            exists s,
              ActiveService db (serviceItemName item) s
              /\ wi_serviceItemId line = s_id s
              /\ (PrimFloat.eqb (s_price s) 0 = false ->
                  wi_price line = Some (s_price s))
              /\ (PrimFloat.eqb (s_price s) 0 = true ->
                  customPriceGiven (customPrice item)
                  /\ (exists p, JS.parseFloat (customPrice item) = Some p
                                /\ wi_price line = Some p)
                  /\ (forall c, customPrice item = JS.VNumber c ->
                                wi_price line = Some c)))
         its lines.
Proof.
  intros H.
  destruct (accepted_lines_by_item env b body db db' cw lines H)
    as (its & Hits & HF).
  apply createCarWashRecord_Created in H as (its' & iwis & _ & _ & Htx).
  apply transaction_store in Htx as (_ & _ & _ & -> & -> & _).
  exists its, (price <$> iwis). split; [done|].
  split; [|split; [done|]].
  - rewrite fmap_imap. simpl.
    rewrite (imap_const (fun item => Some (price item))).
    by rewrite <- list_fmap_compose.
  - eapply Forall2_impl; [exact HF|].
    intros item line (s & Hs & Hid & Hlist & Hcustom).
    exists s. split; [done|]. split; [done|]. split; [done|].
    intros E. destruct (Hcustom E) as (Hg & p & Hp & Hl).
    split; [done|]. split; [by exists p|].
    intros c Hc. rewrite Hc in Hg, Hp.
    rewrite (parseFloat_number c Hg) in Hp. congruence.
Qed.
Lemma accepted_lines_are_priced_witness :
  exists its prices,
    items (Ex.submit [Ex2.rugLine; mkItemReq "Sam" "Car Rug" (JS.VString "abc")])
    = Some its
    /\ wi_price <$>
         [Ex2.rugStored;
          mkWashedItem "line-1" "job-1" "w-sam" "s-rug" (Some PrimFloat.nan)]
       = Some <$> prices
    /\ cw_totalAmount (Ex.job PrimFloat.nan ["w-sam"]) = sumF prices
    /\ Forall2
         (fun item line =>
            exists s,
              ActiveService Ex.db (serviceItemName item) s
              /\ wi_serviceItemId line = s_id s
              /\ (PrimFloat.eqb (s_price s) 0 = false ->
                  wi_price line = Some (s_price s))
              /\ (PrimFloat.eqb (s_price s) 0 = true ->
                  customPriceGiven (customPrice item)
                  /\ (exists p, JS.parseFloat (customPrice item) = Some p
                                /\ wi_price line = Some p)
                  /\ (forall c, customPrice item = JS.VNumber c ->
                                wi_price line = Some c)))
         its
         [Ex2.rugStored;
          mkWashedItem "line-1" "job-1" "w-sam" "s-rug" (Some PrimFloat.nan)].
Proof.
  apply (accepted_lines_are_priced Ex.env "branch_a"
           (Ex.submit [Ex2.rugLine;
                       mkItemReq "Sam" "Car Rug" (JS.VString "abc")])
           Ex.db
           (Ex.after [Ex2.rugLine;
                      mkItemReq "Sam" "Car Rug" (JS.VString "abc")])).
  vm_compute. reflexivity.
Defined.

(** ** The aggregates after a 201 *)

Lemma updateDailySummaries_other (b : string) (today : Z)
    (inv : gmap string bool) (counts : gmap string Z) (l : list string)
    (key : string * Z * string) :
  (forall w, w ∈ l -> key <> (w, today, b)) ->
  forall table,
    Ingestion.updatedDailySummaries b today inv counts l table !! key
    = table !! key.
Proof.
  unfold Ingestion.updatedDailySummaries.
  induction l as [|x l IH]; intros Hkey table; simpl; [done|].
  rewrite IH.
  - apply upsert_lookup_ne. intros E. symmetry in E. revert E.
    apply Hkey, elem_of_cons. by left.
  - intros w Hw. apply Hkey, elem_of_cons. by right.
Qed.

(** X6.  A 201 counts the job once for the branch: the branch's row of
    the day, created when missing, has its job counter raised by 1 and
    its item counter by the number of lines of the job, and no other row
    of the branch table changes.  In the washer table only the rows of the
    credited washers, for today and this branch, may change. *)
Theorem accepted_job_updates_aggregates
    (env : Env) (b : string) (body : Body) (db db' : Store)
    (cw : CarWash) (lines : list WashedItem) :
  Ingestion.createCarWashRecord env b body db = (Created cw lines, db') ->
  branchJobCounter db' b (startOfDay env (now env))
    = branchJobCounter db b (startOfDay env (now env)) + 1
  /\ branchItemCounter db' b (startOfDay env (now env))
    = branchItemCounter db b (startOfDay env (now env))
      + Z.of_nat (length lines)
  /\ is_Some (companyDailySummaries db' !! (b, startOfDay env (now env)))
  /\ (forall key, key <> (b, startOfDay env (now env)) ->
      companyDailySummaries db' !! key = companyDailySummaries db !! key)
  /\ (forall w day b',
      w ∉ wi_washerId <$> lines \/ day <> startOfDay env (now env) \/ b' <> b ->
      dailySummaries db' !! (w, day, b') = dailySummaries db !! (w, day, b'))
  /\ (forall w, w ∈ wi_washerId <$> lines ->
      is_Some (dailySummaries db' !! (w, startOfDay env (now env), b))).
Proof.
  intros H.
  apply createCarWashRecord_Created in H as (its & iwis & Hits & Hmap & Htx).
  pose proof (transaction_lines _ _ _ _ _ _ _ _ _ _ Htx) as (Hids & _).
  apply transaction_store in Htx as (_ & _ & _ & _ & Hlines & Hc & Hd).
  assert (length lines = length iwis) as Hlen.
  { rewrite Hlines. apply length_imap. }
  unfold branchJobCounter, branchItemCounter. rewrite Hc, Hlen.
  rewrite upsert_lookup_eq.
  split; [|split; [|split; [|split; [|split]]]].
  - destruct (companyDailySummaries db !! _); simpl; lia.
  - destruct (companyDailySummaries db !! _); simpl; lia.
  - by eexists.
  - intros key Hkey. by apply upsert_lookup_ne.
  - intros w day b' Hout. rewrite Hd.
    apply updateDailySummaries_other. intros w' Hw' [= -> -> ->].
    rewrite elem_of_uniq in Hw'. rewrite Hids in Hout.
    destruct Hout as [Hn|[Hn|Hn]]; [|congruence|congruence].
    by destruct Hn.
  - intros w Hw. rewrite Hd.
    rewrite updateDailySummaries_lookup by apply NoDup_uniq.
    rewrite decide_True; [by eexists|].
    rewrite elem_of_uniq. by rewrite Hids in Hw.
Qed.

Lemma accepted_job_updates_aggregates_witness :
  branchJobCounter
    (Ex.after [Ex.line "Sam" "Full Wash"; Ex.line "Sam" "Full Wash"])
    "branch_a" (startOfDay Ex.env (now Ex.env))
  = branchJobCounter Ex.db "branch_a" (startOfDay Ex.env (now Ex.env)) + 1.
Proof.
  apply (accepted_job_updates_aggregates Ex.env "branch_a"
           (Ex.submit [Ex.line "Sam" "Full Wash"; Ex.line "Sam" "Full Wash"])
           Ex.db _ (Ex.job 100 ["w-sam"])
           [ mkWashedItem "line-0" "job-1" "w-sam" "s-full" (Some 50%float);
             mkWashedItem "line-1" "job-1" "w-sam" "s-full" (Some 50%float) ]).
  vm_compute. reflexivity.
Defined.

(** * Ingestion and the read side *)

Lemma find_app {A} (p : A -> bool) (l1 l2 : list A) :
  List.find p (l1 ++ l2)
  = match List.find p l1 with
    | Some x => Some x
    | None => List.find p l2
    end.
Proof.
  induction l1 as [|x l1 IH]; simpl; [done|]. by destruct (p x).
Qed.

Lemma find_none_fresh {A} (f : A -> string) (id : string) (l : list A) :
  id ∉ (f <$> l) -> List.find (fun x => String.eqb (f x) id) l = None.
Proof.
  intros Hid. destruct (List.find _ l) as [x|] eqn:E; [|done].
  apply find_some in E as [Hin E]. apply String.eqb_eq in E.
  destruct Hid. apply list_elem_of_fmap. exists x.
  by rewrite <- list_elem_of_In in Hin.
Qed.

Lemma find_is_Some {A} (p : A -> bool) (l : list A) (x : A) :
  x ∈ l -> p x = true -> is_Some (List.find p l).
Proof.
  intros Hin Hp. destruct (List.find p l) eqn:E; [by eexists|].
  apply list_elem_of_In in Hin.
  by rewrite (find_none _ _ E x Hin) in Hp.
Qed.

Lemma omap_Forall2 {A B} (f : A -> option B) (P : A -> B -> Prop) (l : list A) :
  (forall x, x ∈ l -> exists y, f x = Some y /\ P x y) ->
  Forall2 P l (omap f l).
Proof.
  induction l as [|x l IH]; intros H; csimpl; [constructor|].
  destruct (H x) as (y & Hy & HP); [apply elem_of_cons; by left|].
  rewrite Hy. constructor; [done|].
  apply IH. intros x' Hx'. apply H, elem_of_cons. by right.
Qed.

Lemma omap_none {A B} (f : A -> option B) (l : list A) :
  (forall x, x ∈ l -> f x = None) -> omap f l = [].
Proof.
  induction l as [|x l IH]; intros H; csimpl; [done|].
  rewrite H by (apply elem_of_cons; by left).
  apply IH. intros x' Hx'. apply H, elem_of_cons. by right.
Qed.

Lemma omap_ext_in {A B} (f g : A -> option B) (l : list A) :
  (forall x, x ∈ l -> f x = g x) -> omap f l = omap g l.
Proof.
  induction l as [|x l IH]; intros H; csimpl; [done|].
  rewrite H by (apply elem_of_cons; by left).
  rewrite IH; [done|]. intros x' Hx'. apply H, elem_of_cons. by right.
Qed.

(** What a 201 leaves in the raw tables, for the proofs below. *)
Lemma accepted_raw_tables (env : Env) (b : string) (body : Body)
    (db db' : Store) (cw : CarWash) (lines : list WashedItem) :
  Ingestion.createCarWashRecord env b body db = (Created cw lines, db') ->
  branches db' = branches db /\ washers db' = washers db
  /\ serviceItems db' = serviceItems db
  /\ carWashes db' = (carWashes db ++ [cw])%list
  /\ washedItems db' = (washedItems db ++ lines)%list
  /\ cw_id cw = newCarWashId env /\ cw_branchId cw = b
  /\ cw_washDate cw = now env
  /\ Forall (fun line =>
               wi_carWashId line = newCarWashId env
               /\ exists s, s ∈ serviceItems db
                            /\ wi_serviceItemId line = s_id s)
            lines.
Proof.
  intros H.
  apply createCarWashRecord_Created in H as (its & iwis & Hits & Hmap & Htx).
  pose proof (transaction_lines _ _ _ _ _ _ _ _ _ _ Htx)
    as (_ & Hwi & Hcws & _).
  apply transaction_store in Htx as (Hb & Hw & Hs & -> & -> & _).
  repeat split; try done.
  apply Forall_forall. intros line Hline.
  apply list_elem_of_lookup in Hline as [i Hi].
  rewrite list_lookup_imap in Hi.
  destruct (iwis !! i) as [iwi|] eqn:Hiwi; [|done].
  injection Hi as <-. simpl. split; [done|].
  apply mapM_Some in Hmap.
  destruct (Forall2_lookup_r _ _ _ _ _ Hmap Hiwi) as (item & _ & Hto).
  apply toItemWithIds_Some in Hto as (d & Hd & Hid & _).
  apply serviceItemMapOf_Some in Hd as (s & (Hin & _) & ->).
  eauto.
Qed.

(** The queries of another branch do not see the new job. *)
Lemma other_branch_queries (env : Env) (b b' : string) (body : Body)
    (db db' : Store) (cw : CarWash) (lines : list WashedItem) (from to : Z) :
  Ingestion.createCarWashRecord env b' body db = (Created cw lines, db') ->
  (newCarWashId env ∉ cw_id <$> carWashes db) ->
  b <> b' ->
  findCarWashes db' b from to = findCarWashes db b from to
  /\ findWashedItems db' b from to = findWashedItems db b from to.
Proof.
  intros H Hfresh Hb.
  apply accepted_raw_tables in H
    as (_ & Hw & Hs & Hc & Hi & Hid & Hcb & _ & Hlines).
  assert (String.eqb (cw_branchId cw) b = false) as Hne.
  { apply String.eqb_neq. congruence. }
  split.
  - unfold findCarWashes. rewrite Hc, List.filter_app. simpl.
    rewrite Hne. simpl. by rewrite app_nil_r.
  - unfold findWashedItems. rewrite Hw, Hs, Hc, Hi, omap_app.
    rewrite (omap_none _ lines), app_nil_r.
    + apply omap_ext_in. intros wi _. rewrite find_app.
      destruct (List.find _ (carWashes db)); [done|]. simpl.
      destruct (String.eqb (cw_id cw) (wi_carWashId wi)); [|done].
      destruct (List.find _ (serviceItems db)); [|done]. by rewrite Hne.
    + intros line Hline. rewrite Forall_forall in Hlines.
      destruct (Hlines line Hline) as [Hcid _].
      rewrite find_app, Hcid, (find_none_fresh cw_id) by done. simpl.
      rewrite Hid, String.eqb_refl.
      destruct (List.find _ (serviceItems db)); [|done]. by rewrite Hne.
Qed.

(** X7.  Branches are isolated on the read side: a job ingested in one
    branch, under an identifier no job bears yet, changes none of the
    summaries of another branch, for any day. *)
Theorem other_branch_summaries_unchanged
    (env envR : Env) (b b' : string) (body : Body) (db db' : Store)
    (cw : CarWash) (lines : list WashedItem) (date : option Z) :
  Ingestion.createCarWashRecord env b' body db = (Created cw lines, db') ->
  (newCarWashId env ∉ cw_id <$> carWashes db) ->
  b <> b' ->
  Summary.getCompanyDailySummary envR b date db'
    = Summary.getCompanyDailySummary envR b date db
  /\ Payments.getCompanyPaymentSummary envR b date db'
     = Payments.getCompanyPaymentSummary envR b date db
  /\ Payments.getDailyPaymentSummary envR b date db'
     = Payments.getDailyPaymentSummary envR b date db
  /\ (forall w, Payments.getWasherPaymentSummary envR b w date db'
                = Payments.getWasherPaymentSummary envR b w date db).
Proof.
  intros H Hfresh Hb.
  pose proof (fun from to =>
                other_branch_queries env b b' body db db' cw lines from to
                  H Hfresh Hb) as Hq.
  apply accepted_raw_tables in H as (_ & Hw & _).
  unfold Summary.getCompanyDailySummary, Payments.getCompanyPaymentSummary,
    Payments.getDailyPaymentSummary, Payments.getWasherPaymentSummary.
  repeat split; intros; rewrite ?Hw;
    by rewrite ?(proj1 (Hq _ _)), ?(proj2 (Hq _ _)).
Qed.

Lemma other_branch_summaries_unchanged_witness :
  Summary.getCompanyDailySummary Ex.env "branch_a" None Ex2.afterB
  = Summary.getCompanyDailySummary Ex.env "branch_a" None Ex.dbEighth.
Proof.
  apply (other_branch_summaries_unchanged Ex.env Ex.env "branch_a" "branch_b"
           (Ex.submit [Ex2.bolaLine]) Ex.dbEighth Ex2.afterB Ex2.jobB
           [ mkWashedItem "line-0" "job-1" "w-bola" "s-full" (Some 50%float) ]).
  - vm_compute. reflexivity.
  - intros Hin. apply list_elem_of_singleton in Hin. discriminate.
  - discriminate.
Defined.

Lemma today_contains_now (env : Env) :
  startOfDay env (now env) <= now env <= endOfDay env (now env).
Proof.
  unfold endOfDay, startOfDay, msPerDay.
  pose proof (Z.mod_pos_bound (now env + tzOffset env) 86400000). lia.
Qed.

(** The queries of the job's own branch see the new job and its lines,
    after what they saw before. *)
Lemma same_branch_queries (env : Env) (b : string) (body : Body)
    (db db' : Store) (cw : CarWash) (lines : list WashedItem) (from to : Z) :
  Ingestion.createCarWashRecord env b body db = (Created cw lines, db') ->
  FreshJob env db ->
  from <= now env <= to ->
  findCarWashes db' b from to = (findCarWashes db b from to ++ [cw])%list
  /\ exists news,
       findWashedItems db' b from to
       = (findWashedItems db b from to ++ news)%list
       /\ Forall2 (fun line j => j_item j = line /\ j_carWash j = cw) lines news.
Proof.
  intros H [Hfresh Hrefs] [Hfrom Hto].
  apply accepted_raw_tables in H
    as (_ & Hw & Hs & Hc & Hi & Hid & Hcb & Hdate & Hlines).
  apply Z.leb_le in Hfrom, Hto.
  split.
  - unfold findCarWashes. rewrite Hc, List.filter_app. simpl.
    by rewrite Hcb, Hdate, String.eqb_refl, Hfrom, Hto.
  - unfold findWashedItems. rewrite Hw, Hs, Hc, Hi, omap_app.
    eexists. split.
    + f_equal. apply omap_ext_in. intros wi Hwi. rewrite find_app.
      destruct (List.find _ (carWashes db)); [done|]. simpl.
      rewrite Hid.
      assert (String.eqb (newCarWashId env) (wi_carWashId wi) = false) as ->;
        [|done].
      apply String.eqb_neq. intros E. destruct Hrefs.
      apply list_elem_of_fmap. by exists wi.
    + apply omap_Forall2. intros line Hline.
      rewrite Forall_forall in Hlines.
      destruct (Hlines line Hline) as (Hcid & s & Hsin & Hsid).
      rewrite find_app, Hcid, (find_none_fresh cw_id) by done. simpl.
      rewrite Hid, String.eqb_refl.
      destruct (find_is_Some
                  (fun s0 => String.eqb (s_id s0) (wi_serviceItemId line))
                  (serviceItems db) s Hsin) as [s' ->].
      { rewrite Hsid. apply String.eqb_refl. }
      rewrite Hcb, Hdate, String.eqb_refl, Hfrom, Hto. simpl. eauto.
Qed.

Lemma linesOfWasher_new (w : string) (lines : list WashedItem)
    (news : list Joined) :
  Forall2 (fun line j => j_item j = line) lines news ->
  linesOfWasher w news = linesCredited w lines.
Proof.
  unfold linesOfWasher, linesCredited. intros HF. f_equal.
  induction HF as [|line j lines news <- HF IH]; simpl; [done|].
  destruct (String.eqb (wi_washerId (j_item j)) w); simpl; by rewrite IH.
Qed.

(** The item counter of every washer after a 201: raised by the number of
    lines credited to the washer, none for the others. *)
Lemma itemCounter_after (env : Env) (b : string) (body : Body)
    (db db' : Store) (cw : CarWash) (lines : list WashedItem) (w : string) :
  Ingestion.createCarWashRecord env b body db = (Created cw lines, db') ->
  itemCounter db' w (startOfDay env (now env)) b
  = itemCounter db w (startOfDay env (now env)) b + linesCredited w lines.
Proof.
  intros H.
  apply createCarWashRecord_Created in H as (its & iwis & _ & _ & Htx).
  pose proof (transaction_lines _ _ _ _ _ _ _ _ _ _ Htx) as (Hids & _).
  apply transaction_store in Htx as (_ & _ & _ & _ & _ & _ & Hd).
  unfold itemCounter, linesCredited. rewrite Hd.
  assert (length (List.filter (fun l => String.eqb (wi_washerId l) w) lines)
          = length (List.filter (fun item => String.eqb (washerId item) w) iwis))
    as ->.
  { rewrite <- (length_filter_map washerId (fun id => String.eqb id w)).
    rewrite <- (length_filter_map wi_washerId (fun id => String.eqb id w)).
    change (map washerId iwis) with (washerId <$> iwis).
    change (map wi_washerId lines) with (wi_washerId <$> lines).
    by rewrite Hids. }
  rewrite updateDailySummaries_lookup by apply NoDup_uniq.
  destruct (decide (w ∈ JS.uniq (map washerId iwis))) as [Hin|Hnin].
  - cbv zeta. rewrite washerItemCounts_lookup.
    destruct (dailySummaries db !! _); simpl; lia.
  - rewrite elem_of_uniq in Hnin.
    assert (List.filter (fun item => String.eqb (washerId item) w) iwis = [])
      as ->; [|simpl; lia].
    apply filter_nil_inv. intros item Hitem. apply String.eqb_neq.
    intros E. destruct Hnin. apply list_elem_of_fmap. by exists item.
Qed.

(** X8.  After a 201 under a fresh job identifier, what the summary of
    the branch recomputes for today moves as the aggregates do: one job
    more and as many lines more as the job has, and for every washer as
    many lines more as were credited to the washer.  So if the branch's
    aggregate row and a washer's item counter agreed with the
    recomputation before the job, they agree after it. *)
Theorem recomputed_counts_follow_aggregates
    (env : Env) (b : string) (body : Body) (db db' : Store)
    (cw : CarWash) (lines : list WashedItem) :
  Ingestion.createCarWashRecord env b body db = (Created cw lines, db') ->
  FreshJob env db ->
  let today := startOfDay env (now env) in
  let summary db := bs_summary (Summary.getCompanyDailySummary env b None db) in
  (t_totalJobs (summary db') = t_totalJobs (summary db) + 1
   /\ t_totalItemsWashed (summary db')
      = t_totalItemsWashed (summary db) + Z.of_nat (length lines)
   /\ forall w,
        linesOfWasher w (linesOfDay env b None db')
        = linesOfWasher w (linesOfDay env b None db) + linesCredited w lines)
  /\ (branchJobCounter db b today = t_totalJobs (summary db) ->
      branchJobCounter db' b today = t_totalJobs (summary db'))
  /\ (branchItemCounter db b today = t_totalItemsWashed (summary db) ->
      branchItemCounter db' b today = t_totalItemsWashed (summary db'))
  /\ (forall w,
        itemCounter db w today b = linesOfWasher w (linesOfDay env b None db) ->
        itemCounter db' w today b
        = linesOfWasher w (linesOfDay env b None db')).
Proof.
  intros H Hfresh. cbv zeta.
  destruct (same_branch_queries env b body db db' cw lines
              (startOfDay env (now env)) (endOfDay env (now env))
              H Hfresh (today_contains_now env))
    as (Hjobs & news & Hlines & HF).
  assert (length news = length lines) as Hlen.
  { symmetry. by eapply Forall2_length. }
  assert (forall w,
            linesOfWasher w (linesOfDay env b None db')
            = linesOfWasher w (linesOfDay env b None db)
              + linesCredited w lines) as Hper.
  { intros w. unfold linesOfDay. simpl. rewrite Hlines.
    rewrite <- (linesOfWasher_new w lines news).
    - unfold linesOfWasher. rewrite List.filter_app, length_app. lia.
    - eapply Forall2_impl; [exact HF|]. by intros ? ? [? _]. }
  assert (t_totalJobs
            (bs_summary (Summary.getCompanyDailySummary env b None db'))
          = t_totalJobs
              (bs_summary (Summary.getCompanyDailySummary env b None db)) + 1)
    as Hj.
  { unfold Summary.getCompanyDailySummary. simpl.
    rewrite Hjobs, length_app. simpl. lia. }
  assert (t_totalItemsWashed
            (bs_summary (Summary.getCompanyDailySummary env b None db'))
          = t_totalItemsWashed
              (bs_summary (Summary.getCompanyDailySummary env b None db))
            + Z.of_nat (length lines)) as Hn.
  { unfold Summary.getCompanyDailySummary. simpl.
    rewrite Hlines, length_app. lia. }
  split; [done|].
  apply createCarWashRecord_Created in H as Hc.
  destruct Hc as (its & iwis & _ & _ & Htx).
  apply transaction_store in Htx as (_ & _ & _ & _ & Hl & Hc & _).
  assert (length lines = length iwis) as Hlen'.
  { rewrite Hl. apply length_imap. }
  split; [|split].
  - intros E. rewrite Hj, <- E. unfold branchJobCounter.
    rewrite Hc, upsert_lookup_eq.
    destruct (companyDailySummaries db !! _); simpl; lia.
  - intros E. rewrite Hn, <- E. unfold branchItemCounter.
    rewrite Hc, upsert_lookup_eq, Hlen'.
    destruct (companyDailySummaries db !! _); simpl; lia.
  - intros w E.
    rewrite (itemCounter_after env b body db db' cw lines w H), E. by rewrite Hper.
Qed.

Lemma recomputed_counts_follow_aggregates_witness :
  t_totalJobs
    (bs_summary (Summary.getCompanyDailySummary Ex.env "branch_a" None Ex2.afterA))
  = t_totalJobs
      (bs_summary
         (Summary.getCompanyDailySummary Ex.env "branch_a" None Ex.dbEighth))
    + 1.
Proof.
  apply (recomputed_counts_follow_aggregates Ex.env "branch_a"
           (Ex.submit [Ex.line "Sam" "Full Wash"]) Ex.dbEighth Ex2.afterA
           Ex2.jobA [Ex2.lineA]).
  - vm_compute. reflexivity.
  - split; intros Hin; apply list_elem_of_singleton in Hin; discriminate.
Defined.

Lemma fmap_eq_Forall2 {A B C} (f : A -> C) (g : B -> C)
    (l : list A) (k : list B) :
  Forall2 (fun x y => f x = g y) l k -> f <$> l = g <$> k.
Proof.
  induction 1 as [|x y l k E HF IH]; csimpl; [done|]. by rewrite E, IH.
Qed.

(** The lines a 201 stores have prices that are not zero, and are numbers
    when the list prices are and the custom prices are read as such. *)
Lemma accepted_prices_are_truthy
    (env : Env) (b : string) (body : Body) (db db' : Store)
    (cw : CarWash) (lines : list WashedItem) :
  Ingestion.createCarWashRecord env b body db = (Created cw lines, db') ->
  (forall s, s ∈ serviceItems db -> PrimFloat.eqb (s_price s) (s_price s) = true) ->
  customPricesReadable body ->
  Forall (fun line =>
            exists p, wi_price line = Some p /\ JS.truthyNum p = true)
         lines.
Proof.
  intros H Hnum Hread.
  destruct (accepted_lines_by_item env b body db db' cw lines H)
    as (its & Hits & HF).
  apply Forall_forall. intros line Hline.
  apply list_elem_of_lookup in Hline as [i Hi].
  destruct (Forall2_lookup_r _ _ _ _ _ HF Hi)
    as (item & Hitem & s & (Hs & _) & _ & Hlist & Hcustom).
  destruct (PrimFloat.eqb (s_price s) 0) eqn:E.
  - destruct (Hcustom eq_refl) as ((Ht & _) & p & Hp & Hl).
    exists p. split; [done|].
    apply (Hread its item p Hits); [|done|done].
    apply list_elem_of_lookup. by exists i.
  - exists (s_price s). unfold JS.truthyNum.
    by rewrite (Hlist eq_refl), E, (Hnum s Hs).
Qed.

(** X9.  A line just ingested is read back at the price stored with it,
    provided that price is a number other than 0: with list prices that
    are numbers, and custom prices that, where given, are read by
    [parseFloat] as numbers other than 0 (the string "abc", which is
    accepted and stored as [NaN], is not), the sales the summary reports
    for today after a 201 under a fresh job identifier are the earlier
    sum, before rounding, to which the prices of the new lines are added
    in order, rounded to two decimals. *)
Theorem new_lines_read_at_stored_price
    (env : Env) (b : string) (body : Body) (db db' : Store)
    (cw : CarWash) (lines : list WashedItem) :
  Ingestion.createCarWashRecord env b body db = (Created cw lines, db') ->
  FreshJob env db ->
  (forall s, s ∈ serviceItems db -> PrimFloat.eqb (s_price s) (s_price s) = true) ->
  customPricesReadable body ->
  exists prices,
    wi_price <$> lines = Some <$> prices
    /\ t_totalEarnings
         (bs_summary (Summary.getCompanyDailySummary env b None db'))
       = round2
           (fold_left PrimFloat.add prices
              (sumF (map priceUsed (linesOfDay env b None db)))).
Proof.
  intros H Hfresh Hnum Hread.
  destruct (same_branch_queries env b body db db' cw lines
              (startOfDay env (now env)) (endOfDay env (now env))
              H Hfresh (today_contains_now env))
    as (_ & news & Hlines & HF).
  pose proof (accepted_prices_are_truthy env b body db db' cw lines H Hnum
                Hread) as Hp.
  exists (priceUsed <$> news). split.
  - rewrite <- list_fmap_compose.
    apply (fmap_eq_Forall2 wi_price (Some ∘ priceUsed)).
    eapply Forall2_impl;
      [apply (Forall2_with_Forall_l _ _ _ _ Hp HF)|].
    intros line j [(p & Hprice & Ht) [<- _]]. simpl.
    unfold priceUsed, JS.orNum. by rewrite Hprice, Ht.
  - rewrite summary_totalEarnings. unfold linesOfDay at 1. simpl.
    rewrite Hlines, map_app. unfold sumF. by rewrite fold_left_app.
Qed.

Lemma new_lines_read_at_stored_price_witness :
  exists prices,
    wi_price <$> [Ex2.rugStored] = Some <$> prices
    /\ t_totalEarnings
         (bs_summary
            (Summary.getCompanyDailySummary Ex.env "branch_a" None
               (Ingestion.createCarWashRecord Ex.env "branch_a"
                  (Ex.submit [Ex2.rugLine]) Ex.dbEighth).2))
       = round2
           (fold_left PrimFloat.add prices
              (sumF (map priceUsed
                       (linesOfDay Ex.env "branch_a" None Ex.dbEighth)))).
Proof.
  apply (new_lines_read_at_stored_price Ex.env "branch_a"
           (Ex.submit [Ex2.rugLine]) Ex.dbEighth _
           (Ex.job 1500 ["w-sam"]) [Ex2.rugStored]).
  - vm_compute. reflexivity.
  - split; intros Hin; apply list_elem_of_singleton in Hin; discriminate.
  - intros s Hs. repeat (apply elem_of_cons in Hs as [->|Hs]; [reflexivity|]).
    by apply elem_of_nil in Hs.
  - intros its item p [= <-] Hin _.
    apply list_elem_of_singleton in Hin as ->.
    intros [= <-]. reflexivity.
Defined.

(** * Grouping into a dictionary *)

Lemma uniqFrom_seen_equiv (xs : list string) :
  forall seen1 seen2,
    (forall y, y ∈ seen1 <-> y ∈ seen2) ->
    JS.uniqFrom seen1 xs = JS.uniqFrom seen2 xs.
Proof.
  induction xs as [|x xs IH]; intros seen1 seen2 Heq; simpl; [done|].
  assert (JS.arrayIncludes seen1 x = JS.arrayIncludes seen2 x) as ->.
  { destruct (JS.arrayIncludes seen2 x) eqn:E.
    - apply arrayIncludes_spec. apply arrayIncludes_spec in E. by apply Heq.
    - apply arrayIncludes_false. apply arrayIncludes_false in E.
      by rewrite Heq. }
  destruct (JS.arrayIncludes seen2 x); [by apply IH|].
  f_equal. apply IH. intros y. rewrite !elem_of_cons. by rewrite Heq.
Qed.

Lemma has_spec {V} (k : string) (obj : list (string * V)) :
  JS.has k obj = true <-> k ∈ obj.*1.
Proof.
  unfold JS.has. rewrite existsb_exists, list_elem_of_fmap. split.
  - intros (kv & Hin & E). apply String.eqb_eq in E.
    exists kv. by rewrite <- list_elem_of_In in Hin.
  - intros (kv & -> & Hin). exists kv.
    rewrite <- list_elem_of_In. split; [done | apply String.eqb_refl].
Qed.

Lemma alter_absent {V} (k : string) (f : V -> V) (obj : list (string * V)) :
  k ∉ obj.*1 -> JS.alter k f obj = obj.
Proof.
  intros Hk. unfold JS.alter. rewrite <- (map_id obj) at 2.
  apply map_ext_in. intros kv Hin.
  destruct (String.eqb kv.1 k) eqn:E; [|done].
  apply String.eqb_eq in E. destruct Hk. apply list_elem_of_fmap.
  exists kv. by rewrite <- list_elem_of_In in Hin.
Qed.

Lemma alter_keys {V} (k : string) (f : V -> V) (obj : list (string * V)) :
  (JS.alter k f obj).*1 = obj.*1.
Proof.
  unfold JS.alter. induction obj as [|kv obj IH]; csimpl; [done|].
  rewrite IH. by destruct (String.eqb kv.1 k).
Qed.

Section grouping.
Context {A V : Type} (key : A -> string) (zero : A -> V) (upd : A -> V -> V).

Lemma groupOf_cons_eq (x : A) (l : list A) :
  groupOf key (key x) (x :: l) = x :: groupOf key (key x) l.
Proof. unfold groupOf. simpl. by rewrite String.eqb_refl. Qed.

Lemma groupOf_cons_ne (x : A) (l : list A) (k : string) :
  k <> key x -> groupOf key k (x :: l) = groupOf key k l.
Proof.
  intros Hne. unfold groupOf. simpl.
  assert (String.eqb (key x) k = false) as ->; [|done].
  apply String.eqb_neq. congruence.
Qed.

Lemma groupOld_cons_eq (x : A) (l : list A) (v : V) :
  groupOld key upd (x :: l) (key x, v) = groupOld key upd l (key x, upd x v).
Proof. unfold groupOld. cbn [fst snd]. by rewrite groupOf_cons_eq. Qed.

Lemma groupOld_cons_ne (x : A) (l : list A) (kv : string * V) :
  kv.1 <> key x -> groupOld key upd (x :: l) kv = groupOld key upd l kv.
Proof. intros Hne. unfold groupOld. by rewrite groupOf_cons_ne. Qed.

Lemma groupNew_cons_eq (x : A) (l : list A) :
  groupNew key zero upd (x :: l) (key x)
  = Some (groupOld key upd l (key x, upd x (zero x))).
Proof. unfold groupNew, groupOld. by rewrite groupOf_cons_eq. Qed.

Lemma groupNew_cons_ne (x : A) (l : list A) (k : string) :
  k <> key x -> groupNew key zero upd (x :: l) k = groupNew key zero upd l k.
Proof. intros Hne. unfold groupNew. by rewrite groupOf_cons_ne. Qed.

Lemma grouping_fold (l : list A) :
  forall obj,
    fold_left (groupStep key zero upd) l obj
    = (map (groupOld key upd l) obj
       ++ omap (groupNew key zero upd l)
               (JS.uniqFrom obj.*1 (map key l)))%list.
Proof.
  induction l as [|x l IH]; intros obj.
  { simpl. rewrite app_nil_r. rewrite <- (map_id obj) at 1.
    apply map_ext. by intros []. }
  cbn [fold_left map JS.uniqFrom]. rewrite IH. clear IH.
  unfold groupStep, JS.initId.
  destruct (JS.has (key x) obj) eqn:Hhas.
  - (* the entry exists *)
    pose proof Hhas as Hin. apply has_spec in Hin.
    pose proof Hin as Hinc. apply arrayIncludes_spec in Hinc.
    change (if true then obj else ?o) with obj.
    rewrite Hinc, alter_keys. f_equal.
    + unfold JS.alter. rewrite map_map. apply map_ext. intros [k v].
      cbn [fst snd].
      destruct (String.eqb k (key x)) eqn:E.
      * apply String.eqb_eq in E. subst k. cbn [fst snd].
        by rewrite groupOld_cons_eq.
      * apply String.eqb_neq in E. by rewrite groupOld_cons_ne.
    + apply omap_ext_in. intros k Hk.
      apply elem_of_uniqFrom in Hk as [_ Hk].
      rewrite groupNew_cons_ne; [done|]. by intros ->.
  - (* the entry is created *)
    assert (key x ∉ obj.*1) as Hnin.
    { rewrite <- has_spec. congruence. }
    pose proof Hnin as Hf. apply arrayIncludes_false in Hf. rewrite Hf.
    change (if false then obj else ?o) with o.
    rewrite alter_keys.
    unfold JS.alter. rewrite List.map_app. fold (JS.alter (key x) (upd x) obj).
    rewrite alter_absent by done. cbn [map fst snd].
    rewrite String.eqb_refl.
    rewrite fmap_app, List.map_app, <- app_assoc. cbn [map fmap list_fmap app].
    f_equal.
    + apply map_ext_in. intros kv Hkv.
      rewrite groupOld_cons_ne; [done|]. intros E. destruct Hnin.
      apply list_elem_of_fmap. exists kv.
      by rewrite <- list_elem_of_In in Hkv.
    + csimpl. rewrite groupNew_cons_eq. f_equal.
      rewrite (uniqFrom_seen_equiv _ (map fst obj ++ [key x]) (key x :: obj.*1)).
      2: { intros y. rewrite elem_of_app, !elem_of_cons, elem_of_nil.
           tauto. }
      apply omap_ext_in. intros k Hk.
      apply elem_of_uniqFrom in Hk as [_ Hk].
      rewrite groupNew_cons_ne; [done|]. intros ->.
      apply Hk, elem_of_cons. by left.
Qed.

(** The dictionary the loop builds from nothing: one entry per key, in
    the order in which the keys first occur, holding the updates of the
    elements filed under the key, applied in order to the entry the
    first of them creates. *)
Lemma grouping (l : list A) :
  fold_left (groupStep key zero upd) l []
  = omap (groupNew key zero upd l) (JS.uniq (map key l)).
Proof. by rewrite grouping_fold. Qed.

Lemma groupOf_nonempty (x : A) (l : list A) :
  x ∈ l -> exists x0 g, groupOf key (key x) l = x0 :: g.
Proof.
  intros Hx. destruct (groupOf key (key x) l) as [|x0 g] eqn:E; [|eauto].
  assert (x ∈ groupOf key (key x) l) as Hin.
  { unfold groupOf. apply list_elem_of_In, filter_In.
    split; [by apply list_elem_of_In | apply String.eqb_refl]. }
  rewrite E in Hin. by apply elem_of_nil in Hin.
Qed.

Lemma grouping_keys (l : list A) :
  (fold_left (groupStep key zero upd) l []).*1 = JS.uniq (map key l).
Proof.
  rewrite grouping.
  assert (forall ks : list string,
            (forall k, k ∈ ks -> k ∈ map key l) ->
            (omap (groupNew key zero upd l) ks).*1 = ks) as Hks.
  { induction ks as [|k ks IH]; intros Hin; csimpl; [done|].
    assert (k ∈ map key l) as Hk by (apply Hin, elem_of_cons; by left).
    apply list_elem_of_fmap in Hk as (x & -> & Hx).
    destruct (groupOf_nonempty x l Hx) as (x0 & g & E).
    unfold groupNew at 1. rewrite E. csimpl. f_equal.
    apply IH. intros k' Hk'. apply Hin, elem_of_cons. by right. }
  apply Hks. intros k Hk. by rewrite elem_of_uniq in Hk.
Qed.

Lemma grouping_entry (l : list A) (k : string) (v : V) :
  (k, v) ∈ fold_left (groupStep key zero upd) l [] ->
  exists x0 g,
    groupOf key k l = x0 :: g
    /\ v = fold_left (fun v x => upd x v) g (upd x0 (zero x0)).
Proof.
  rewrite grouping, list_elem_of_omap. intros (k' & _ & Hnew).
  unfold groupNew in Hnew.
  destruct (groupOf key k' l) as [|x0 g] eqn:E; [done|].
  injection Hnew as -> <-. eauto.
Qed.
End grouping.

(** ** The item breakdown of a day *)

Lemma insertBy_Permutation {A} (cmp : A -> A -> float) (x : A) (l : list A) :
  JS.insertBy cmp x l ≡ₚ x :: l.
Proof.
  induction l as [|y l IH]; simpl; [done|].
  destruct (PrimFloat.ltb _ _); [|done].
  rewrite IH. apply Permutation_swap.
Qed.

Lemma sort_Permutation {A} (cmp : A -> A -> float) (l : list A) :
  JS.sort cmp l ≡ₚ l.
Proof.
  unfold JS.sort. induction l as [|x l IH]; simpl; [done|].
  by rewrite insertBy_Permutation, IH.
Qed.

Lemma fold_Zadd_init (l : list Z) :
  forall a, fold_left Z.add l a = a + fold_left Z.add l 0.
Proof.
  induction l as [|x l IH]; intros a; cbn [fold_left]; [lia|].
  rewrite (IH (a + x)), (IH (0 + x)). lia.
Qed.

Lemma sumZ_cons (x : Z) (l : list Z) : sumZ (x :: l) = x + sumZ l.
Proof. unfold sumZ. cbn [fold_left]. apply fold_Zadd_init. Qed.

Lemma sumZ_Permutation (l1 l2 : list Z) : l1 ≡ₚ l2 -> sumZ l1 = sumZ l2.
Proof.
  induction 1 as [|x l1 l2 _ IH|x y l|l1 l2 l3 _ IH1 _ IH2];
    rewrite ?sumZ_cons; [done | by rewrite IH | lia | congruence].
Qed.

Lemma sumZ_map_add {A} (f g : A -> Z) (l : list A) :
  sumZ (map (fun x => f x + g x) l) = sumZ (map f l) + sumZ (map g l).
Proof.
  induction l as [|x l IH]; [done|]. cbn [map]. rewrite !sumZ_cons, IH. lia.
Qed.

Lemma sumZ_indicator_absent (a : string) (ks : list string) :
  a ∉ ks ->
  sumZ (map (fun k => if String.eqb a k then 1 else 0) ks) = 0.
Proof.
  induction ks as [|k ks IH]; intros Hn; [done|]. cbn [map].
  rewrite sumZ_cons, IH.
  - destruct (String.eqb a k) eqn:E; [|done].
    apply String.eqb_eq in E. subst k. destruct Hn. apply elem_of_cons. by left.
  - intros Hin. apply Hn, elem_of_cons. by right.
Qed.

Lemma sumZ_indicator (a : string) (ks : list string) :
  NoDup ks -> a ∈ ks ->
  sumZ (map (fun k => if String.eqb a k then 1 else 0) ks) = 1.
Proof.
  induction 1 as [|k ks Hk Hnd IH]; intros Hin.
  { by apply elem_of_nil in Hin. }
  cbn [map]. rewrite sumZ_cons.
  destruct (String.eqb a k) eqn:E.
  - apply String.eqb_eq in E. subst k. by rewrite sumZ_indicator_absent.
  - apply String.eqb_neq in E. apply elem_of_cons in Hin as [?|Hin]; [done|].
    by rewrite IH.
Qed.

(** Filing the elements of a list under keys loses none and duplicates
    none: the groups of the keys hold as many elements as the list. *)
Lemma count_by_key {A} (key : A -> string) (l : list A) (ks : list string) :
  NoDup ks -> (forall x, x ∈ l -> key x ∈ ks) ->
  sumZ (map (fun k => Z.of_nat (length (groupOf key k l))) ks)
  = Z.of_nat (length l).
Proof.
  intros Hnd. induction l as [|x l IH]; intros Hin.
  { clear. induction ks as [|k ks IH]; [done|]. cbn [map].
    by rewrite sumZ_cons, IH. }
  rewrite (map_ext _ (fun k => (if String.eqb (key x) k then 1 else 0)
                               + Z.of_nat (length (groupOf key k l)))).
  2: { intros k. unfold groupOf. simpl.
       destruct (String.eqb (key x) k); simpl length; lia. }
  rewrite sumZ_map_add, IH, sumZ_indicator.
  - simpl length. lia.
  - done.
  - apply Hin, elem_of_cons. by left.
  - intros y Hy. apply Hin, elem_of_cons. by right.
Qed.

Lemma omap_all_Some {A B} (f : A -> option B) (g : A -> B) (l : list A) :
  (forall x, x ∈ l -> f x = Some (g x)) -> omap f l = map g l.
Proof.
  induction l as [|x l IH]; intros H; csimpl; [done|].
  rewrite (H x) by (apply elem_of_cons; by left). csimpl. f_equal.
  apply IH. intros y Hy. apply H, elem_of_cons. by right.
Qed.

Lemma groupOf_key {A} (key : A -> string) (k : string) (l : list A) (x : A) :
  x ∈ groupOf key k l -> key x = k.
Proof.
  unfold groupOf. rewrite list_elem_of_In, filter_In. intros [_ E].
  by apply String.eqb_eq in E.
Qed.

(** What the breakdown loop makes of an entry over the lines [g]. *)
Lemma itemUpd_fold (g : list Joined) :
  forall e,
    fold_left (fun v x => itemUpd x v) g e
    = {| is_itemName := is_itemName e;
         is_quantity := is_quantity e + Z.of_nat (length g);
         is_totalEarnings :=
           fold_left PrimFloat.add (map priceUsed g) (is_totalEarnings e);
         is_companyEarning :=
           fold_left PrimFloat.add
             (map (fun j => companyShare (split (itemNameOf j) (priceUsed j))) g)
             (is_companyEarning e);
         is_workerShare :=
           fold_left PrimFloat.add
             (map (fun j => washerShare (split (itemNameOf j) (priceUsed j))) g)
             (is_workerShare e) |}.
Proof.
  induction g as [|x g IH]; intros e.
  - destruct e. simpl. f_equal. lia.
  - cbn [fold_left map]. rewrite IH. unfold itemUpd.
    cbn [is_itemName is_quantity is_totalEarnings is_companyEarning
         is_workerShare]. f_equal. simpl length. lia.
Qed.

(** The values of the dictionary, read through [F], when [h] says what
    [F] makes of the entry of a key from the elements filed under it. *)
Lemma grouping_values {A V W} (key : A -> string) (zero : A -> V)
    (upd : A -> V -> V) (F : V -> W) (h : string -> list A -> W)
    (l : list A) :
  (forall k x0 g,
      groupOf key k l = x0 :: g ->
      F (fold_left (fun v x => upd x v) g (upd x0 (zero x0))) = h k (x0 :: g)) ->
  map F (map snd (fold_left (groupStep key zero upd) l []))
  = map (fun k => h k (groupOf key k l)) (JS.uniq (map key l)).
Proof.
  intros Hh. rewrite grouping.
  assert (forall ks : list string,
            (forall k, k ∈ ks -> k ∈ map key l) ->
            map F (map snd (omap (groupNew key zero upd l) ks))
            = map (fun k => h k (groupOf key k l)) ks) as Hks.
  { induction ks as [|k ks IH]; intros Hin; csimpl; [done|].
    assert (k ∈ map key l) as Hk by (apply Hin, elem_of_cons; by left).
    apply list_elem_of_fmap in Hk as (x & -> & Hx).
    destruct (groupOf_nonempty key x l Hx) as (x0 & g & E).
    unfold groupNew at 1. rewrite E. csimpl.
    rewrite (Hh _ _ _ E). f_equal.
    apply IH. intros k' Hk'. apply Hin, elem_of_cons. by right. }
  apply Hks. intros k Hk. by rewrite elem_of_uniq in Hk.
Qed.

(** Under names of any kind the loop files the elements whose key is not
    an inherited name, and passes over the others. *)
Lemma groupStepByName_fold {A V} (key : A -> string) (zero : A -> V)
    (upd : A -> V -> V) (l : list A) :
  forall obj,
    (forall k, k ∈ obj.*1 -> JS.inheritedName k = false) ->
    fold_left (groupStepByName key zero upd) l obj
    = fold_left (groupStep key zero upd) (ownKeyed key l) obj.
Proof.
  induction l as [|x l IH]; intros obj Hobj; [done|].
  cbn [fold_left ownKeyed List.filter]. fold (ownKeyed key l).
  unfold groupStepByName at 2. unfold JS.init.
  destruct (JS.inheritedName (key x)) eqn:Ei; cbn [negb].
  - rewrite orb_true_r. rewrite alter_absent; [by apply IH|].
    intros Hin. apply Hobj in Hin. congruence.
  - rewrite orb_false_r. cbn [fold_left].
    change (JS.alter (key x) (upd x)
              (if JS.has (key x) obj then obj
               else (obj ++ [(key x, zero x)])%list))
      with (groupStep key zero upd obj x).
    apply IH. intros k. unfold groupStep, JS.initId. rewrite alter_keys.
    destruct (JS.has (key x) obj); [apply Hobj|].
    rewrite fmap_app, elem_of_app. intros [Hk|Hk]; [by apply Hobj|].
    apply list_elem_of_singleton in Hk. by subst k.
Qed.

(** [Object.values] lists every entry once, whatever the order. *)
Lemma values_Permutation {V} (obj : list (string * V)) :
  JS.values obj ≡ₚ map snd obj.
Proof.
  unfold JS.values. apply Permutation_map.
  rewrite merge_sort_Permutation.
  induction obj as [|kv obj IH]; [done|]. cbn [List.filter].
  destruct (bool_decide (is_Some (JS.arrayIndex kv.1))); cbn [negb].
  - cbn [app]. by rewrite IH.
  - rewrite <- Permutation_middle. by rewrite IH.
Qed.

Lemma itemsSummary_grouping (env : Env) (b : string) (date : option Z)
    (db : Store) :
  bs_itemsWashed (Summary.getCompanyDailySummary env b date db)
  ≡ₚ map (fun k =>
            itemRow k (groupOf itemNameOf k
                         (ownKeyed itemNameOf (linesOfDay env b date db))))
         (JS.uniq (map itemNameOf
                     (ownKeyed itemNameOf (linesOfDay env b date db)))).
Proof.
  unfold Summary.getCompanyDailySummary. cbn [bs_itemsWashed].
  fold (linesOfDay env b date db).
  rewrite sort_Permutation.
  rewrite (fold_left_proj _ (groupStepByName itemNameOf itemZero itemUpd)
             Summary.itemsSummary) by done.
  cbn [Summary.itemsSummary].
  rewrite values_Permutation.
  rewrite groupStepByName_fold by (intros k Hk; by apply elem_of_nil in Hk).
  erewrite (grouping_values itemNameOf itemZero itemUpd _ itemRow); [done|].
  intros k x0 g E.
  rewrite itemUpd_fold.
  assert (itemNameOf x0 = k) as Hname.
  { apply (groupOf_key itemNameOf k
             (ownKeyed itemNameOf (linesOfDay env b date db))).
    rewrite E. apply elem_of_cons. by left. }
  unfold itemUpd, itemZero, itemRow, round2, sumF.
  cbn [is_itemName is_quantity is_totalEarnings is_companyEarning
       is_workerShare map fold_left].
  rewrite Hname. f_equal. simpl length. lia.
Qed.

(** X10.  The item breakdown of the company summary of a day has one row
    per service-item name among the lines of the day, the names every
    object inherits ("constructor", "toString" and the like) apart, for
    which there is no row: the row of a name counts the lines of that
    name and gives the rounded sums of their prices and shares.  The
    quantities of the rows add up to the number of lines that have a
    row, which is the number of items the summary reports when no line
    is of an item with an inherited name, and falls short of it
    otherwise. *)
Theorem item_breakdown (env : Env) (b : string) (date : option Z)
    (db : Store) :
  let lines := linesOfDay env b date db in
  let r := Summary.getCompanyDailySummary env b date db in
  bs_itemsWashed r
  ≡ₚ map (fun k => itemRow k (groupOf itemNameOf k (ownKeyed itemNameOf lines)))
         (JS.uniq (map itemNameOf (ownKeyed itemNameOf lines)))
  /\ NoDup (map is_itemName (bs_itemsWashed r))
  /\ sumZ (map is_quantity (bs_itemsWashed r))
     = Z.of_nat (length (ownKeyed itemNameOf lines))
  /\ (Forall (fun j => ~ InheritedName (itemNameOf j)) lines <->
      sumZ (map is_quantity (bs_itemsWashed r))
      = t_totalItemsWashed (bs_summary r)).
Proof.
  intros lines r. pose proof (itemsSummary_grouping env b date db) as Hp.
  fold lines in Hp. fold r in Hp. split; [done|].
  assert (sumZ (map is_quantity (bs_itemsWashed r))
          = Z.of_nat (length (ownKeyed itemNameOf lines))) as Hsum.
  { rewrite (sumZ_Permutation _ _ (Permutation_map is_quantity Hp)).
    rewrite map_map. cbn [itemRow is_quantity].
    rewrite count_by_key.
    + done.
    + apply NoDup_uniq.
    + intros x Hx. apply elem_of_uniq, list_elem_of_fmap. eauto. }
  split; [|split; [done|]].
  - rewrite Hp, map_map. cbn [itemRow is_itemName]. rewrite map_id.
    apply NoDup_uniq.
  - rewrite Hsum.
    change (t_totalItemsWashed (bs_summary r)) with (Z.of_nat (length lines)).
    clear. unfold ownKeyed. split.
    + intros HF. f_equal. f_equal.
      induction HF as [|j l Hj HF IH]; [done|]. cbn [List.filter].
      destruct (JS.inheritedName (itemNameOf j)) eqn:E.
      * by apply inheritedName_spec in E.
      * cbn [negb]. by rewrite IH.
    + intros Hlen. apply Nat2Z.inj in Hlen.
      induction lines as [|j l IH]; [constructor|].
      cbn [List.filter] in Hlen.
      pose proof (filter_length_le
                    (fun x => negb (JS.inheritedName (itemNameOf x))) l) as Hle.
      destruct (JS.inheritedName (itemNameOf j)) eqn:E; cbn [negb] in Hlen.
      * simpl in Hlen. lia.
      * constructor.
        -- rewrite <- inheritedName_spec. congruence.
        -- apply IH. simpl in Hlen. lia.
Qed.

(** ** The daily payment summary, washer by washer *)

Lemma elem_of_sort {A} (cmp : A -> A -> float) (l : list A) (x : A) :
  x ∈ JS.sort cmp l <-> x ∈ l.
Proof. by rewrite sort_Permutation. Qed.

(** The dictionary of the daily payment loop. *)
Lemma dailyPayment_entries (env : Env) (b : string) (date : option Z)
    (db : Store) (r : PaymentTotals * list WasherPayment) (wp : WasherPayment) :
  Payments.getDailyPaymentSummary env b date db = Some r ->
  wp ∈ r.2 ->
  exists k v,
    (k, v) ∈ fold_left (groupStep washerIdOf washerZero washerUpd)
                       (linesOfDay env b date db) []
    /\ wp = {| wp_washerId := wp_washerId v;
               wp_washerName := wp_washerName v;
               wp_washerPhone := wp_washerPhone v;
               wp_totalAmount := round2 (wp_totalAmount v);
               wp_washerEarnings := round2 (wp_washerEarnings v);
               wp_companyEarnings := round2 (wp_companyEarnings v);
               wp_itemsWashed := wp_itemsWashed v;
               wp_carsWashed := wp_carsWashed v;
               wp_items := wp_items v |}.
Proof.
  unfold Payments.getDailyPaymentSummary.
  fold (linesOfDay env b date db).
  destruct (mapM j_washer (linesOfDay env b date db)); [|discriminate].
  match goal with
  | |- context [fold_left ?f (linesOfDay env b date db) ?i] =>
      pose proof (fold_left_proj f (groupStep washerIdOf washerZero washerUpd)
                    (fun t => t.1.1.1.1)
                    (fun t a => match t with (_, _, _, _, _) => eq_refl end)
                    (linesOfDay env b date db) i) as Hp;
      destruct (fold_left f (linesOfDay env b date db) i)
        as [[[[ws tce] twe] ts] cars]
  end.
  cbn [fst] in Hp. subst ws. intros [= <-]. cbn [snd].
  rewrite elem_of_sort. intros Hin.
  apply list_elem_of_fmap in Hin as (v & -> & Hin).
  apply list_elem_of_fmap in Hin as ([k v'] & -> & Hin).
  by exists k, v'.
Qed.

(** What the daily payment loop makes of an entry over the lines [g], in
    terms of what the loop of the washer payment summary makes of its
    accumulators. *)
Lemma washerUpd_fold (g : list Joined) :
  forall (w : WasherPayment)
         (f : float * float * float * list string * list PaidItem ->
              Joined ->
              float * float * float * list string * list PaidItem),
    (forall ta we ce cars items j,
        f (ta, we, ce, cars, items) j
        = ((ta + priceUsed j)%float,
           (we + pi_washerShare (paidItemOf j))%float,
           (ce + pi_companyShare (paidItemOf j))%float,
           Payments.setAdd (cw_id (j_carWash j)) cars,
           (items ++ [paidItemOf j])%list)) ->
    fold_left f g (wp_totalAmount w, wp_washerEarnings w, wp_companyEarnings w,
                   wp_carsWashed w, wp_items w)
    = (let w' := fold_left (fun v x => washerUpd x v) g w in
       (wp_totalAmount w', wp_washerEarnings w', wp_companyEarnings w',
        wp_carsWashed w', wp_items w'))
    /\ wp_washerId (fold_left (fun v x => washerUpd x v) g w) = wp_washerId w
    /\ wp_itemsWashed (fold_left (fun v x => washerUpd x v) g w)
       = wp_itemsWashed w + Z.of_nat (length g).
Proof.
  induction g as [|x g IH]; intros w f Hf.
  - cbn [fold_left length]. split; [done|]. split; [done|]. lia.
  - cbn [fold_left]. rewrite Hf.
    destruct (IH (washerUpd x w) f Hf) as (H1 & H2 & H3).
    cbn [washerUpd wp_totalAmount wp_washerEarnings wp_companyEarnings
         wp_carsWashed wp_items wp_washerId wp_itemsWashed] in H1, H2, H3.
    rewrite H1, H2, H3. split; [done|]. split; [done|]. simpl length. lia.
Qed.

(** X11.  A washer's row in the daily payment summary of a branch carries
    the figures of the washer's own payment summary for that day: when the
    washer is of the branch, the washer payment summary answers with the
    same items, the same rounded amount and shares, and the same numbers
    of items and of cars. *)
Theorem daily_row_is_washer_summary (env : Env) (b : string)
    (date : option Z) (db : Store) (r : PaymentTotals * list WasherPayment)
    (wp : WasherPayment) (w : Washer) :
  Payments.getDailyPaymentSummary env b date db = Some r ->
  wp ∈ r.2 ->
  w ∈ washers db -> w_id w = wp_washerId wp -> w_branchId w = b ->
  Payments.getWasherPaymentSummary env b (wp_washerId wp) date db
  = Some ({| pt_totalSales := wp_totalAmount wp;
             pt_companyEarnings := wp_companyEarnings wp;
             pt_washerEarnings := wp_washerEarnings wp;
             pt_totalCarsWashed := Z.of_nat (length (wp_carsWashed wp));
             pt_totalItemsWashed := wp_itemsWashed wp |},
          wp_items wp).
Proof.
  intros Hd Hwp Hw Hid Hbr.
  destruct (dailyPayment_entries _ _ _ _ _ _ Hd Hwp) as (k & v & Hkv & ->).
  cbn [wp_washerId wp_totalAmount wp_washerEarnings wp_companyEarnings
       wp_itemsWashed wp_carsWashed wp_items] in *.
  apply grouping_entry in Hkv as (x0 & g & Hg & ->).
  set (lines := linesOfDay env b date db) in *.
  change (fold_left (fun v x => washerUpd x v) g (washerUpd x0 (washerZero x0)))
    with (fold_left (fun v x => washerUpd x v) (x0 :: g) (washerZero x0)) in *.
  rewrite <- Hg in *.
  unfold Payments.getWasherPaymentSummary.
  fold (linesOfDay env b date db). fold lines.
  match goal with
  | |- context [fold_left ?f ?l (?a, ?b, ?c, ?d, ?e)] =>
      destruct (washerUpd_fold (groupOf washerIdOf k lines) (washerZero x0) f)
        as (H1 & H2 & H3); [done|]
  end.
  cbn [washerZero wp_totalAmount wp_washerEarnings wp_companyEarnings
       wp_carsWashed wp_items wp_washerId wp_itemsWashed] in H1, H2, H3.
  assert (washerIdOf x0 = k) as Hk.
  { apply (groupOf_key washerIdOf k lines). rewrite Hg.
    apply elem_of_cons. by left. }
  rewrite H2, Hk in *.
  destruct (find_is_Some
              (fun w' => String.eqb (w_id w') k && String.eqb (w_branchId w') b)
              (washers db) w Hw) as [w' ->].
  { rewrite Hid, Hbr, !String.eqb_refl. done. }
  change (List.filter (fun item => String.eqb (wi_washerId (j_item item)) k) lines)
    with (groupOf washerIdOf k lines).
  rewrite H1. cbn zeta. rewrite H3. reflexivity.
Qed.

Lemma daily_row_is_washer_summary_witness :
  exists t wp,
    Payments.getDailyPaymentSummary Ex.env "branch_a" None Ex2.afterA
    = Some (t, [wp])
    /\ wp_itemsWashed wp = 2
    /\ Payments.getWasherPaymentSummary Ex.env "branch_a" "w-sam" None
         Ex2.afterA
       = Some ({| pt_totalSales := wp_totalAmount wp;
                  pt_companyEarnings := wp_companyEarnings wp;
                  pt_washerEarnings := wp_washerEarnings wp;
                  pt_totalCarsWashed := Z.of_nat (length (wp_carsWashed wp));
                  pt_totalItemsWashed := wp_itemsWashed wp |},
               wp_items wp).
Proof.
  eexists _, _. split; [vm_compute; reflexivity|]. split; [reflexivity|].
  match goal with
  | |- context [wp_items ?wp] =>
      eapply (daily_row_is_washer_summary Ex.env "branch_a" None Ex2.afterA
                (_, [wp]) wp Ex.sam)
  end.
  - vm_compute. reflexivity.
  - apply list_elem_of_singleton. reflexivity.
  - vm_compute. apply elem_of_cons. by left.
  - reflexivity.
  - reflexivity.
Defined.

(** ** The same day through the three company endpoints *)

(** The two controllers split a price alike. *)
Lemma paymentSplit_eq (name : string) (p : float) :
  PaymentController.calculatePaymentSplit name p = split name p.
Proof.
  unfold split, RecordController.calculatePaymentSplit,
    PaymentController.calculatePaymentSplit.
  destruct (existsb _ _); [done|].
  by destruct (JS.includes (JS.toLowerCase name) "rug").
Qed.

Lemma elem_of_setAdd (x y : string) (s : list string) :
  y ∈ Payments.setAdd x s <-> y = x \/ y ∈ s.
Proof.
  unfold Payments.setAdd. destruct (JS.arrayIncludes s x) eqn:E.
  - apply arrayIncludes_spec in E. split; [by right|]. by intros [->|].
  - rewrite elem_of_app, list_elem_of_singleton. tauto.
Qed.

Lemma NoDup_setAdd (x : string) (s : list string) :
  NoDup s -> NoDup (Payments.setAdd x s).
Proof.
  intros Hs. unfold Payments.setAdd. destruct (JS.arrayIncludes s x) eqn:E.
  - done.
  - apply NoDup_app. split; [done|]. split; [|apply NoDup_singleton].
    intros y Hy Hx. apply list_elem_of_singleton in Hx as ->.
    apply arrayIncludes_spec in Hy. congruence.
Qed.

(** A set filled by a loop holds each element once, and only elements
    the loop has added. *)
Lemma setAdd_fold {A} (f : A -> string) (l : list A) :
  forall s,
    NoDup s ->
    NoDup (fold_left (fun s x => Payments.setAdd (f x) s) l s)
    /\ forall y, y ∈ fold_left (fun s x => Payments.setAdd (f x) s) l s
                 <-> y ∈ s \/ y ∈ map f l.
Proof.
  induction l as [|x l IH]; intros s Hs; cbn [fold_left map].
  - split; [done|]. intros y. rewrite elem_of_nil. tauto.
  - destruct (IH _ (NoDup_setAdd (f x) s Hs)) as [Hnd Hin].
    split; [done|]. intros y.
    rewrite Hin, elem_of_setAdd, elem_of_cons. tauto.
Qed.

(** The job of a line read for a day is one of the jobs read for that
    day. *)
Lemma line_job_in_day (env : Env) (b : string) (date : option Z) (db : Store)
    (j : Joined) :
  j ∈ linesOfDay env b date db ->
  j_carWash j
  ∈ findCarWashes db b (startOfDay env (default (now env) date))
                  (endOfDay env (default (now env) date)).
Proof.
  rewrite elem_of_linesOfDay. intros (_ & Hcw & _ & _ & Hb & Hlo & Hhi).
  unfold findCarWashes. apply list_elem_of_In, filter_In. split.
  - by apply find_some in Hcw as [Hcw _].
  - rewrite Hb, String.eqb_refl. simpl.
    apply andb_true_iff. split; by apply Z.leb_le.
Qed.

(** X12.  Whenever the daily payment summary of a branch answers, its
    totals are those of the company payment summary of the same day: the
    same rounded sales and shares and the same number of items.  Its
    number of cars counts the jobs that have a line, so it is at most the
    number of jobs the company payment summary counts. *)
Theorem daily_totals_are_company_totals (env : Env) (b : string)
    (date : option Z) (db : Store) (r : PaymentTotals * list WasherPayment) :
  Payments.getDailyPaymentSummary env b date db = Some r ->
  let p := (Payments.getCompanyPaymentSummary env b date db).1 in
  pt_totalSales r.1 = pt_totalSales p
  /\ pt_companyEarnings r.1 = pt_companyEarnings p
  /\ pt_washerEarnings r.1 = pt_washerEarnings p
  /\ pt_totalItemsWashed r.1 = pt_totalItemsWashed p
  /\ pt_totalCarsWashed r.1 <= pt_totalCarsWashed p.
Proof.
  unfold Payments.getDailyPaymentSummary, Payments.getCompanyPaymentSummary.
  fold (linesOfDay env b date db).
  destruct (mapM j_washer (linesOfDay env b date db)); [|discriminate].
  match goal with
  | |- context [fold_left ?f' _ (?i1, ?i2, ?i3)] =>
      let i' := constr:((i1, i2, i3)) in
      match goal with
      | |- context [fold_left ?f _ (?j1, ?j2, ?j3, ?j4, ?j5)] =>
          let i := constr:((j1, j2, j3, j4, j5)) in
          pose proof (fold_left_proj f f'
                        (fun t => (t.1.2, t.1.1.1.2, t.1.1.2))
                        (fun t a => match t with (_, _, _, _, _) => eq_refl end)
                        (linesOfDay env b date db) i) as Hp;
          pose proof (fold_left_proj f
                        (fun s j => Payments.setAdd (cw_id (j_carWash j)) s)
                        (fun t => t.2)
                        (fun t a => match t with (_, _, _, _, _) => eq_refl end)
                        (linesOfDay env b date db) i) as Hc;
          destruct (fold_left f (linesOfDay env b date db) i)
            as [[[[ws tce] twe] ts] cars];
          cbn [fst snd] in Hp, Hc;
          destruct (fold_left f' (linesOfDay env b date db) i')
            as [[ts' ce'] we']
      end
  end.
  injection Hp as -> -> ->. intros [= <-].
  cbn [fst snd pt_totalSales pt_companyEarnings pt_washerEarnings
       pt_totalItemsWashed pt_totalCarsWashed].
  repeat (split; [done|]).
  destruct (setAdd_fold (fun j => cw_id (j_carWash j))
              (linesOfDay env b date db) [] (NoDup_nil_2)) as [Hnd Hin].
  rewrite <- Hc in Hnd, Hin.
  apply inj_le. rewrite <- (length_map cw_id (findCarWashes db b _ _)).
  apply submseteq_length.
  apply NoDup_submseteq; [done|]. intros y Hy.
  apply Hin in Hy as [Hy|Hy]; [by apply elem_of_nil in Hy|].
  apply list_elem_of_fmap in Hy as (j & -> & Hj).
  apply list_elem_of_fmap. exists (j_carWash j). split; [done|].
  by apply line_job_in_day.
Qed.

(** X13.  For every branch, day and store the company payment summary
    and the company daily summary, written in two controllers, report
    the same figures: sales, both shares, the numbers of jobs and of
    items, and the cash and transfer totals. *)
Theorem company_endpoints_agree (env : Env) (b : string) (date : option Z)
    (db : Store) :
  let r := Summary.getCompanyDailySummary env b date db in
  let p := Payments.getCompanyPaymentSummary env b date db in
  pt_totalSales p.1 = t_totalEarnings (bs_summary r)
  /\ pt_companyEarnings p.1 = t_companyShare (bs_summary r)
  /\ pt_washerEarnings p.1 = t_workerShare (bs_summary r)
  /\ pt_totalCarsWashed p.1 = t_totalJobs (bs_summary r)
  /\ pt_totalItemsWashed p.1 = t_totalItemsWashed (bs_summary r)
  /\ p.2 = bs_paymentMethods r.
Proof.
  unfold Summary.getCompanyDailySummary, Payments.getCompanyPaymentSummary.
  fold (linesOfDay env b date db).
  match goal with
  | |- context [fold_left ?f' _ (?i1, ?i2, ?i3)] =>
      let i' := constr:((i1, i2, i3)) in
      match goal with
      | |- context [Summary.totalSales (fold_left ?f _ ?i)] =>
          pose proof (fold_left_proj f f'
                        (fun a => (Summary.totalSales a,
                                   Summary.companyEarnings a,
                                   Summary.washerEarnings a))) as Hp;
          specialize (Hp (fun a j => ltac:(cbn; by rewrite paymentSplit_eq))
                         (linesOfDay env b date db) i);
          cbn [Summary.totalSales Summary.companyEarnings
               Summary.washerEarnings] in Hp;
          destruct (fold_left f' (linesOfDay env b date db) i')
            as [[ts' ce'] we']
      end
  end.
  cbn [Summary.totalSales Summary.companyEarnings Summary.washerEarnings] in Hp.
  injection Hp as -> -> ->.
  cbn [fst snd pt_totalSales pt_companyEarnings pt_washerEarnings
       pt_totalItemsWashed pt_totalCarsWashed bs_summary bs_paymentMethods
       t_totalEarnings t_companyShare t_workerShare t_totalJobs
       t_totalItemsWashed].
  done.
Qed.

(** ** Reading back what a 201 stored *)

(** Every line a 201 stores credits an active washer of the branch. *)
Lemma accepted_lines_washers
    (env : Env) (b : string) (body : Body) (db db' : Store)
    (cw : CarWash) (lines : list WashedItem) :
  Ingestion.createCarWashRecord env b body db = (Created cw lines, db') ->
  forall id, id ∈ wi_washerId <$> lines ->
    exists w, w ∈ washers db /\ w_branchId w = b /\ w_isActive w = true
              /\ w_id w = id.
Proof.
  intros H id Hid.
  apply createCarWashRecord_Created in H as (its & iwis & Hits & Hmap & Htx).
  apply transaction_lines in Htx as (Hids & _).
  rewrite Hids in Hid. apply list_elem_of_fmap in Hid as (iwi & -> & Hiwi).
  apply mapM_Some in Hmap.
  apply list_elem_of_lookup in Hiwi as [i Hi].
  destruct (Forall2_lookup_r _ _ _ _ _ Hmap Hi) as (item & _ & Hto).
  apply toItemWithIds_Some in Hto as (d & _ & _ & _ & Hto).
  destruct (RecordController.isSpecialItem (serviceItemName item)).
  - destruct Hto as (w & Hw & ->).
    apply findIdowu_Some in Hw as (Hin & Hb & Hact & _). by exists w.
  - rename Hto into Hw.
    apply fromEntries_Some, list_elem_of_fmap in Hw as (w & E & Hw).
    injection E as E1 E2.
    apply elem_of_findWashers in Hw as [_ (Hin & Hb & Hact & _)].
    by exists w.
Qed.

Lemma filter_all {A} (p : A -> bool) (l : list A) :
  Forall (fun x => p x = true) l -> List.filter p l = l.
Proof.
  induction 1 as [|x l Hx _ IH]; simpl; [done|]. by rewrite Hx, IH.
Qed.

(** The view of the new job: the job as stored, with exactly its lines. *)
Lemma includeRelations_new (env : Env) (b : string) (body : Body)
    (db db' : Store) (cw : CarWash) (lines : list WashedItem) :
  Ingestion.createCarWashRecord env b body db = (Created cw lines, db') ->
  FreshJob env db ->
  rv_job (Records.includeRelations db' cw) = cw
  /\ lv_item <$> rv_lines (Records.includeRelations db' cw) = lines
  /\ Forall (fun lv =>
               (exists w, lv_washer lv = Some w
                          /\ w_id w = wi_washerId (lv_item lv)
                          /\ w ∈ washers db)
               /\ (exists s, lv_serviceItem lv = Some s
                             /\ s_id s = wi_serviceItemId (lv_item lv)
                             /\ s ∈ serviceItems db))
            (rv_lines (Records.includeRelations db' cw)).
Proof.
  intros H [_ Hrefs].
  pose proof (accepted_lines_washers _ _ _ _ _ _ _ H) as Hwashers.
  apply accepted_raw_tables in H
    as (_ & Hw & Hs & _ & Hi & Hid & _ & _ & Hlines).
  unfold Records.includeRelations. cbn [rv_job rv_lines].
  split; [done|].
  assert (List.filter (fun wi => String.eqb (wi_carWashId wi) (cw_id cw))
                      (washedItems db') = lines) as ->.
  { rewrite Hi, List.filter_app, Hid.
    rewrite (proj2 (filter_nil_inv _ (washedItems db))).
    - simpl. apply filter_all. eapply Forall_impl; [exact Hlines|].
      intros line [-> _]. apply String.eqb_refl.
    - intros wi Hwi. apply String.eqb_neq. intros E. destruct Hrefs.
      apply list_elem_of_fmap. by exists wi. }
  split.
  - rewrite <- list_fmap_compose. apply list_fmap_id.
  - apply Forall_fmap, Forall_forall. intros line Hline. cbn.
    rewrite Forall_forall in Hlines. destruct (Hlines line Hline)
      as (_ & s & Hsin & Hsid).
    destruct (Hwashers (wi_washerId line)) as (w & Hwin & _ & _ & Hwid).
    { apply list_elem_of_fmap. by exists line. }
    rewrite Hw, Hs. split.
    + destruct (find_is_Some
                  (fun w0 => String.eqb (w_id w0) (wi_washerId line))
                  (washers db) w Hwin) as [w' Hw'].
      { rewrite Hwid. apply String.eqb_refl. }
      exists w'. split; [done|]. apply find_some in Hw' as [Hin E].
      apply String.eqb_eq in E. split; [done|]. by apply list_elem_of_In.
    + destruct (find_is_Some
                  (fun s0 => String.eqb (s_id s0) (wi_serviceItemId line))
                  (serviceItems db) s Hsin) as [s' Hs'].
      { rewrite Hsid. apply String.eqb_refl. }
      exists s'. split; [done|]. apply find_some in Hs' as [Hin E].
      apply String.eqb_eq in E. split; [done|]. by apply list_elem_of_In.
Qed.

(** X14.  A job stored by a 201 under a fresh identifier can be fetched by
    that identifier from its own branch: the answer is the job as stored,
    with exactly the lines stored for it, in order, each with the washer
    and the service item it refers to.  From any other branch the same
    identifier answers 404. *)
Theorem accepted_job_can_be_fetched
    (env : Env) (b : string) (body : Body) (db db' : Store)
    (cw : CarWash) (lines : list WashedItem) :
  Ingestion.createCarWashRecord env b body db = (Created cw lines, db') ->
  FreshJob env db ->
  (exists view,
      Records.getCarWashById b (cw_id cw) db' = Ok200 view
      /\ rv_job view = cw
      /\ lv_item <$> rv_lines view = lines
      /\ Forall (fun lv =>
                   (exists w, lv_washer lv = Some w
                              /\ w_id w = wi_washerId (lv_item lv)
                              /\ w ∈ washers db)
                   /\ (exists s, lv_serviceItem lv = Some s
                                 /\ s_id s = wi_serviceItemId (lv_item lv)
                                 /\ s ∈ serviceItems db))
                (rv_lines view))
  /\ (forall b', b' <> b ->
      Records.getCarWashById b' (cw_id cw) db' = NotFound404).
Proof.
  intros H Hfresh.
  pose proof (includeRelations_new _ _ _ _ _ _ _ H Hfresh) as Hview.
  destruct Hfresh as [Hfresh _].
  apply accepted_raw_tables in H as (_ & _ & _ & Hc & _ & Hid & Hcb & _).
  assert (forall b',
            List.find (fun cw0 => String.eqb (cw_id cw0) (cw_id cw)
                                  && String.eqb (cw_branchId cw0) b')
                      (carWashes db')
            = if String.eqb b b' then Some cw else None) as Hfind.
  { intros b'. rewrite Hc, find_app.
    assert (List.find (fun cw0 => String.eqb (cw_id cw0) (cw_id cw)
                                  && String.eqb (cw_branchId cw0) b')
                      (carWashes db) = None) as ->.
    { destruct (List.find _ (carWashes db)) as [x|] eqn:E; [|done].
      apply find_some in E as [Hin E]. apply andb_true_iff in E as [E _].
      apply String.eqb_eq in E. destruct Hfresh. rewrite <- Hid, <- E.
      apply list_elem_of_fmap. exists x. by rewrite <- list_elem_of_In in Hin. }
    simpl. by rewrite String.eqb_refl, Hcb. }
  split.
  - exists (Records.includeRelations db' cw). split; [|done].
    unfold Records.getCarWashById. by rewrite Hfind, String.eqb_refl.
  - intros b' Hb'. unfold Records.getCarWashById. rewrite Hfind.
    assert (String.eqb b b' = false) as ->; [|done].
    apply String.eqb_neq. congruence.
Qed.

Lemma accepted_job_can_be_fetched_witness :
  (exists view,
      Records.getCarWashById "branch_a" "job-1" Ex2.afterA = Ok200 view
      /\ rv_job view = Ex2.jobA
      /\ lv_item <$> rv_lines view = [Ex2.lineA]
      /\ Forall (fun lv =>
                   (exists w, lv_washer lv = Some w
                              /\ w_id w = wi_washerId (lv_item lv)
                              /\ w ∈ washers Ex.dbEighth)
                   /\ (exists s, lv_serviceItem lv = Some s
                                 /\ s_id s = wi_serviceItemId (lv_item lv)
                                 /\ s ∈ serviceItems Ex.dbEighth))
                (rv_lines view))
  /\ (forall b', b' <> "branch_a" ->
      Records.getCarWashById b' "job-1" Ex2.afterA = NotFound404).
Proof.
  apply (accepted_job_can_be_fetched Ex.env "branch_a"
           (Ex.submit [Ex.line "Sam" "Full Wash"]) Ex.dbEighth Ex2.afterA
           Ex2.jobA [Ex2.lineA]).
  - vm_compute. reflexivity.
  - split; intros Hin; apply list_elem_of_singleton in Hin; discriminate.
Defined.

(** ** The washer rows, one by one and listed *)

#[local] Instance moreItems_total : Total Records.moreItems.
Proof. intros r1 r2. unfold Records.moreItems. lia. Qed.

Lemma elem_of_washer_rows (m : gmap (string * Z * string) DailySummary)
    (day : Z) (b w : string) (row : DailySummary) :
  (w, row)
  ∈ omap (fun kv : string * Z * string * DailySummary =>
            if decide (kv.1.1.2 = day /\ kv.1.2 = b)
            then Some (kv.1.1.1, kv.2) else None)
         (map_to_list m)
  <-> m !! (w, day, b) = Some row.
Proof.
  rewrite list_elem_of_omap. split.
  - intros ([[[w' d'] b'] row'] & Hin & Hf). cbn in Hf.
    destruct (decide _) as [[-> ->]|]; [|done].
    injection Hf as -> ->. by apply elem_of_map_to_list in Hin.
  - intros Hm. exists (w, day, b, row). split.
    + by apply elem_of_map_to_list.
    + cbn. by rewrite decide_True.
Qed.

Lemma NoDup_washer_rows (day : Z) (b : string)
    (l : list (string * Z * string * DailySummary)) :
  NoDup l.*1 ->
  NoDup (omap (fun kv : string * Z * string * DailySummary =>
                 if decide (kv.1.1.2 = day /\ kv.1.2 = b)
                 then Some (kv.1.1.1, kv.2) else None) l).*1.
Proof.
  induction l as [|[[[w d] b'] row] l IH]; csimpl; intros Hnd.
  { constructor. }
  apply NoDup_cons in Hnd as [Hk Hnd].
  destruct (decide _) as [[-> ->]|]; csimpl; [|by apply IH].
  apply NoDup_cons. split; [|by apply IH].
  intros Hin. apply list_elem_of_fmap in Hin as ([w' row'] & -> & Hin).
  apply list_elem_of_omap in Hin as ([[[w'' d''] b''] row''] & Hin & Hf).
  cbn in Hf. destruct (decide _) as [[-> ->]|]; [|done].
  injection Hf as -> ->. apply Hk.
  apply list_elem_of_fmap. by exists (w', day, b, row').
Qed.

(** X15.  The list of the washer rows of a branch and a day holds exactly
    the rows the aggregate table keeps for that branch and day, one per
    washer, by descending number of items.  It agrees with the endpoint
    that serves one washer's row: a row served there is in the list, and
    a listed row is served there when its washer is of the branch. *)
Theorem washer_rows_listed (env : Env) (b : string) (date : option Z)
    (db : Store) :
  let day := startOfDay env (default (now env) date) in
  let rows := Records.getAllWashersDailySummary env b date db in
  (forall w row, (w, row) ∈ rows <-> dailySummaries db !! (w, day, b) = Some row)
  /\ NoDup rows.*1
  /\ Sorted Records.moreItems rows
  /\ (forall w row,
        Records.getWasherDailySummary env b w date db = Ok200 row ->
        (w, row) ∈ rows)
  /\ (forall w row w0,
        (w, row) ∈ rows ->
        w0 ∈ washers db -> w_id w0 = w -> w_branchId w0 = b ->
        Records.getWasherDailySummary env b w date db = Ok200 row).
Proof.
  intros day rows.
  assert (forall w row,
            (w, row) ∈ rows <-> dailySummaries db !! (w, day, b) = Some row)
    as Hrows.
  { intros w row. unfold rows, Records.getAllWashersDailySummary.
    rewrite merge_sort_Permutation. apply elem_of_washer_rows. }
  split; [done|]. split; [|split; [|split]].
  - unfold rows, Records.getAllWashersDailySummary.
    rewrite merge_sort_Permutation.
    apply NoDup_washer_rows, NoDup_fst_map_to_list.
  - apply (Sorted_merge_sort _).
  - intros w row. unfold Records.getWasherDailySummary. fold day.
    destruct (List.find _ (washers db)); [|done].
    destruct (dailySummaries db !! (w, day, b)) as [row'|] eqn:E; [|done].
    intros [= <-]. by apply Hrows.
  - intros w row w0 Hin Hw0 Hid Hb. apply Hrows in Hin.
    unfold Records.getWasherDailySummary. fold day.
    destruct (find_is_Some
                (fun w' => String.eqb (w_id w') w && String.eqb (w_branchId w') b)
                (washers db) w0 Hw0) as [w' ->].
    { by rewrite Hid, Hb, !String.eqb_refl. }
    by rewrite Hin.
Qed.

(** A washer credited by a 201 has a row for today. *)
Lemma credited_row_exists
    (env : Env) (b : string) (body : Body) (db db' : Store)
    (cw : CarWash) (lines : list WashedItem) (w : string) :
  Ingestion.createCarWashRecord env b body db = (Created cw lines, db') ->
  w ∈ wi_washerId <$> lines ->
  is_Some (dailySummaries db' !! (w, startOfDay env (now env), b)).
Proof.
  intros H Hw.
  apply createCarWashRecord_Created in H as (its & iwis & Hits & Hmap & Htx).
  pose proof (transaction_lines _ _ _ _ _ _ _ _ _ _ Htx) as (Hids & _).
  apply transaction_store in Htx as (_ & _ & _ & _ & _ & _ & Hd).
  rewrite Hd, updateDailySummaries_lookup by apply NoDup_uniq.
  rewrite decide_True; [by eexists|].
  rewrite elem_of_uniq. by rewrite Hids in Hw.
Qed.

(** X16.  After a 201 every washer credited on the job is served a row
    for today by the washer summary endpoint of the branch, and is in the
    list of the branch's washer rows for today.  The row's item counter is
    the washer's earlier counter, 0 when there was no row, plus the number
    of lines of the job credited to the washer. *)
Theorem credited_washer_row_served
    (env : Env) (b : string) (body : Body) (db db' : Store)
    (cw : CarWash) (lines : list WashedItem) (w : string) :
  Ingestion.createCarWashRecord env b body db = (Created cw lines, db') ->
  w ∈ wi_washerId <$> lines ->
  exists row,
    Records.getWasherDailySummary env b w None db' = Ok200 row
    /\ (w, row) ∈ Records.getAllWashersDailySummary env b None db'
    /\ ds_totalItemsWashed row
       = itemCounter db w (startOfDay env (now env)) b + linesCredited w lines.
Proof.
  intros H Hw.
  destruct (credited_row_exists _ _ _ _ _ _ _ w H Hw) as [row Hrow].
  pose proof (itemCounter_after _ _ _ _ _ _ _ w H) as Hcount.
  destruct (accepted_lines_washers _ _ _ _ _ _ _ H w Hw)
    as (w0 & Hin & Hb & _ & Hid).
  apply accepted_raw_tables in H as (_ & Hws & _).
  exists row.
  assert (Records.getWasherDailySummary env b w None db' = Ok200 row) as Hone.
  { unfold Records.getWasherDailySummary. cbn [default]. rewrite Hws.
    destruct (find_is_Some
                (fun w' => String.eqb (w_id w') w && String.eqb (w_branchId w') b)
                (washers db) w0 Hin) as [w' ->].
    { by rewrite Hid, Hb, !String.eqb_refl. }
    by rewrite Hrow. }
  split; [done|]. split.
  - unfold Records.getAllWashersDailySummary.
    rewrite merge_sort_Permutation. by apply elem_of_washer_rows.
  - unfold itemCounter in Hcount at 1. by rewrite Hrow in Hcount.
Qed.

Lemma credited_washer_row_served_witness :
  exists row,
    Records.getWasherDailySummary Ex.env "branch_a" "w-sam" None Ex2.afterA
    = Ok200 row
    /\ (("w-sam", row)
        ∈ Records.getAllWashersDailySummary Ex.env "branch_a" None Ex2.afterA)
    /\ ds_totalItemsWashed row
       = itemCounter Ex.dbEighth "w-sam" (startOfDay Ex.env (now Ex.env))
                     "branch_a"
         + linesCredited "w-sam" [Ex2.lineA].
Proof.
  apply (credited_washer_row_served Ex.env "branch_a"
           (Ex.submit [Ex.line "Sam" "Full Wash"]) Ex.dbEighth Ex2.afterA
           Ex2.jobA [Ex2.lineA] "w-sam").
  - vm_compute. reflexivity.
  - apply list_elem_of_singleton. reflexivity.
Defined.

(** ** Listing the jobs of today *)

(** The views of the earlier jobs are not changed by a 201. *)
Lemma includeRelations_old (env : Env) (b : string) (body : Body)
    (db db' : Store) (cw : CarWash) (lines : list WashedItem) (cw0 : CarWash) :
  Ingestion.createCarWashRecord env b body db = (Created cw lines, db') ->
  FreshJob env db ->
  cw0 ∈ carWashes db ->
  Records.includeRelations db' cw0 = Records.includeRelations db cw0.
Proof.
  intros H [Hfresh _] Hin.
  apply accepted_raw_tables in H
    as (Hb & Hw & Hs & _ & Hi & _ & _ & _ & Hlines).
  unfold Records.includeRelations. rewrite Hb, Hw, Hs, Hi. f_equal.
  rewrite List.filter_app.
  rewrite (proj2 (filter_nil_inv _ lines)); [by rewrite app_nil_r|].
  intros line Hline. rewrite Forall_forall in Hlines.
  destruct (Hlines line Hline) as [-> _].
  apply String.eqb_neq. intros E. apply Hfresh. rewrite E.
  apply list_elem_of_fmap. by exists cw0.
Qed.

Lemma map_ext_elem_of {A B} (f g : A -> B) (l : list A) :
  (forall x, x ∈ l -> f x = g x) -> map f l = map g l.
Proof.
  intros H. apply map_ext_in. intros x Hx. apply H. by apply list_elem_of_In.
Qed.

(** X17.  After a 201 under a fresh job identifier the list of today's
    jobs of the branch, unfiltered or filtered by a washer credited on the
    job, is the list there was with the view of the new job added: the
    earlier views are unchanged and the count is raised by one. *)
Theorem accepted_job_is_listed
    (env : Env) (b : string) (body : Body) (db db' : Store)
    (cw : CarWash) (lines : list WashedItem) (washerId : option string) :
  Ingestion.createCarWashRecord env b body db = (Created cw lines, db') ->
  FreshJob env db ->
  (forall w, washerId = Some w -> w ∈ wi_washerId <$> lines) ->
  exists old new,
    Records.getCarWashRecords env b None washerId db
    = Ok200 (old, Z.of_nat (length old))
    /\ Records.getCarWashRecords env b None washerId db'
       = Ok200 (new, Z.of_nat (length old) + 1)
    /\ new ≡ₚ Records.includeRelations db' cw :: old.
Proof.
  intros H Hfresh Hcred.
  pose proof (today_contains_now env) as [Hlo Hhi].
  apply Z.leb_le in Hlo, Hhi.
  assert (forall p : CarWash -> bool,
            p cw = true ->
            let old := @merge_sort _ Records.later Records.later_dec
                         (map (Records.includeRelations db)
                              (List.filter p (carWashes db))) in
            let new := @merge_sort _ Records.later Records.later_dec
                         (map (Records.includeRelations db')
                              (List.filter p (carWashes db'))) in
            Z.of_nat (length new) = Z.of_nat (length old) + 1
            /\ new ≡ₚ Records.includeRelations db' cw :: old) as Hstep.
  { intros p Hp old new.
    assert (new ≡ₚ Records.includeRelations db' cw :: old) as Hperm.
    { unfold new, old. rewrite !merge_sort_Permutation.
      pose proof (accepted_raw_tables _ _ _ _ _ _ _ H)
        as (_ & _ & _ & Hc & _).
      rewrite Hc, List.filter_app, List.map_app. cbn [List.filter].
      rewrite Hp. cbn [map].
      rewrite <- Permutation_cons_append. constructor.
      apply eq_subrelation; [apply _|]. apply map_ext_elem_of.
      intros cw0 Hcw0. apply (includeRelations_old env b body db db' cw lines);
        [done|done|].
      apply list_elem_of_In, filter_In in Hcw0 as [Hcw0 _].
      by apply list_elem_of_In. }
    split; [|done]. rewrite (Permutation_length Hperm). simpl length. lia. }
  pose proof (accepted_raw_tables _ _ _ _ _ _ _ H)
    as (_ & Hws & _ & _ & _ & _ & Hcb & Hdate & _).
  assert (String.eqb (cw_branchId cw) b
          && (startOfDay env (now env) <=? cw_washDate cw)
          && (cw_washDate cw <=? endOfDay env (now env)) = true) as Hday.
  { by rewrite Hcb, Hdate, String.eqb_refl, Hlo, Hhi. }
  unfold Records.getCarWashRecords. cbn [default].
  assert (forall w, washerId = Some w ->
            is_Some (List.find
                       (fun w0 => String.eqb (w_id w0) w
                                  && String.eqb (w_branchId w0) b)
                       (washers db))
            /\ JS.arrayIncludes (cw_washers cw) w = true) as Hw.
  { intros w ->. specialize (Hcred w eq_refl).
    destruct (accepted_lines_washers _ _ _ _ _ _ _ H w Hcred)
      as (w0 & Hin & Hb & _ & Hid).
    split.
    - apply (find_is_Some _ _ w0 Hin). by rewrite Hid, Hb, !String.eqb_refl.
    - apply arrayIncludes_spec.
      apply createCarWashRecord_Created in H as (its & iwis & _ & _ & Htx).
      apply transaction_lines in Htx as (Hids & _ & _ & -> & _).
      apply elem_of_uniq. by rewrite Hids in Hcred. }
  destruct washerId as [w|].
  - destruct (JS.truthyStr w) eqn:Ht.
    + destruct (Hw w eq_refl) as [[w0 Hfind] Hinc].
      rewrite Hws, Hfind.
      match goal with
      | |- context [List.filter ?p (carWashes db)] =>
          destruct (Hstep p) as [Hlen Hperm]; [by rewrite Hday, Hinc|]
      end.
      eexists _, _. split; [reflexivity|]. split; [|exact Hperm].
      exact (f_equal (fun n => Ok200 (_, n)) Hlen).
    + match goal with
      | |- context [List.filter ?p (carWashes db)] =>
          destruct (Hstep p) as [Hlen Hperm]; [exact Hday|]
      end.
      eexists _, _. split; [reflexivity|]. split; [|exact Hperm].
      exact (f_equal (fun n => Ok200 (_, n)) Hlen).
  - match goal with
    | |- context [List.filter ?p (carWashes db)] =>
        destruct (Hstep p) as [Hlen Hperm]; [exact Hday|]
    end.
    eexists _, _. split; [reflexivity|]. split; [|exact Hperm].
    exact (f_equal (fun n => Ok200 (_, n)) Hlen).
Qed.

Lemma accepted_job_is_listed_witness :
  exists old new,
    Records.getCarWashRecords Ex.env "branch_a" None (Some "w-sam") Ex.dbEighth
    = Ok200 (old, Z.of_nat (length old))
    /\ Records.getCarWashRecords Ex.env "branch_a" None (Some "w-sam") Ex2.afterA
       = Ok200 (new, Z.of_nat (length old) + 1)
    /\ new ≡ₚ Records.includeRelations Ex2.afterA Ex2.jobA :: old.
Proof.
  apply (accepted_job_is_listed Ex.env "branch_a"
           (Ex.submit [Ex.line "Sam" "Full Wash"]) Ex.dbEighth Ex2.afterA
           Ex2.jobA [Ex2.lineA] (Some "w-sam")).
  - vm_compute. reflexivity.
  - split; intros Hin; apply list_elem_of_singleton in Hin; discriminate.
  - intros w [= <-]. apply list_elem_of_singleton. reflexivity.
Defined.

#[local] Instance later_total : Total Records.later.
Proof. intros r1 r2. unfold Records.later. lia. Qed.

(** X18.  A list of jobs answered to a branch holds only jobs of that
    branch and of the day asked for, latest first, each with the lines
    that refer to it, and its count is the length of the list.  When the
    request names a washer, every job listed is linked to that washer. *)
Theorem job_listing_is_scoped (env : Env) (b : string) (date : option Z)
    (washerId : option string) (db : Store)
    (records : list RecordView) (count : Z) :
  Records.getCarWashRecords env b date washerId db = Ok200 (records, count) ->
  count = Z.of_nat (length records)
  /\ Sorted Records.later records
  /\ Forall
       (fun view =>
          rv_job view ∈ carWashes db
          /\ view = Records.includeRelations db (rv_job view)
          /\ cw_branchId (rv_job view) = b
          /\ startOfDay env (default (now env) date)
             <= cw_washDate (rv_job view)
             <= endOfDay env (default (now env) date)
          /\ Forall (fun lv => wi_carWashId (lv_item lv) = cw_id (rv_job view))
                    (rv_lines view)
          /\ (forall w, washerId = Some w -> w <> "" ->
              w ∈ cw_washers (rv_job view)))
       records.
Proof.
  intros H.
  assert (exists p : CarWash -> bool,
             records = @merge_sort _ Records.later Records.later_dec
                         (map (Records.includeRelations db)
                              (List.filter p (carWashes db)))
             /\ count = Z.of_nat (length records)
             /\ forall cw, p cw = true ->
                  cw_branchId cw = b
                  /\ startOfDay env (default (now env) date)
                     <= cw_washDate cw
                     <= endOfDay env (default (now env) date)
                  /\ (forall w, washerId = Some w -> w <> "" ->
                      w ∈ cw_washers cw)) as (p & -> & -> & Hp).
  { unfold Records.getCarWashRecords in H.
    assert (forall cw,
              String.eqb (cw_branchId cw) b
              && (startOfDay env (default (now env) date) <=? cw_washDate cw)
              && (cw_washDate cw <=? endOfDay env (default (now env) date))
              = true ->
              cw_branchId cw = b
              /\ startOfDay env (default (now env) date)
                 <= cw_washDate cw
                 <= endOfDay env (default (now env) date)) as Hday.
    { intros cw E. apply andb_true_iff in E as [E E3].
      apply andb_true_iff in E as [E1 E2].
      apply String.eqb_eq in E1. apply Z.leb_le in E2, E3. done. }
    destruct washerId as [w|].
    - destruct (JS.truthyStr w) eqn:Ht.
      + destruct (List.find _ (washers db)); [|discriminate].
        injection H as <- <-. eexists. split; [reflexivity|]. split; [done|].
        intros cw E. apply andb_true_iff in E as [E E4].
        apply Hday in E as (? & ?). split; [done|]. split; [done|].
        intros w' [= <-] _. by apply arrayIncludes_spec.
      + injection H as <- <-. eexists. split; [reflexivity|]. split; [done|].
        intros cw E. apply Hday in E as (? & ?). split; [done|]. split; [done|].
        intros w' [= <-] Hne. by destruct w.
    - injection H as <- <-. eexists. split; [reflexivity|]. split; [done|].
      intros cw E. apply Hday in E as (? & ?). split; [done|]. split; [done|].
      intros w' [=]. }
  split; [done|]. split; [apply (Sorted_merge_sort _)|].
  rewrite merge_sort_Permutation. apply Forall_forall. intros view Hview.
  apply list_elem_of_fmap in Hview as (cw & -> & Hcw).
  apply list_elem_of_In, filter_In in Hcw as [Hin Hcw].
  apply list_elem_of_In in Hin. apply Hp in Hcw as (Hb & Hd & Hw).
  cbn [Records.includeRelations rv_job rv_lines].
  split; [done|]. split; [done|]. split; [done|]. split; [done|].
  split; [|done].
  apply Forall_fmap, Forall_forall. intros wi Hwi. cbn.
  apply list_elem_of_In, filter_In in Hwi as [_ E]. by apply String.eqb_eq.
Qed.

Lemma job_listing_is_scoped_witness :
  exists records,
    Records.getCarWashRecords Ex.env "branch_a" None (Some "w-sam") Ex2.afterA
    = Ok200 (records, 1)
    /\ 1 = Z.of_nat (length records)
    /\ Forall (fun view => cw_branchId (rv_job view) = "branch_a") records.
Proof.
  eexists. split; [vm_compute; reflexivity|].
  match goal with
  | |- _ /\ Forall _ ?records =>
      destruct (job_listing_is_scoped Ex.env "branch_a" None (Some "w-sam")
                  Ex2.afterA records 1)
        as (Hcount & _ & Hall)
  end.
  - vm_compute. reflexivity.
  - split; [exact Hcount|].
    eapply Forall_impl; [exact Hall|]. by intros view (_ & _ & Hb & _).
Defined.


Lemma daily_totals_are_company_totals_witness :
  exists r,
    Payments.getDailyPaymentSummary Ex.env "branch_a" None Ex2.afterA = Some r
    /\ pt_totalSales r.1
       = pt_totalSales
           (Payments.getCompanyPaymentSummary Ex.env "branch_a" None
              Ex2.afterA).1
    /\ pt_totalCarsWashed r.1 = 2.
Proof.
  eexists. split; [vm_compute; reflexivity|].
  split; [|reflexivity].
  match goal with
  | |- pt_totalSales (fst ?r) = _ =>
      apply (daily_totals_are_company_totals Ex.env "branch_a" None
               Ex2.afterA r)
  end.
  vm_compute. reflexivity.
Defined.

(** ** The rows of the daily payment summary *)

Lemma washerUpd_fold_items (g : list Joined) :
  forall w,
    wp_items (fold_left (fun v x => washerUpd x v) g w)
    = (wp_items w ++ map paidItemOf g)%list
    /\ wp_washerId (fold_left (fun v x => washerUpd x v) g w) = wp_washerId w
    /\ wp_itemsWashed (fold_left (fun v x => washerUpd x v) g w)
       = wp_itemsWashed w + Z.of_nat (length g).
Proof.
  induction g as [|x g IH]; intros w; cbn [fold_left map length].
  - rewrite app_nil_r. split; [done|]. split; [done|]. lia.
  - destruct (IH (washerUpd x w)) as (H1 & H2 & H3).
    rewrite H1, H2, H3. cbn [washerUpd wp_items wp_washerId wp_itemsWashed].
    rewrite <- app_assoc. split; [done|]. split; [done|]. lia.
Qed.

(** An entry of the dictionary of the daily payment loop. *)
Lemma washer_entry (lines : list Joined) (k : string) (v : WasherPayment) :
  (k, v) ∈ fold_left (groupStep washerIdOf washerZero washerUpd) lines [] ->
  wp_washerId v = k
  /\ wp_itemsWashed v = Z.of_nat (length (groupOf washerIdOf k lines))
  /\ wp_items v = map paidItemOf (groupOf washerIdOf k lines).
Proof.
  intros Hkv. apply grouping_entry in Hkv as (x0 & g & Hg & ->).
  change (fold_left (fun v x => washerUpd x v) g (washerUpd x0 (washerZero x0)))
    with (fold_left (fun v x => washerUpd x v) (x0 :: g) (washerZero x0)).
  rewrite <- Hg.
  destruct (washerUpd_fold_items (groupOf washerIdOf k lines) (washerZero x0))
    as (H1 & H2 & H3).
  rewrite H1, H2, H3. cbn [washerZero wp_items wp_washerId wp_itemsWashed app].
  split; [|done].
  apply (groupOf_key washerIdOf k lines). rewrite Hg. apply elem_of_cons. by left.
Qed.

Lemma map_snd_by_key {V B} (d : list (string * V)) (g : V -> B)
    (h : string -> B) :
  (forall k v, (k, v) ∈ d -> g v = h k) ->
  map g (map snd d) = map h (map fst d).
Proof.
  induction d as [|[k v] d IH]; intros H; cbn [map fst snd]; [done|].
  rewrite (H k v) by (apply elem_of_cons; by left). f_equal.
  apply IH. intros k' v' Hin. apply H, elem_of_cons. by right.
Qed.

(** The rows of the daily payment summary, up to their order. *)
Lemma dailyPayment_rows (env : Env) (b : string) (date : option Z)
    (db : Store) (r : PaymentTotals * list WasherPayment) :
  Payments.getDailyPaymentSummary env b date db = Some r ->
  pt_totalItemsWashed r.1 = Z.of_nat (length (linesOfDay env b date db))
  /\ r.2
     ≡ₚ map (fun v : WasherPayment =>
               {| wp_washerId := wp_washerId v;
                  wp_washerName := wp_washerName v;
                  wp_washerPhone := wp_washerPhone v;
                  wp_totalAmount := round2 (wp_totalAmount v);
                  wp_washerEarnings := round2 (wp_washerEarnings v);
                  wp_companyEarnings := round2 (wp_companyEarnings v);
                  wp_itemsWashed := wp_itemsWashed v;
                  wp_carsWashed := wp_carsWashed v;
                  wp_items := wp_items v |})
            (map snd (fold_left (groupStep washerIdOf washerZero washerUpd)
                                (linesOfDay env b date db) [])).
Proof.
  unfold Payments.getDailyPaymentSummary.
  fold (linesOfDay env b date db).
  destruct (mapM j_washer (linesOfDay env b date db)); [|discriminate].
  match goal with
  | |- context [fold_left ?f (linesOfDay env b date db) ?i] =>
      pose proof (fold_left_proj f (groupStep washerIdOf washerZero washerUpd)
                    (fun t => t.1.1.1.1)
                    (fun t a => match t with (_, _, _, _, _) => eq_refl end)
                    (linesOfDay env b date db) i) as Hp;
      destruct (fold_left f (linesOfDay env b date db) i)
        as [[[[ws tce] twe] ts] cars]
  end.
  cbn [fst] in Hp. subst ws. intros [= <-]. cbn [fst snd pt_totalItemsWashed].
  split; [done|]. apply sort_Permutation.
Qed.

(** X19.  The rows of the daily payment summary split the lines of the
    day by credited washer: there is one row per washer credited on a
    line; a row lists exactly the lines credited to its washer, in order,
    and its item count is their number; so the item counts of the rows
    add up to the number of items the summary reports. *)
Theorem daily_rows_split_the_lines (env : Env) (b : string)
    (date : option Z) (db : Store) (r : PaymentTotals * list WasherPayment) :
  Payments.getDailyPaymentSummary env b date db = Some r ->
  let lines := linesOfDay env b date db in
  map wp_washerId r.2 ≡ₚ JS.uniq (map washerIdOf lines)
  /\ NoDup (map wp_washerId r.2)
  /\ (forall wp, wp ∈ r.2 ->
        wp_items wp = map paidItemOf (groupOf washerIdOf (wp_washerId wp) lines)
        /\ wp_itemsWashed wp = Z.of_nat (length (wp_items wp))
        /\ 0 < wp_itemsWashed wp)
  /\ sumZ (map wp_itemsWashed r.2) = pt_totalItemsWashed r.1.
Proof.
  intros H lines.
  apply dailyPayment_rows in H as [Htotal Hperm]. fold lines in Htotal, Hperm.
  set (dict := fold_left (groupStep washerIdOf washerZero washerUpd) lines [])
    in *.
  assert (map wp_washerId r.2 ≡ₚ JS.uniq (map washerIdOf lines)) as Hids.
  { rewrite Hperm, map_map. rewrite (map_ext _ wp_washerId) by done.
    rewrite (map_snd_by_key dict wp_washerId id).
    - rewrite map_id. unfold dict.
      change (map fst ?l) with (l.*1). by rewrite grouping_keys.
    - intros k v Hkv. by apply washer_entry in Hkv as [-> _]. }
  split; [done|]. split; [|split].
  - rewrite Hids. apply NoDup_uniq.
  - intros wp Hwp. rewrite Hperm in Hwp.
    apply list_elem_of_fmap in Hwp as (v & -> & Hv).
    apply list_elem_of_fmap in Hv as ([k v'] & -> & Hkv).
    cbn [snd wp_items wp_washerId wp_itemsWashed].
    pose proof Hkv as Hkv'. apply grouping_entry in Hkv' as (x0 & g & Hg & _).
    apply washer_entry in Hkv as (-> & -> & ->).
    rewrite length_map, Hg. split; [done|]. split; [done|]. simpl length. lia.
  - rewrite (sumZ_Permutation _ _ (Permutation_map wp_itemsWashed Hperm)).
    rewrite map_map. rewrite (map_ext _ wp_itemsWashed) by done.
    rewrite (map_snd_by_key dict wp_itemsWashed
               (fun k => Z.of_nat (length (groupOf washerIdOf k lines)))).
    + unfold dict at 1. change (map fst ?l) with (l.*1).
      rewrite grouping_keys, count_by_key; [done|apply NoDup_uniq|].
      intros x Hx. apply elem_of_uniq, list_elem_of_fmap. eauto.
    + intros k v Hkv. by apply washer_entry in Hkv as (_ & -> & _).
Qed.

Lemma daily_rows_split_the_lines_witness :
  exists r,
    Payments.getDailyPaymentSummary Ex.env "branch_a" None Ex2.afterA = Some r
    /\ sumZ (map wp_itemsWashed r.2) = pt_totalItemsWashed r.1
    /\ pt_totalItemsWashed r.1 = 2.
Proof.
  eexists. split; [vm_compute; reflexivity|].
  split; [|reflexivity].
  match goal with
  | |- sumZ (map wp_itemsWashed (snd ?r)) = _ =>
      apply (daily_rows_split_the_lines Ex.env "branch_a" None Ex2.afterA r)
  end.
  vm_compute. reflexivity.
Defined.

(** ** Cash and transfer *)

Lemma paymentMethods_fold (l : list CarWash) :
  forall pm,
    fold_left
      (fun pm record =>
         match cw_paymentMethod record with
         | Some m =>
             if JS.truthyStr m then
               if String.eqb (JS.toLowerCase m) "cash"
               then {| pm_cash := (pm_cash pm + cw_totalAmount record)%float;
                       pm_transfer := pm_transfer pm |}
               else if String.eqb (JS.toLowerCase m) "transfer"
               then {| pm_cash := pm_cash pm;
                       pm_transfer :=
                         (pm_transfer pm + cw_totalAmount record)%float |}
               else pm
             else pm
         | None => pm
         end)
      l pm
    = {| pm_cash :=
           fold_left PrimFloat.add
             (map cw_totalAmount (List.filter (paidBy "cash") l)) (pm_cash pm);
         pm_transfer :=
           fold_left PrimFloat.add
             (map cw_totalAmount (List.filter (paidBy "transfer") l))
             (pm_transfer pm) |}.
Proof.
  induction l as [|cw l IH]; intros pm; cbn [fold_left].
  { by destruct pm. }
  rewrite IH. cbn [List.filter]. unfold paidBy.
  destruct (cw_paymentMethod cw) as [m|]; [|reflexivity].
  destruct (JS.truthyStr m) eqn:Ht.
  - destruct (String.eqb (JS.toLowerCase m) "cash") eqn:Ec.
    + apply String.eqb_eq in Ec. rewrite Ec. reflexivity.
    + destruct (String.eqb (JS.toLowerCase m) "transfer"); reflexivity.
  - destruct m; [reflexivity | discriminate].
Qed.

(** X20.  The cash total of the company summary of a day is the sum,
    rounded to two decimals, of the total amounts of the jobs of the day
    recorded as paid in cash, whatever the case of the recorded method,
    and likewise the transfer total; a job recorded with no method, or
    with another one, counts in neither. *)
Theorem payment_method_totals (env : Env) (b : string) (date : option Z)
    (db : Store) :
  bs_paymentMethods (Summary.getCompanyDailySummary env b date db)
  = {| pm_cash :=
         round2 (sumF (map cw_totalAmount
                         (List.filter (paidBy "cash")
                                      (jobsOfDay env b date db))));
       pm_transfer :=
         round2 (sumF (map cw_totalAmount
                         (List.filter (paidBy "transfer")
                                      (jobsOfDay env b date db)))) |}.
Proof.
  unfold Summary.getCompanyDailySummary. cbv zeta. cbn [bs_paymentMethods].
  fold (jobsOfDay env b date db). rewrite paymentMethods_fold.
  reflexivity.
Qed.

(** ** A day without jobs *)

Lemma quiet_day_lines (env : Env) (b : string) (date : option Z) (db : Store) :
  jobsOfDay env b date db = [] -> linesOfDay env b date db = [].
Proof.
  intros Hjobs. destruct (linesOfDay env b date db) as [|j l] eqn:E; [done|].
  assert (j ∈ linesOfDay env b date db) as Hj.
  { rewrite E. apply elem_of_cons. by left. }
  apply line_job_in_day in Hj. fold (jobsOfDay env b date db) in Hj.
  rewrite Hjobs in Hj. by apply elem_of_nil in Hj.
Qed.

(** X21.  For a day on which the branch has no job, the three company
    reports answer with zeros and empty lists: no amount, no job, no
    item, no row. *)
Theorem quiet_day_reports_zero (env : Env) (b : string) (date : option Z)
    (db : Store) :
  jobsOfDay env b date db = [] ->
  Summary.getCompanyDailySummary env b date db
  = {| bs_summary :=
         {| t_totalEarnings := 0; t_companyShare := 0; t_workerShare := 0;
            t_totalJobs := 0; t_totalItemsWashed := 0 |};
       bs_itemsWashed := [];
       bs_paymentMethods := {| pm_cash := 0; pm_transfer := 0 |} |}
  /\ Payments.getCompanyPaymentSummary env b date db
     = ({| pt_totalSales := 0; pt_companyEarnings := 0;
           pt_washerEarnings := 0; pt_totalCarsWashed := 0;
           pt_totalItemsWashed := 0 |},
        {| pm_cash := 0; pm_transfer := 0 |})
  /\ Payments.getDailyPaymentSummary env b date db
     = Some ({| pt_totalSales := 0; pt_companyEarnings := 0;
                pt_washerEarnings := 0; pt_totalCarsWashed := 0;
                pt_totalItemsWashed := 0 |}, []).
Proof.
  intros Hjobs. pose proof (quiet_day_lines env b date db Hjobs) as Hlines.
  unfold jobsOfDay in Hjobs. unfold linesOfDay in Hlines.
  unfold Summary.getCompanyDailySummary, Payments.getCompanyPaymentSummary,
    Payments.getDailyPaymentSummary.
  rewrite Hjobs, Hlines. repeat split; vm_compute; reflexivity.
Qed.

Lemma quiet_day_reports_zero_witness :
  t_totalJobs
    (bs_summary (Summary.getCompanyDailySummary Ex.env "branch_a" None Ex.db))
  = 0.
Proof.
  destruct (quiet_day_reports_zero Ex.env "branch_a" None Ex.db) as [-> _];
    reflexivity.
Defined.

(** ** Submissions that pass the checks *)

Lemma serviceItemMapOf_absent (db : Store) (its : list ItemReq) (name : string) :
  (forall s, ~ ActiveService db name s) ->
  serviceItemMapOf db its !! name = None.
Proof.
  intros Hno. destruct (serviceItemMapOf db its !! name) as [d|] eqn:E; [|done].
  apply serviceItemMapOf_Some in E as (s & Hs & _). by destruct (Hno s).
Qed.

(** What a submission that passes the checks is answered with: a 500
    when one of its lines cannot be resolved or the transaction fails,
    and a 201 otherwise. *)
Lemma passes_checks_runs (env : Env) (b : string) (body : Body) (db : Store) :
  (forall w, w ∈ washers db -> w_id w <> "") ->
  NoDup (map s_name (serviceItems db)) ->
  PassesChecks db b body ->
  exists its,
    items body = Some its
    /\ Ingestion.createCarWashRecord env b body db
       = match mapM (Ingestion.toItemWithIds (Ingestion.findIdowu db b)
                       (washerMapOf db b its) (serviceItemMapOf db its)) its with
         | None => (ServerError, db)
         | Some iwis =>
             match Ingestion.transaction env b body iwis
                     (sumF (map price iwis))
                     (JS.uniq (map washerId iwis)) db with
             | None => (ServerError, db)
             | Some (cw, lines, db') => (Created cw lines, db')
             end
         end.
Proof.
  intros Hids Hnd (its & Hits & Hne & Hpm & Hid & Hw & Hs).
  exists its. split; [done|].
  unfold Ingestion.createCarWashRecord. rewrite Hits.
  destruct its as [|it0 its]; [done|].
  fold (washerMapOf db b (it0 :: its)).
  fold (serviceItemMapOf db (it0 :: its)).
  apply paymentMethod_check in Hpm. rewrite Hpm.
  apply idowu_check in Hid. rewrite Hid.
  assert (List.filter (Ingestion.noWasher (washerMapOf db b (it0 :: its)))
            (JS.uniq (map washerName (it0 :: its))) = []) as Hw'.
  { rewrite (missingWashers_spec db b _ Hids). apply filter_nil_inv.
    intros name Hname.
    apply elem_of_uniq, list_elem_of_fmap in Hname as (item & -> & Hin).
    destruct (Hw item Hin) as [Hact|Hinh].
    - apply hasActiveWasher_spec in Hact. by rewrite Hact.
    - apply inheritedName_spec in Hinh. rewrite Hinh. apply andb_false_r. }
  rewrite (proj2 (nonempty_check_false _) Hw').
  assert (forall item, item ∈ it0 :: its ->
            match JS.get (serviceItemMapOf db (it0 :: its))
                         (serviceItemName item) with
            | JS.Own d =>
                PrimFloat.eqb d.2 0 = true -> customPriceGiven (customPrice item)
            | JS.Inherited => True
            | JS.Absent => False
            end) as Hget.
  { intros item Hin. destruct (Hs item Hin) as [(s & Hact & Hprice)|[Hno Hinh]].
    - pose proof Hact as (_ & _ & Hn).
      assert (serviceItemMapOf db (it0 :: its) !! serviceItemName item
              = Some (s_id s, s_price s)) as Hl.
      { rewrite <- Hn. apply serviceItemMapOf_lookup; [done| |by rewrite Hn].
        rewrite Hn. apply list_elem_of_fmap. eauto. }
      by rewrite (proj2 (get_Own _ _ _) Hl).
    - unfold JS.get. rewrite (serviceItemMapOf_absent _ _ _ Hno).
      apply inheritedName_spec in Hinh. by rewrite Hinh. }
  assert (List.filter
            (Ingestion.noServiceItem (serviceItemMapOf db (it0 :: its)))
            (JS.uniq (map serviceItemName (it0 :: its))) = []) as Hsv.
  { apply filter_nil_inv. intros name Hname.
    apply elem_of_uniq, list_elem_of_fmap in Hname as (item & -> & Hin).
    specialize (Hget item Hin). unfold Ingestion.noServiceItem.
    by destruct (JS.get _ _). }
  rewrite (proj2 (nonempty_check_false _) Hsv).
  assert (Ingestion.itemsWithMissingPrices
            (serviceItemMapOf db (it0 :: its)) (it0 :: its) = Some []) as ->.
  { by apply itemsWithMissingPrices_nil, Forall_forall. }
  by rewrite (proj2 (nonempty_check_false (@nil string)) eq_refl).
Qed.

Lemma Acceptable_PassesChecks (db : Store) (b : string) (body : Body) :
  Acceptable db b body -> PassesChecks db b body.
Proof.
  intros (its & Hits & Hne & Hpm & Hid & Hw & Hs).
  exists its. repeat split; try done.
  - intros item Hin. destruct (Hw item Hin) as [?|[? _]]; [by left | by right].
  - intros item Hin. left. by apply Hs.
Qed.

(** Every line of an acceptable submission can be resolved. *)
Lemma acceptable_resolves (db : Store) (b : string) (body : Body)
    (its : list ItemReq) :
  NoDup (map s_name (serviceItems db)) ->
  Acceptable db b body -> items body = Some its ->
  is_Some (mapM (Ingestion.toItemWithIds (Ingestion.findIdowu db b)
                   (washerMapOf db b its) (serviceItemMapOf db its)) its).
Proof.
  intros Hnd (its' & Hits & Hne & Hpm & Hid & Hw & Hs) Hits'.
  assert (its' = its) as -> by congruence.
  apply mapM_is_Some, Forall_forall. intros item Hin.
  destruct (Hs item Hin) as (s & Hact & Hprice).
  pose proof Hact as (_ & _ & Hn).
  assert (serviceItemMapOf db its !! serviceItemName item
          = Some (s_id s, s_price s)) as Hl.
  { rewrite <- Hn. apply serviceItemMapOf_lookup; [done| |by rewrite Hn].
    rewrite Hn. apply list_elem_of_fmap. eauto. }
  unfold compose, Ingestion.toItemWithIds.
  rewrite (proj2 (get_Own _ _ _) Hl).
  cbn [fst snd]. cbv zeta.
  assert (is_Some (if PrimFloat.eqb (s_price s) 0
                      && JS.truthy (customPrice item)
                   then JS.parseFloat (customPrice item)
                   else Some (s_price s))) as [p ->].
  { destruct (PrimFloat.eqb (s_price s) 0) eqn:E; [|by eexists].
    destruct (Hprice eq_refl) as [Ht Hle]. rewrite Ht. simpl.
    by apply customPriceGiven_parsed. }
  destruct (RecordController.isSpecialItem (serviceItemName item)) eqn:Esp.
  - destruct Hid as [w Hw'].
    { exists item. split; [done|]. by apply isSpecialItem_spec. }
    destruct (Ingestion.findIdowu db b) as [w'|] eqn:E; [by eexists|].
    rewrite findIdowu_None in E. by destruct (E w).
  - destruct (Hw item Hin) as [Hwa|[_ Hsp]].
    + apply hasActiveWasher_spec in Hwa.
      apply (washerMapOf_is_Some db b its) in Hwa as [id Hid'].
      * rewrite (proj2 (get_Own _ _ _) Hid'). by eexists.
      * apply elem_of_uniq, list_elem_of_fmap. eauto.
    + apply isSpecialItem_spec in Hsp. congruence.
Qed.

(** A line that cannot be stored cannot be resolved. *)
Lemma unstorable_unresolved (db : Store) (b : string) (its : list ItemReq)
    (item : ItemReq) :
  item ∈ its -> Unstorable db b item ->
  Ingestion.toItemWithIds (Ingestion.findIdowu db b) (washerMapOf db b its)
    (serviceItemMapOf db its) item = None.
Proof.
  intros Hin [[Hsp Hw]|Hs]; unfold Ingestion.toItemWithIds.
  - destruct (JS.get (serviceItemMapOf db its) _) as [d| |]; [|done|done].
    apply isSpecialItem_false in Hsp. rewrite Hsp.
    assert (washerMapOf db b its !! washerName item = None) as Hl.
    { destruct (washerMapOf db b its !! washerName item) as [id|] eqn:E;
        [|done].
      assert (hasActiveWasher db b (washerName item) = true) as Hh.
      { apply (washerMapOf_is_Some db b its); [|by eexists].
        apply elem_of_uniq, list_elem_of_fmap. eauto. }
      apply hasActiveWasher_spec in Hh as [w Hw']. by destruct (Hw w). }
    unfold JS.get. rewrite Hl.
    destruct (if _ && _ then _ else _); [|done].
    by destruct (JS.inheritedName (washerName item)).
  - unfold JS.get. rewrite (serviceItemMapOf_absent _ _ _ Hs).
    by destruct (JS.inheritedName (serviceItemName item)).
Qed.

(** X2.  Job ingestion can answer with a 500: a submission that passes
    the checks, because every name on it that is not that of an active
    washer or service item is a property name every object inherits
    ("constructor", "toString" and the like, for which the dictionaries
    answer), and that has a line that cannot be stored, for want of a
    washer on a line that is not special or of a service item, is
    answered with a 500, and the store is left as it was.  Identifiers of
    washers are non-empty, and names of service items distinct. *)
Theorem inherited_name_is_500
    (env : Env) (b : string) (body : Body) (db : Store)
    (its : list ItemReq) (item : ItemReq) :
  (forall w, w ∈ washers db -> w_id w <> "") ->
  NoDup (map s_name (serviceItems db)) ->
  PassesChecks db b body ->
  items body = Some its -> item ∈ its -> Unstorable db b item ->
  Ingestion.createCarWashRecord env b body db = (ServerError, db).
Proof.
  intros Hids Hnd Hpass Hits Hin Hun.
  destruct (passes_checks_runs env b body db Hids Hnd Hpass)
    as (its' & Hits' & ->).
  assert (its' = its) as -> by congruence.
  destruct (mapM _ its) as [iwis|] eqn:Hm; [|done].
  destruct (mapM_Some_elem _ _ _ item Hm Hin) as (iwi & _ & Hi).
  rewrite (unstorable_unresolved db b its item Hin Hun) in Hi. discriminate.
Qed.

Lemma inherited_name_is_500_witness :
  Ingestion.createCarWashRecord Ex.env "branch_a"
    (Ex.submit [Ex.line "constructor" "Full Wash"]) Ex.db
  = (ServerError, Ex.db).
Proof.
  apply (inherited_name_is_500 Ex.env "branch_a" _ Ex.db
           [Ex.line "constructor" "Full Wash"]
           (Ex.line "constructor" "Full Wash")).
  - intros w Hin.
    apply elem_of_cons in Hin as [->|Hin]; [discriminate|].
    apply list_elem_of_singleton in Hin as ->. discriminate.
  - apply (bool_decide_unpack _). vm_compute. exact I.
  - exists [Ex.line "constructor" "Full Wash"].
    split; [reflexivity|]. split; [discriminate|].
    split; [right; left; reflexivity|]. split; [|split].
    + intros (item & Hin & Hsp). apply list_elem_of_singleton in Hin as ->.
      by destruct (not_special_Full_Wash).
    + intros item Hin. apply list_elem_of_singleton in Hin as ->.
      right. apply elem_of_cons. by left.
    + intros item Hin. apply list_elem_of_singleton in Hin as ->.
      left. exists (mkServiceItem "s-full" "Full Wash" 50 true).
      split; [|discriminate].
      split; [apply elem_of_cons; by left | by split].
  - reflexivity.
  - apply list_elem_of_singleton. reflexivity.
  - left. split; [exact not_special_Full_Wash|].
    intros w (Hin & _ & _ & Hn).
    apply elem_of_cons in Hin as [->|Hin]; [discriminate|].
    apply list_elem_of_singleton in Hin as ->. discriminate.
Defined.

(** ** Counters that overflow *)

Lemma updateDailySummaries_fits (b : string) (today : Z)
    (inv : gmap string bool) (counts : gmap string Z) (n : Z)
    (l : list string) :
  NoDup l -> n <= 2147483647 ->
  (forall w, 0 <= default 0 (counts !! w) <= n) ->
  forall table,
    (forall w row,
        w ∈ l -> table !! (w, today, b) = Some row ->
        0 <= ds_totalCarsWashed row < 2147483647
        /\ 0 <= ds_totalItemsWashed row <= 2147483647 - n) ->
    is_Some (Ingestion.updateDailySummaries b today inv counts l table).
Proof.
  intros Hnd Hn Hcounts. unfold Ingestion.updateDailySummaries.
  induction Hnd as [|x l Hx Hnd IH]; intros table Hrows; [by eexists|].
  cbn [fold_left]. cbv zeta.
  assert (upsertChecked
            (fun row => int32 (ds_totalCarsWashed row)
                        && int32 (ds_totalItemsWashed row))
            (x, today, b)
            (fun row =>
               {| ds_totalCarsWashed :=
                    ds_totalCarsWashed row
                    + (if default false (inv !! x) then 1 else 0);
                  ds_totalItemsWashed :=
                    ds_totalItemsWashed row + default 0 (counts !! x) |})
            {| ds_totalCarsWashed := if default false (inv !! x) then 1 else 0;
               ds_totalItemsWashed := default 0 (counts !! x) |}
            table
          = Some (upsert (x, today, b)
                    (fun row =>
                       {| ds_totalCarsWashed :=
                            ds_totalCarsWashed row
                            + (if default false (inv !! x) then 1 else 0);
                          ds_totalItemsWashed :=
                            ds_totalItemsWashed row + default 0 (counts !! x) |})
                    {| ds_totalCarsWashed :=
                         if default false (inv !! x) then 1 else 0;
                       ds_totalItemsWashed := default 0 (counts !! x) |}
                    table)) as ->.
  { unfold upsertChecked. cbv zeta.
    assert (forall c i, 0 <= c <= 2147483647 -> 0 <= i <= 2147483647 ->
              int32 c && int32 i = true) as Hfit.
    { intros c i Hc Hi. unfold int32.
      rewrite !andb_true_iff, !Z.leb_le. lia. }
    pose proof (Hcounts x) as Hcx.
    destruct (table !! (x, today, b)) as [row|] eqn:E.
    - destruct (Hrows x row) as [Hc Hi]; [apply elem_of_cons; by left|done|].
      cbn [ds_totalCarsWashed ds_totalItemsWashed].
      rewrite Hfit; [done| |lia]. destruct (default false (inv !! x)); lia.
    - cbn [ds_totalCarsWashed ds_totalItemsWashed].
      rewrite Hfit; [done| |lia]. destruct (default false (inv !! x)); lia. }
  apply IH. intros w row Hw Hrow.
  rewrite upsert_lookup_ne in Hrow.
  - apply (Hrows w row); [apply elem_of_cons; by right | done].
  - intros [= ->]. by destruct Hx.
Qed.

(** With room in the counters the transaction succeeds. *)
Lemma transaction_fits (env : Env) (b : string) (body : Body)
    (iwis : list ItemWithIds) (total : float) (db : Store) :
  Room db b (startOfDay env (now env)) (Z.of_nat (length iwis)) ->
  is_Some (Ingestion.transaction env b body iwis total
             (JS.uniq (map washerId iwis)) db).
Proof.
  intros (Hn & Hdaily & Hcompany). unfold Ingestion.transaction. cbv zeta.
  cbn [dailySummaries companyDailySummaries].
  match goal with
  | |- context [Ingestion.updateDailySummaries ?b' ?t ?inv ?c ?l ?tab] =>
      destruct (updateDailySummaries_fits b' t inv c (Z.of_nat (length iwis))
                  l (NoDup_uniq _) Hn) with tab as [summaries ->]
  end.
  - intros w. rewrite washerItemCounts_lookup.
    pose proof (filter_length_le
                  (fun item => String.eqb (washerId item) w) iwis). lia.
  - intros w row _ Hrow. by apply (Hdaily w row).
  - unfold upsertChecked. cbv zeta.
    assert (forall c i, 0 <= c <= 2147483647 -> 0 <= i <= 2147483647 ->
              int32 c && int32 i = true) as Hfit.
    { intros c i Hc Hi. unfold int32.
      rewrite !andb_true_iff, !Z.leb_le. lia. }
    destruct (companyDailySummaries db !! (b, startOfDay env (now env)))
      as [row|] eqn:E.
    + destruct (Hcompany row eq_refl) as [Hc Hi].
      cbn [cds_totalCarsWashed cds_totalItemsWashed].
      rewrite Hfit by lia. by eexists.
    + cbn [cds_totalCarsWashed cds_totalItemsWashed].
      rewrite Hfit by lia. by eexists.
Qed.

(** X22.  An acceptable submission is answered with a 201, under a fresh
    job identifier, when the counters of the day have room for it: the
    rows the branch and its washers have for today hold counts that are
    not negative, job counters below 2147483647, the largest value of
    their column, and item counters that stay within it when the lines
    of the submission are added.  Identifiers of washers are non-empty,
    and names of service items distinct. *)
Theorem acceptable_with_room_is_accepted
    (env : Env) (b : string) (body : Body) (db : Store) (its : list ItemReq) :
  (forall w, w ∈ washers db -> w_id w <> "") ->
  NoDup (map s_name (serviceItems db)) ->
  FreshJob env db ->
  Acceptable db b body ->
  items body = Some its ->
  Room db b (startOfDay env (now env)) (Z.of_nat (length its)) ->
  exists cw lines db',
    Ingestion.createCarWashRecord env b body db = (Created cw lines, db').
Proof.
  intros Hids Hnd _ Hacc Hits Hroom.
  destruct (passes_checks_runs env b body db Hids Hnd
              (Acceptable_PassesChecks _ _ _ Hacc)) as (its' & Hits' & ->).
  assert (its' = its) as -> by congruence.
  destruct (acceptable_resolves db b body its Hnd Hacc Hits) as [iwis Hm].
  rewrite Hm.
  rewrite (length_mapM _ _ _ Hm) in Hroom.
  destruct (transaction_fits env b body iwis (sumF (map price iwis)) db Hroom)
    as [[[cw lines] db'] ->].
  by exists cw, lines, db'.
Qed.

(** X23.  An acceptable submission is answered with a 500, and the store
    is left as it was, the job and the lines the transaction wrote
    included, when the branch's row of the day cannot take it: its job
    counter is at 2147483647, the largest value of its column, or its
    item counter would pass that value. *)
Theorem full_counter_is_500
    (env : Env) (b : string) (body : Body) (db : Store) (its : list ItemReq)
    (row : CompanyDailySummary) :
  (forall w, w ∈ washers db -> w_id w <> "") ->
  NoDup (map s_name (serviceItems db)) ->
  Acceptable db b body ->
  items body = Some its ->
  companyDailySummaries db !! (b, startOfDay env (now env)) = Some row ->
  2147483647 <= cds_totalCarsWashed row
  \/ 2147483647 < cds_totalItemsWashed row + Z.of_nat (length its) ->
  Ingestion.createCarWashRecord env b body db = (ServerError, db).
Proof.
  intros Hids Hnd Hacc Hits Hrow Hfull.
  destruct (passes_checks_runs env b body db Hids Hnd
              (Acceptable_PassesChecks _ _ _ Hacc)) as (its' & Hits' & ->).
  assert (its' = its) as -> by congruence.
  destruct (acceptable_resolves db b body its Hnd Hacc Hits) as [iwis Hm].
  rewrite Hm.
  rewrite (length_mapM _ _ _ Hm) in Hfull.
  assert (Ingestion.transaction env b body iwis (sumF (map price iwis))
            (JS.uniq (map washerId iwis)) db = None) as ->; [|done].
  unfold Ingestion.transaction. cbv zeta.
  destruct (Ingestion.updateDailySummaries _ _ _ _ _ _); [|done].
  unfold upsertChecked. cbv zeta. cbn [companyDailySummaries].
  rewrite Hrow. cbn [cds_totalCarsWashed cds_totalItemsWashed].
  assert (int32 (cds_totalCarsWashed row + 1)
          && int32 (cds_totalItemsWashed row + Z.of_nat (length iwis))
          = false) as ->; [|done].
  unfold int32. rewrite !andb_false_iff, !Z.leb_gt. lia.
Qed.

Lemma acceptable_Sam_Full_Wash (db : Store) :
  washers db = washers Ex.db -> serviceItems db = serviceItems Ex.db ->
  Acceptable db "branch_a" (Ex.submit [Ex.line "Sam" "Full Wash"]).
Proof.
  intros Hw Hs. exists [Ex.line "Sam" "Full Wash"].
  split; [reflexivity|]. split; [discriminate|].
  split; [right; left; reflexivity|]. split; [|split].
  - intros (item & Hin & Hsp). apply list_elem_of_singleton in Hin as ->.
    by destruct (not_special_Full_Wash).
  - intros item Hin. apply list_elem_of_singleton in Hin as ->.
    left. exists Ex.sam. unfold ActiveWasher. rewrite Hw.
    split; [apply elem_of_cons; by left | done].
  - intros item Hin. apply list_elem_of_singleton in Hin as ->.
    exists (mkServiceItem "s-full" "Full Wash" 50 true).
    split; [|discriminate]. unfold ActiveService. rewrite Hs.
    split; [apply elem_of_cons; by left | by split].
Qed.

Lemma washer_ids_nonempty (w : Washer) : w ∈ washers Ex.db -> w_id w <> "".
Proof.
  intros Hin. apply elem_of_cons in Hin as [->|Hin]; [discriminate|].
  apply list_elem_of_singleton in Hin as ->. discriminate.
Qed.

Lemma service_names_distinct : NoDup (map s_name (serviceItems Ex.db)).
Proof. apply (bool_decide_unpack _). vm_compute. exact I. Qed.

Lemma acceptable_with_room_is_accepted_witness :
  exists cw lines db',
    Ingestion.createCarWashRecord Ex.env "branch_a"
      (Ex.submit [Ex.line "Sam" "Full Wash"]) Ex.db
    = (Created cw lines, db').
Proof.
  apply (acceptable_with_room_is_accepted Ex.env "branch_a" _ Ex.db
           [Ex.line "Sam" "Full Wash"]).
  - exact washer_ids_nonempty.
  - exact service_names_distinct.
  - split; intros Hin; by apply elem_of_nil in Hin.
  - by apply acceptable_Sam_Full_Wash.
  - reflexivity.
  - split; [simpl; lia|]. split.
    + intros w row Hrow. simpl in Hrow. by rewrite lookup_empty in Hrow.
    + intros row Hrow. simpl in Hrow. by rewrite lookup_empty in Hrow.
Defined.

Lemma full_counter_is_500_witness :
  Ingestion.createCarWashRecord Ex.env "branch_a"
    (Ex.submit [Ex.line "Sam" "Full Wash"]) Ex2.dbFull
  = (ServerError, Ex2.dbFull).
Proof.
  apply (full_counter_is_500 Ex.env "branch_a" _ Ex2.dbFull
           [Ex.line "Sam" "Full Wash"]
           (mkCompanyDailySummary 1 2147483647)).
  - exact washer_ids_nonempty.
  - exact service_names_distinct.
  - by apply acceptable_Sam_Full_Wash.
  - reflexivity.
  - vm_compute. reflexivity.
  - right. simpl. lia.
Defined.
